(** * obs-hang: the MoQ ingest source, its bitstream repacker and decoder

    A shallow embedding of [src/vaapi-decoder.c] and [src/hang-source.c].

    - [Module Machine]: the C integer types the code computes with.
    - [Module Repacker]: [convert_mp4_nal_units_to_annex_b].
    - [Module Model]: the structs, the calls the program makes to the
      outside, and the monad its functions run in.
    - [Module Decoder]: [vaapi_decoder_decode], [software_decode_frame],
      [store_decoded_frame], decoder initialisation and teardown.
    - [Module Source]: the lifecycle callbacks of [hang-source.c].
    - [Module Framing], [Module Properties], [Module Scenarios]: the
      vocabulary of the specification and its literal scenarios.

    The lemmas follow: the repacker, [strstr], a weakest-precondition
    calculus for the monad, the lifecycle invariant, and the decoder. *)

From Stdlib Require Import ZArith Lia Bool String.
From Stdlib.Strings Require Import Byte.
From stdpp Require Import base list strings gmap.

Local Open Scope Z_scope.

(** ** Machine integers *)

Module Machine.

(** [size_t] on the 64-bit Linux targets the plugin is built for. *)
Definition size_t (x : Z) : Z := x mod 2 ^ 64.

Definition uint32_t (x : Z) : Z := x mod 2 ^ 32.

(** A C [int]: 32 bits, two's complement; arithmetic that leaves the
    range wraps, which is what the compilers in use emit. *)
Definition int (x : Z) : Z := (x + 2 ^ 31) mod 2 ^ 32 - 2 ^ 31.

Definition INT_MAX : Z := 2 ^ 31 - 1.

(** An [uint8_t] promoted to [int]. *)
Definition byte_val (b : byte) : Z := Z.of_N (Byte.to_N b).

End Machine.

(** ** Bitstream repacker *)

Module Repacker.
Import Machine.

(** What the C function hands back: [true] with [*out_data] and
    [*out_size], or [false] on one of its two failing paths.
    [OutOfFuel] is an artefact of the loop being run on fuel here. *)
Inductive repack_result : Type :=
  | Repacked (out_data : list byte) (out_size : Z)
  | AllocationFailed
  | InvalidNalLength (nal_length pos size : Z)
  | OutOfFuel.

Definition returns_true (r : repack_result) : bool :=
  match r with Repacked _ _ => true | _ => false end.

(** [data[i]]; reads outside the buffer (undefined in C) give 0. *)
Definition at_index (data : list byte) (i : Z) : Z :=
  byte_val (default x00 (data !! Z.to_nat i)).

(** [bzalloc n]: [n] zero bytes. *)
Definition bzalloc (n : Z) : list byte := replicate (Z.to_nat n) x00.

(** [brealloc buffer n]: the old contents, cut or extended to [n] bytes
    (the new bytes are indeterminate in C; zero here). *)
Definition brealloc (buffer : list byte) (n : Z) : list byte :=
  take (Z.to_nat n) (buffer ++ replicate (Z.to_nat n) x00).

(** [memcpy (buffer + out_pos, data + pos, n)]. *)
Definition memcpy (buffer : list byte) (out_pos : Z)
    (data : list byte) (pos n : Z) : list byte :=
  list_inserts (Z.to_nat out_pos)
    (take (Z.to_nat n) (drop (Z.to_nat pos) data)) buffer.

(** [buffer[i] = b]. *)
Definition store (buffer : list byte) (i : Z) (b : byte) : list byte :=
  <[Z.to_nat i := b]> buffer.

Section WithAllocator.

(** Whether the allocator serves a request of the given size
    ([bzalloc] and [brealloc] returning non-NULL). *)
Variable heap_grants : Z -> bool.

(** The [while (pos + 4 <= size)] loop, lines 286-318.  The cursors
    are [size_t] and wrap; the length is read from bytes promoted to
    [int], and what [<< 24] pushes past bit 31 is the same after the
    conversion to [uint32_t] whether or not the [int] wrapped, so the
    shifts are taken in [Z] and cut to 32 bits once. *)
Fixpoint repack_loop (fuel : nat) (data : list byte) (size : Z)
    (buffer : list byte) (estimated_size out_pos pos : Z) : repack_result :=
  match fuel with
  | O => OutOfFuel
  | S fuel' =>
    if size_t (pos + 4) <=? size then
      let nal_length :=
        uint32_t (Z.lor (Z.lor (Z.lor
          (Z.shiftl (at_index data pos) 24)
          (Z.shiftl (at_index data (size_t (pos + 1))) 16))
          (Z.shiftl (at_index data (size_t (pos + 2))) 8))
          (at_index data (size_t (pos + 3)))) in
      let pos := size_t (pos + 4) in
      if size_t (pos + nal_length) >? size then
        InvalidNalLength nal_length pos size
      else
        let grown :=
          if size_t (out_pos + 4 + nal_length) >? estimated_size then
            let estimated_size := size_t (out_pos + 4 + nal_length + 1024) in
            if heap_grants estimated_size
            then Some (brealloc buffer estimated_size, estimated_size)
            else None
          else Some (buffer, estimated_size) in
        match grown with
        | None => AllocationFailed
        | Some (buffer, estimated_size) =>
          let buffer := store buffer out_pos x00 in
          let out_pos := size_t (out_pos + 1) in
          let buffer := store buffer out_pos x00 in
          let out_pos := size_t (out_pos + 1) in
          let buffer := store buffer out_pos x00 in
          let out_pos := size_t (out_pos + 1) in
          let buffer := store buffer out_pos x01 in
          let out_pos := size_t (out_pos + 1) in
          let buffer := memcpy buffer out_pos data pos nal_length in
          let out_pos := size_t (out_pos + nal_length) in
          let pos := size_t (pos + nal_length) in
          repack_loop fuel' data size buffer estimated_size out_pos pos
        end
    else Repacked buffer out_pos
  end.

(** [convert_mp4_nal_units_to_annex_b (data, size, &out_data, &out_size)],
    with [size] the length of [data].  Every iteration consumes at least
    the four bytes of a prefix, so [length data] iterations and one last
    test of the guard are all the loop can use. *)
Definition convert_mp4_nal_units_to_annex_b (data : list byte) : repack_result :=
  let size := Z.of_nat (length data) in
  let estimated_size := size_t (size + 1024) in
  if heap_grants estimated_size then
    repack_loop (S (length data)) data size
      (bzalloc estimated_size) estimated_size 0 0
  else AllocationFailed.

End WithAllocator.

(** The bytes the caller reads: the first [out_size] of [out_data]. *)
Definition output_bytes (r : repack_result) : option (list byte) :=
  match r with
  | Repacked out_data out_size => Some (take (Z.to_nat out_size) out_data)
  | _ => None
  end.

End Repacker.

(** ** Data model *)

Module Model.

Inductive log_level : Type := LOG_ERROR | LOG_WARNING | LOG_INFO | LOG_DEBUG.

Inductive mutex : Type := frame_mutex | audio_mutex.

Inductive AVPixelFormat : Type :=
  | AV_PIX_FMT_YUV420P
  | AV_PIX_FMT_RGBA
  | AV_PIX_FMT_OTHER (n : Z).

Inductive sws_flag : Type := SWS_BILINEAR | SWS_FULL_CHR_H_INP | SWS_FULL_CHR_H_INT.

Inductive VAProfile : Type :=
  | VAProfileH264High
  | VAProfileH264Main
  | VAProfileHEVCMain
  | VAProfileHEVCMain10
  | VAProfileAV1Profile0
  | VAProfileAV1Profile1.

(** A [struct SwsContext], as far as the program determines it: the
    arguments [sws_getContext] was called with. *)
Record SwsContext : Type := {
  srcW : Z; srcH : Z; srcFormat : AVPixelFormat;
  dstW : Z; dstH : Z; dstFormat : AVPixelFormat;
  sws_flags : list sws_flag
}.

(** The fields of an [AVFrame] the program reads; all three are [int]. *)
Record AVFrame : Type := {
  frame_width : Z;
  frame_height : Z;
  frame_format : AVPixelFormat
}.

(** A block returned by [bzalloc], known by the size it was asked for. *)
Record heap_block : Type := Block { block_bytes : Z }.

(** [struct vaapi_decoder].  Pointers to library objects are kept as
    "non-NULL" flags, [sws_ctx] as the converter it points to. *)
Record vaapi_decoder : Type := {
  va_display : bool;
  va_config : Z;
  va_context : Z;
  va_profile : option VAProfile;
  codec_ctx : bool;
  sws_ctx : option SwsContext;
  width : Z;
  height : Z;
  pix_fmt : AVPixelFormat
}.

Definition set_va_display v d :=
  let 'Build_vaapi_decoder _ cf cx pr cc sw w h pf := d in
  Build_vaapi_decoder v cf cx pr cc sw w h pf.
Definition set_va_config v d :=
  let 'Build_vaapi_decoder dp _ cx pr cc sw w h pf := d in
  Build_vaapi_decoder dp v cx pr cc sw w h pf.
Definition set_va_context v d :=
  let 'Build_vaapi_decoder dp cf _ pr cc sw w h pf := d in
  Build_vaapi_decoder dp cf v pr cc sw w h pf.
Definition set_va_profile v d :=
  let 'Build_vaapi_decoder dp cf cx _ cc sw w h pf := d in
  Build_vaapi_decoder dp cf cx v cc sw w h pf.
Definition set_codec_ctx v d :=
  let 'Build_vaapi_decoder dp cf cx pr _ sw w h pf := d in
  Build_vaapi_decoder dp cf cx pr v sw w h pf.
Definition set_sws_ctx v d :=
  let 'Build_vaapi_decoder dp cf cx pr cc _ w h pf := d in
  Build_vaapi_decoder dp cf cx pr cc v w h pf.
Definition set_width v d :=
  let 'Build_vaapi_decoder dp cf cx pr cc sw _ h pf := d in
  Build_vaapi_decoder dp cf cx pr cc sw v h pf.
Definition set_height v d :=
  let 'Build_vaapi_decoder dp cf cx pr cc sw w _ pf := d in
  Build_vaapi_decoder dp cf cx pr cc sw w v pf.
Definition set_pix_fmt v d :=
  let 'Build_vaapi_decoder dp cf cx pr cc sw w h _ := d in
  Build_vaapi_decoder dp cf cx pr cc sw w h v.

Record obs_source_frame : Type := { frame_timestamp : Z }.
Record obs_source_audio : Type := { audio_timestamp : Z }.

(** Modelled from the spec: the declaration of [struct hang_source]
    ([hang-source.h] is not part of [src/]).  The fields are those the
    two source files read and write, which section 3 lists as the
    attributes of the source context.  A [char *] is [None] when NULL;
    [frame_queue_len] and [audio_queue_len] are the lengths of the two
    lists; the texture and its dimensions, written by
    [hang_source_video_render] only, are left out. *)
Record hang_source : Type := {
  url : option string;
  broadcast_path : option string;
  active : bool;
  session_id : Z;
  subscription_id : Z;
  vaapi_context : option vaapi_decoder;
  audio_context : bool;
  current_frame_data : option heap_block;
  current_frame_size : Z;
  current_frame_width : Z;
  current_frame_height : Z;
  frame_queue : list obs_source_frame;
  audio_queue : list obs_source_audio
}.

Definition set_url v c :=
  let 'Build_hang_source _ b a s u d ad f fs fw fh fq aq := c in
  Build_hang_source v b a s u d ad f fs fw fh fq aq.
Definition set_broadcast_path v c :=
  let 'Build_hang_source r _ a s u d ad f fs fw fh fq aq := c in
  Build_hang_source r v a s u d ad f fs fw fh fq aq.
Definition set_active v c :=
  let 'Build_hang_source r b _ s u d ad f fs fw fh fq aq := c in
  Build_hang_source r b v s u d ad f fs fw fh fq aq.
Definition set_session_id v c :=
  let 'Build_hang_source r b a _ u d ad f fs fw fh fq aq := c in
  Build_hang_source r b a v u d ad f fs fw fh fq aq.
Definition set_subscription_id v c :=
  let 'Build_hang_source r b a s _ d ad f fs fw fh fq aq := c in
  Build_hang_source r b a s v d ad f fs fw fh fq aq.
Definition set_vaapi_context v c :=
  let 'Build_hang_source r b a s u _ ad f fs fw fh fq aq := c in
  Build_hang_source r b a s u v ad f fs fw fh fq aq.
Definition set_audio_context v c :=
  let 'Build_hang_source r b a s u d _ f fs fw fh fq aq := c in
  Build_hang_source r b a s u d v f fs fw fh fq aq.
Definition set_current_frame data size w h c :=
  let 'Build_hang_source r b a s u d ad _ _ _ _ fq aq := c in
  Build_hang_source r b a s u d ad data size w h fq aq.
Definition set_frame_queue v c :=
  let 'Build_hang_source r b a s u d ad f fs fw fh _ aq := c in
  Build_hang_source r b a s u d ad f fs fw fh v aq.
Definition set_audio_queue v c :=
  let 'Build_hang_source r b a s u d ad f fs fw fh fq _ := c in
  Build_hang_source r b a s u d ad f fs fw fh fq v.

(** The latest-frame slot: buffer, size, width, height. *)
Definition slot (c : hang_source) : option heap_block * Z * Z * Z :=
  (current_frame_data c, current_frame_size c,
   current_frame_width c, current_frame_height c).

(** Calls into the host, the relay, the codec libraries and the missing
    [audio-decoder.c], in the order the program makes them. *)
Inductive event : Type :=
  | obs_log (level : log_level) (format : string)
  | moq_session_connect (url : string)
  | moq_session_close (id : Z)
  | moq_subscribe_create (session : Z) (path : string)
  | moq_subscribe_close (id : Z)
  | avcodec_send_packet (data : list byte) (pts : Z)
  | avcodec_receive_frame
  | sws_getContext (ctx : SwsContext)
  | sws_scale (ctx : SwsContext) (srcSliceY srcSliceH : Z)
      (dst : heap_block) (dst_linesize : Z)
  | pthread_mutex_lock (m : mutex)
  | pthread_mutex_unlock (m : mutex)
  | bfree (b : heap_block)
  | audio_decoder_init_call
  | audio_decoder_destroy_call
  | audio_decoder_decode_call (data : list byte) (pts : Z).

(** What the world outside the program answers during one call. *)
Record environment : Type := {
  heap_grants : Z -> bool;
  session_connect_ret : Z;
  subscribe_create_ret : Z;
  drm_open_ok : bool;
  va_get_display_ok : bool;
  va_initialize_ok : bool;
  va_profile_supported : VAProfile -> bool;
  va_config_id : Z;
  va_create_context_ok : bool;
  va_context_id : Z;
  codec_found : bool;
  codec_alloc_ok : bool;
  codec_open_ret : Z;
  audio_init_ok : bool;
  audio_decoded : option obs_source_audio;
  packet_alloc_ok : bool;
  send_packet_ret : Z;
  frame_alloc_ok : bool;
  receive_frame_ret : Z;
  decoded_frame : AVFrame;
  sws_context_ok : bool;
  sws_scale_ret : Z
}.

(** Code running on a [struct hang_source *context]: a result, the
    context afterwards, and the calls made. *)
Definition M (A : Type) : Type := hang_source -> A * hang_source * list event.

Definition ret {A} (a : A) : M A := fun c => (a, c, []).

Definition bind {A B} (m : M A) (k : A -> M B) : M B :=
  fun c =>
    let '(a, c1, t1) := m c in
    let '(b, c2, t2) := k a c1 in
    (b, c2, t1 ++ t2).

Definition get : M hang_source := fun c => (c, c, []).
Definition modify (f : hang_source -> hang_source) : M unit := fun c => (tt, f c, []).
Definition emit (e : event) : M unit := fun c => (tt, c, [e]).
Definition when (b : bool) (m : M unit) : M unit := if b then m else ret tt.

Definition result {A} (r : A * hang_source * list event) : A := r.1.1.
Definition context_after {A} (r : A * hang_source * list event) : hang_source := r.1.2.
Definition calls {A} (r : A * hang_source * list event) : list event := r.2.

(** [wp m Q c]: started on [c], [m] ends with a result and a context
    that satisfy [Q]. *)
Definition wp {A} (m : M A) (Q : A -> hang_source -> Prop)
    (c : hang_source) : Prop :=
  Q (result (m c)) (context_after (m c)).

End Model.

Notation "'let*' x := m 'in' k" := (Model.bind m (fun x => k))
  (at level 10, x name, m at level 100, k at level 200).
Notation "'do' m 'then' k" := (Model.bind m (fun _ : unit => k))
  (at level 10, m at level 100, k at level 200).

(** ** Video decoder: [vaapi-decoder.c] *)

Module Decoder.
Import Machine Repacker Model.

Local Open Scope string_scope.
Local Open Scope Z_scope.

(** [AVERROR(EAGAIN)] on Linux. *)
Definition AVERROR_EAGAIN : Z := -11.

(** [bzalloc (sizeof (struct vaapi_decoder))]: every field zero.  Zero
    is [AV_PIX_FMT_YUV420P] for [pix_fmt]; no profile has been chosen. *)
Definition zeroed_decoder : vaapi_decoder :=
  {| va_display := false; va_config := 0; va_context := 0;
     va_profile := None; codec_ctx := false; sws_ctx := None;
     width := 0; height := 0; pix_fmt := AV_PIX_FMT_YUV420P |}.

(** [decoder->...] writes, [decoder] being [context->vaapi_context]. *)
Definition update_decoder (f : vaapi_decoder -> vaapi_decoder) : M unit :=
  modify (fun c => set_vaapi_context (f <$> vaapi_context c) c).

Definition vaapi_init_display (e : environment) : M bool :=
  if negb (drm_open_ok e) then
    do emit (obs_log LOG_DEBUG "Failed to open DRM device %s: %s") then
    ret false
  else
    do update_decoder (set_va_display (va_get_display_ok e)) then
    if negb (va_get_display_ok e) then ret false
    else if negb (va_initialize_ok e) then
      do emit (obs_log LOG_DEBUG "VA-API initialization failed: %s") then
      ret false
    else
      do emit (obs_log LOG_INFO "VA-API initialized: version %d.%d") then
      ret true.

Definition profiles : list VAProfile :=
  [VAProfileH264High; VAProfileH264Main; VAProfileHEVCMain;
   VAProfileHEVCMain10; VAProfileAV1Profile0; VAProfileAV1Profile1].

Definition vaapi_create_config (e : environment) : M bool :=
  match List.find (va_profile_supported e) profiles with
  | Some p =>
    do update_decoder (set_va_config (va_config_id e)) then
    do update_decoder (set_va_profile (Some p)) then
    do emit (obs_log LOG_INFO "VA-API config created for profile %d") then
    ret true
  | None =>
    do emit (obs_log LOG_DEBUG "No supported VA-API profiles found") then
    ret false
  end.

Definition vaapi_create_context (e : environment) : M bool :=
  do update_decoder (set_width 1920) then
  do update_decoder (set_height 1080) then
  if negb (va_create_context_ok e) then
    do emit (obs_log LOG_DEBUG "VA-API context creation failed: %s") then
    ret false
  else
    do update_decoder (set_va_context (va_context_id e)) then
    ret true.

Definition vaapi_cleanup : M unit :=
  do update_decoder (fun d =>
       if negb (va_context d =? 0) then set_va_context 0 d else d) then
  do update_decoder (fun d =>
       if negb (va_config d =? 0) then set_va_config 0 d else d) then
  update_decoder (fun d =>
       if va_display d then set_va_display false d else d).

(** The [software_fallback:] label of [vaapi_decoder_init]. *)
Definition software_fallback (e : environment) : M bool :=
  if negb (codec_found e) then
    do emit (obs_log LOG_ERROR "H.264 codec not found") then
    do modify (set_vaapi_context None) then
    ret false
  else
    do update_decoder (set_codec_ctx (codec_alloc_ok e)) then
    if negb (codec_alloc_ok e) then
      do emit (obs_log LOG_ERROR "Failed to allocate codec context") then
      do modify (set_vaapi_context None) then
      ret false
    else if codec_open_ret e <? 0 then
      do emit (obs_log LOG_ERROR "Failed to open codec") then
      do update_decoder (set_codec_ctx false) then
      do modify (set_vaapi_context None) then
      ret false
    else
      do update_decoder (set_pix_fmt AV_PIX_FMT_YUV420P) then
      do emit (obs_log LOG_INFO "FFmpeg software decoder initialized as fallback") then
      ret true.

Definition vaapi_decoder_init (e : environment) : M bool :=
  do modify (set_vaapi_context (Some zeroed_decoder)) then
  let* ok := vaapi_init_display e in
  if negb ok then
    do emit (obs_log LOG_WARNING
      "VA-API display initialization failed, falling back to software decoding") then
    software_fallback e
  else
    let* ok := vaapi_create_config e in
    if negb ok then
      do emit (obs_log LOG_WARNING
        "VA-API config creation failed, falling back to software decoding") then
      do vaapi_cleanup then
      software_fallback e
    else
      let* ok := vaapi_create_context e in
      if negb ok then
        do emit (obs_log LOG_WARNING
          "VA-API context creation failed, falling back to software decoding") then
        do vaapi_cleanup then
        software_fallback e
      else
        do emit (obs_log LOG_INFO "VA-API decoder initialized successfully") then
        ret true.

Definition vaapi_decoder_destroy : M unit :=
  let* c := get in
  match vaapi_context c with
  | None => ret tt
  | Some _ =>
    do vaapi_cleanup then
    do update_decoder (set_codec_ctx false) then
    do update_decoder (set_sws_ctx None) then
    modify (set_vaapi_context None)
  end.

(** The placeholder hardware path. *)
Definition vaapi_decode_frame (data : list byte) (pts : Z) : M bool :=
  do emit (obs_log LOG_DEBUG "VA-API decode not implemented") then
  ret false.

Definition store_decoded_frame (data : heap_block) (size width height : Z) : M unit :=
  do emit (pthread_mutex_lock frame_mutex) then
  let* c := get in
  do match current_frame_data c with
     | Some previous => emit (bfree previous)
     | None => ret tt
     end then
  do modify (set_current_frame (Some data) size width height) then
  emit (pthread_mutex_unlock frame_mutex).

(** [frame->width * frame->height * 4]: three [int]s multiplied as
    [int], then converted to [size_t]. *)
Definition rgba_size_of (frame : AVFrame) : Z :=
  size_t (int (int (frame_width frame * frame_height frame) * 4)).

(** The converter [sws_getContext] is asked for at line 378. *)
Definition converter_for (frame : AVFrame) : SwsContext :=
  {| srcW := frame_width frame; srcH := frame_height frame;
     srcFormat := frame_format frame;
     dstW := frame_width frame; dstH := frame_height frame;
     dstFormat := AV_PIX_FMT_RGBA;
     sws_flags := [SWS_BILINEAR; SWS_FULL_CHR_H_INP; SWS_FULL_CHR_H_INT] |}.

(** Lines 376-422, from the frame the codec produced. *)
Definition convert_and_store (e : environment) (frame : AVFrame) : M bool :=
  let* c := get in
  let* converter :=
    match vaapi_context c ≫= sws_ctx with
    | Some ctx => ret (Some ctx)
    | None =>
      if sws_context_ok e then
        do emit (sws_getContext (converter_for frame)) then
        do update_decoder (set_sws_ctx (Some (converter_for frame))) then
        ret (Some (converter_for frame))
      else
        do emit (obs_log LOG_ERROR "Failed to create SWS context") then
        ret None
    end in
  match converter with
  | None => ret false
  | Some ctx =>
    let rgba_size := rgba_size_of frame in
    if negb (heap_grants e rgba_size) then
      do emit (obs_log LOG_ERROR "Failed to allocate RGBA buffer") then
      ret false
    else
      let rgba_data := Block rgba_size in
      let dst_linesize := int (frame_width frame * 4) in
      do emit (sws_scale ctx 0 (frame_height frame) rgba_data dst_linesize) then
      if sws_scale_ret e <? 0 then
        do emit (obs_log LOG_ERROR "sws_scale failed: %s") then
        do emit (bfree rgba_data) then
        ret false
      else
        do store_decoded_frame rgba_data rgba_size
             (uint32_t (frame_width frame)) (uint32_t (frame_height frame)) then
        do emit (obs_log LOG_DEBUG "Stored decoded RGBA frame for OBS: %dx%d") then
        ret true
  end.

Definition software_decode_frame (e : environment) (data : list byte)
    (pts : Z) : M bool :=
  do emit (obs_log LOG_DEBUG "Software decoding frame: size=%zu, pts=%llu") then
  match convert_mp4_nal_units_to_annex_b (heap_grants e) data with
  | Repacked converted_data converted_size =>
    if negb (packet_alloc_ok e) then
      do emit (obs_log LOG_ERROR "Failed to allocate AVPacket") then
      ret false
    else
      do emit (avcodec_send_packet
                 (take (Z.to_nat converted_size) converted_data) pts) then
      if send_packet_ret e <? 0 then
        do emit (obs_log LOG_ERROR "Error sending packet to decoder: %s") then
        ret false
      else if negb (frame_alloc_ok e) then
        do emit (obs_log LOG_ERROR "Failed to allocate AVFrame") then
        ret false
      else
        do emit avcodec_receive_frame then
        if receive_frame_ret e <? 0 then
          do when (negb (receive_frame_ret e =? AVERROR_EAGAIN))
               (emit (obs_log LOG_ERROR "Error receiving frame from decoder: %s")) then
          ret false
        else convert_and_store e (decoded_frame e)
  | InvalidNalLength _ _ _ =>
    do emit (obs_log LOG_ERROR "Invalid NAL length: %u (pos=%zu, size=%zu)") then
    do emit (obs_log LOG_ERROR "Failed to convert NAL units") then
    ret false
  | AllocationFailed | OutOfFuel =>
    do emit (obs_log LOG_ERROR "Failed to convert NAL units") then
    ret false
  end.

Definition vaapi_decoder_decode (e : environment) (data : list byte)
    (pts : Z) (keyframe : bool) : M bool :=
  let* c := get in
  match vaapi_context c with
  | None => ret false
  | Some decoder =>
    if va_display decoder then
      do emit (obs_log LOG_DEBUG "Using VA-API decoder") then
      vaapi_decode_frame data pts
    else if codec_ctx decoder then
      do emit (obs_log LOG_DEBUG "Using software decoder") then
      software_decode_frame e data pts
    else
      do emit (obs_log LOG_DEBUG
           "No decoder available - va_display=%p, codec_ctx=%p") then
      ret false
  end.

End Decoder.

(** ** Source lifecycle: [hang-source.c] *)

Module Source.
Import Machine Repacker Model Decoder.

Local Open Scope string_scope.
Local Open Scope Z_scope.

(** [strlen], as a C integer. *)
Definition strlen (s : string) : Z := Z.of_nat (String.length s).

(** [strstr haystack needle]: the tail of [haystack] that starts at the
    first occurrence of [needle], [None] for NULL. *)
Fixpoint strstr (haystack needle : string) : option string :=
  if String.prefix needle haystack then Some haystack
  else match haystack with
       | EmptyString => None
       | String _ rest => strstr rest needle
       end.

(** [s + n] on a [char *] known to hold at least [n] characters. *)
Fixpoint advance (n : nat) (s : string) : string :=
  match n, s with
  | S n', String _ rest => advance n' rest
  | _, _ => s
  end.

(** [obs_data_get_string]: the empty string for a key that is not set. *)
Definition obs_data_get_string (settings : gmap string string)
    (name : string) : string :=
  default "" (settings !! name).

(** Both queues are allocated with room for 16 entries. *)
Definition queue_cap : nat := 16.

(** Modelled from the spec: the audio decoder ([audio_decoder_init],
    [audio_decoder_destroy], [audio_decoder_decode] of [audio-decoder.c],
    called here but not part of [src/]).  Section 4.3: [init] prepares a
    decoder, [destroy] releases it, [decode] decodes one unit and
    enqueues its PCM planes; section 4.4: the queue holds 16 entries,
    enqueues under the audio mutex and drops the oldest when full. *)
Definition audio_decoder_init (e : environment) : M bool :=
  do emit audio_decoder_init_call then
  do modify (set_audio_context (audio_init_ok e)) then
  ret (audio_init_ok e).

(** Modelled from the spec: [audio_decoder_destroy] releases the
    decoder state (section 4.3). *)
Definition audio_decoder_destroy : M unit :=
  do emit audio_decoder_destroy_call then
  modify (set_audio_context false).

(** Modelled from the spec: the bounded audio queue of section 4.4,
    dropping the oldest entry when 16 are queued. *)
Definition enqueue_audio (a : obs_source_audio)
    (q : list obs_source_audio) : list obs_source_audio :=
  if (queue_cap <=? length q)%nat then drop 1 q ++ [a] else q ++ [a].

(** Modelled from the spec: [audio_decoder_decode] decodes one unit
    and, when the codec yields samples, enqueues them under the audio
    mutex (sections 4.3 and 4.4). *)
Definition audio_decoder_decode (e : environment) (data : list byte)
    (pts : Z) : M bool :=
  do emit (audio_decoder_decode_call data pts) then
  match audio_decoded e with
  | None => ret false
  | Some a =>
    do emit (pthread_mutex_lock audio_mutex) then
    let* c := get in
    do modify (set_audio_queue (enqueue_audio a (audio_queue c))) then
    do emit (pthread_mutex_unlock audio_mutex) then
    ret true
  end.

Definition is_null {A} (p : option A) : bool :=
  match p with None => true | Some _ => false end.

(** [strlen (p) == 0] for a non-NULL [p]. *)
Definition is_empty (p : option string) : bool :=
  match p with Some s => strlen s =? 0 | None => false end.

Definition invalid_url_format : string :=
  "Invalid URL format: %s (must include scheme like https://)".
Definition invalid_url_missing_host : string :=
  "Invalid URL: %s (missing host)".

(** The [cleanup:] label of [hang_source_activate]. *)
Definition activate_cleanup : M unit :=
  let* c := get in
  do when (subscription_id c >? 0)
       (do emit (moq_subscribe_close (subscription_id c)) then
        modify (set_subscription_id 0)) then
  let* c := get in
  do when (session_id c >? 0)
       (do emit (moq_session_close (session_id c)) then
        modify (set_session_id 0)) then
  do vaapi_decoder_destroy then
  audio_decoder_destroy.

Definition hang_source_activate (e : environment) : M unit :=
  let* c := get in
  if active c || is_null (url c) || is_null (broadcast_path c)
     || is_empty (url c) || is_empty (broadcast_path c)
  then ret tt
  else
    let the_url := default "" (url c) in
    let the_path := default "" (broadcast_path c) in
    match strstr the_url "://" with
    | None => emit (obs_log LOG_ERROR invalid_url_format)
    | Some host_start =>
      if strlen (advance 3 host_start) =? 0 then
        emit (obs_log LOG_ERROR invalid_url_missing_host)
      else
        do emit (obs_log LOG_INFO
             "Activating hang source with URL: %s, broadcast: %s") then
        do emit (moq_session_connect the_url) then
        do modify (set_session_id (session_connect_ret e)) then
        if session_connect_ret e <=? 0 then
          emit (obs_log LOG_ERROR "Failed to create MoQ session")
        else
          let* ok := vaapi_decoder_init e in
          if negb ok then
            do emit (obs_log LOG_ERROR "Failed to initialize VA-API decoder") then
            activate_cleanup
          else
            let* ok := audio_decoder_init e in
            if negb ok then
              do emit (obs_log LOG_ERROR "Failed to initialize audio decoder") then
              activate_cleanup
            else
              do emit (moq_subscribe_create (session_connect_ret e) the_path) then
              do modify (set_subscription_id (subscribe_create_ret e)) then
              if subscribe_create_ret e <=? 0 then
                do emit (obs_log LOG_ERROR "Failed to create MoQ subscription") then
                activate_cleanup
              else
                do modify (set_active true) then
                emit (obs_log LOG_INFO "Hang source activated successfully")
    end.

Definition hang_source_deactivate : M unit :=
  let* c := get in
  if negb (active c) then ret tt
  else
    do emit (obs_log LOG_INFO "Deactivating hang source") then
    do modify (set_active false) then
    let* c := get in
    do when (subscription_id c >? 0)
         (do emit (moq_subscribe_close (subscription_id c)) then
          modify (set_subscription_id 0)) then
    let* c := get in
    do when (session_id c >? 0)
         (do emit (moq_session_close (session_id c)) then
          modify (set_session_id 0)) then
    do vaapi_decoder_destroy then
    do audio_decoder_destroy then
    do emit (pthread_mutex_lock frame_mutex) then
    let* c := get in
    do match current_frame_data c with
       | Some b =>
         do emit (bfree b) then
         modify (set_current_frame None 0 0 0)
       | None => ret tt
       end then
    do modify (set_frame_queue []) then
    do emit (pthread_mutex_unlock frame_mutex) then
    do emit (pthread_mutex_lock audio_mutex) then
    do modify (set_audio_queue []) then
    do emit (pthread_mutex_unlock audio_mutex) then
    emit (obs_log LOG_INFO "Hang source deactivated").

Definition hang_source_update (e : environment)
    (settings : gmap string string) : M unit :=
  let new_url := obs_data_get_string settings "url" in
  let new_path := obs_data_get_string settings "broadcast" in
  let* c := get in
  let url_changed :=
    match url c with
    | None => true
    | Some s => negb (String.eqb s new_url)
    end in
  let broadcast_changed :=
    match broadcast_path c with
    | None => true
    | Some s => negb (String.eqb s new_path)
    end in
  if negb url_changed && negb broadcast_changed then ret tt
  else
    do hang_source_deactivate then
    do modify (set_url (Some new_url)) then
    do modify (set_broadcast_path (Some new_path)) then
    if url_changed || broadcast_changed then
      let* c := get in
      if negb (is_null (url c)) && negb (is_null (broadcast_path c))
         && (strlen (default "" (url c)) >? 0)
         && (strlen (default "" (broadcast_path c)) >? 0)
      then hang_source_activate e
      else ret tt
    else ret tt.

(** [bzalloc (sizeof (struct hang_source))], the slot zeroed and the
    two queues allocated empty. *)
Definition zeroed_context : hang_source :=
  {| url := None; broadcast_path := None; active := false;
     session_id := 0; subscription_id := 0;
     vaapi_context := None; audio_context := false;
     current_frame_data := None; current_frame_size := 0;
     current_frame_width := 0; current_frame_height := 0;
     frame_queue := []; audio_queue := [] |}.

Definition hang_source_create (e : environment)
    (settings : gmap string string) : hang_source :=
  context_after
    ((do modify (set_current_frame None 0 0 0) then
      do modify (set_frame_queue []) then
      do modify (set_audio_queue []) then
      hang_source_update e settings) zeroed_context).

Definition on_catalog : M unit :=
  emit (obs_log LOG_INFO "Received catalog: %s").

Definition on_video (e : environment) (track : Z) (data : list byte)
    (pts : Z) (keyframe : bool) : M unit :=
  let* c := get in
  if negb (active c) then ret tt
  else
    do emit (obs_log LOG_DEBUG
         "Received video frame: track=%d, size=%zu, pts=%llu, keyframe=%d") then
    let* decoded := vaapi_decoder_decode e data pts keyframe in
    ret tt.

Definition on_audio (e : environment) (track : Z) (data : list byte)
    (pts : Z) : M unit :=
  let* c := get in
  if negb (active c) then ret tt
  else
    do emit (obs_log LOG_DEBUG
         "Received audio frame: track=%d, size=%zu, pts=%llu") then
    let* decoded := audio_decoder_decode e data pts in
    ret tt.

Definition on_error (code : Z) : M unit :=
  emit (obs_log LOG_ERROR "MoQ error: %d").

(** One call by the host or the relay on a live context, each taken
    as a whole, the world answering within [E].
    [hang_source_video_render] and the two size getters write none of
    the fields kept here, and [hang_source_destroy] ends the life of
    the context, so none of them is a step. *)
Inductive step (E : environment -> Prop) : hang_source -> hang_source -> Prop :=
  | step_update e settings c :
      E e -> step E c (context_after (hang_source_update e settings c))
  | step_activate e c :
      E e -> step E c (context_after (hang_source_activate e c))
  | step_deactivate c :
      step E c (context_after (hang_source_deactivate c))
  | step_on_catalog c :
      step E c (context_after (on_catalog c))
  | step_on_video e track data pts keyframe c :
      E e -> step E c (context_after (on_video e track data pts keyframe c))
  | step_on_audio e track data pts c :
      E e -> step E c (context_after (on_audio e track data pts c))
  | step_on_error code c :
      step E c (context_after (on_error code c)).

(** The contexts the program can be in: what [hang_source_create]
    returns, and what the calls above make of it. *)
Inductive reachable (E : environment -> Prop) : hang_source -> Prop :=
  | reachable_create e settings :
      E e -> reachable E (hang_source_create e settings)
  | reachable_step c c' :
      reachable E c -> step E c c' -> reachable E c'.

(** No assumption on the world. *)
Definition any_environment (e : environment) : Prop := True.

End Source.

(** ** The two framings, as the specification words them *)

Module Framing.
Import Machine.

(** Four bytes read as a big-endian unsigned number. *)
Definition big_endian_32 (b0 b1 b2 b3 : byte) : Z :=
  2 ^ 24 * byte_val b0 + 2 ^ 16 * byte_val b1 + 2 ^ 8 * byte_val b2 + byte_val b3.

(** A NAL unit of the input: its four prefix bytes and its payload. *)
Record nal_unit : Type := {
  prefix : byte * byte * byte * byte;
  payload : list byte
}.

Definition prefix_bytes (u : nal_unit) : list byte :=
  let '(b0, b1, b2, b3) := prefix u in [b0; b1; b2; b3].

Definition declared_length (u : nal_unit) : Z :=
  let '(b0, b1, b2, b3) := prefix u in big_endian_32 b0 b1 b2 b3.

(** The prefix declares exactly the payload that follows it. *)
Definition well_framed (u : nal_unit) : Prop :=
  declared_length u = Z.of_nat (length (payload u)).

(** Length-prefixed framing: every unit as prefix then payload. *)
Definition length_prefixed (units : list nal_unit) : list byte :=
  concat (map (fun u => prefix_bytes u ++ payload u) units).

Definition start_code : list byte := [x00; x00; x00; x01].

(** Start-code framing: every payload behind [00 00 00 01]. *)
Definition start_coded (payloads : list (list byte)) : list byte :=
  concat (map (fun p => start_code ++ p) payloads).

(** A buffer that fits the address space of the process with room to
    spare, as every buffer the relay can hand over does. *)
Definition addressable (data : list byte) : Prop :=
  Z.of_nat (length data) < 2 ^ 63.

End Framing.

(** ** Properties of contexts and of traces *)

Module Properties.
Import Machine Model Decoder Source.

Local Open Scope Z_scope.

(** The slot invariant of the data model: a buffer in the slot has
    size width x height x 4, and both dimensions are positive. *)
Definition slot_invariant (c : hang_source) : Prop :=
  current_frame_data c <> None ->
  current_frame_size c = current_frame_width c * current_frame_height c * 4
  /\ 0 < current_frame_width c /\ 0 < current_frame_height c.

(** The empty slot: NULL buffer, zero size and dimensions. *)
Definition empty_slot : option heap_block * Z * Z * Z := (None, 0, 0, 0).

(** An id the program treats as a live session or subscription: the
    test [id > 0] that guards every close. *)
Definition holds_session (c : hang_source) : bool := session_id c >? 0.
Definition holds_subscription (c : hang_source) : bool := subscription_id c >? 0.

(** [InvalidConfiguration] reaches the user as one of the two error
    lines of the URL check. *)
Definition is_invalid_configuration (ev : event) : bool :=
  match ev with
  | obs_log LOG_ERROR format =>
    String.eqb format invalid_url_format
    || String.eqb format invalid_url_missing_host
  | _ => false
  end.

Definition surfaces_invalid_configuration (t : list event) : bool :=
  existsb is_invalid_configuration t.

Definition is_session_connect (ev : event) : bool :=
  match ev with moq_session_connect _ => true | _ => false end.

Definition opens_session (t : list event) : bool := existsb is_session_connect t.

(** A frame is staged inside the critical section of the frame mutex,
    which the decoder enters nowhere else. *)
Definition is_frame_lock (ev : event) : bool :=
  match ev with pthread_mutex_lock frame_mutex => true | _ => false end.

Definition stages_frame (t : list event) : bool := existsb is_frame_lock t.

(** The converters that [sws_scale] was run with. *)
Definition converters_used (t : list event) : list SwsContext :=
  omap (fun ev => match ev with
                  | sws_scale ctx _ _ _ _ => Some ctx
                  | _ => None
                  end) t.

(** A converter to packed RGBA at the given width and height. *)
Definition targets_rgba_at (ctx : SwsContext) (w h : Z) : Prop :=
  dstFormat ctx = AV_PIX_FMT_RGBA /\ dstW ctx = w /\ dstH ctx = h.

(** URLs the check of [hang_source_activate] turns down: no ["://"]
    in it, or nothing behind the first one. *)
Definition lacks_separator (u : string) : Prop :=
  forall before after : string, u <> (before ++ "://" ++ after)%string.

Definition host_is_empty (u : string) : Prop :=
  exists scheme : string,
    u = (scheme ++ "://")%string
    /\ forall before after : string,
         (scheme ++ ":/")%string <> (before ++ "://" ++ after)%string.

(** What [store_decoded_frame] leaves in the slot for the frame the
    codec produced: lines 390, 391 and 415. *)
Definition staged_slot (e : environment) : option heap_block * Z * Z * Z :=
  (Some (Block (rgba_size_of (decoded_frame e))),
   rgba_size_of (decoded_frame e),
   uint32_t (frame_width (decoded_frame e)),
   uint32_t (frame_height (decoded_frame e))).

(** What holds of every context between two calls: the frame queue is
    never filled, a NULL slot is a zeroed slot, an active context holds
    a session and a subscription, an inactive one holds nothing. *)
Definition lifecycle_invariant (c : hang_source) : Prop :=
  frame_queue c = []
  /\ (current_frame_data c = None ->
      current_frame_size c = 0 /\ current_frame_width c = 0
      /\ current_frame_height c = 0)
  /\ (active c = true -> 0 < session_id c /\ 0 < subscription_id c)
  /\ (active c = false ->
      current_frame_data c = None /\ audio_queue c = []
      /\ session_id c <= 0 /\ subscription_id c <= 0).

(** A configuration string that is empty: never set, or set to [""]. *)
Definition unset (p : option string) : Prop := p = None \/ p = Some ""%string.

(** A frame whose dimensions are positive and whose RGBA size fits a
    C [int]. *)
Definition fits_int (frame : AVFrame) : Prop :=
  0 < frame_width frame /\ 0 < frame_height frame
  /\ frame_width frame * frame_height frame * 4 <= INT_MAX.

(** The picture-size check of libavutil ([av_image_check_size], with
    its stride of [8 * w + 1024]), which every frame that libavcodec
    hands out has passed. *)
Definition picture_size_checked (frame : AVFrame) : Prop :=
  0 < frame_width frame /\ 0 < frame_height frame
  /\ (8 * frame_width frame + 1024) * (frame_height frame + 128) < 2 ^ 31.

(** A codec that returns pictures of such sizes only. *)
Definition codec_contract (e : environment) : Prop :=
  fits_int (decoded_frame e).

End Properties.

(** ** Scenarios *)

Module Scenarios.
Import Machine Model Decoder Source.

Local Open Scope string_scope.
Local Open Scope Z_scope.

Definition yuv_frame (w h : Z) : AVFrame :=
  {| frame_width := w; frame_height := h; frame_format := AV_PIX_FMT_YUV420P |}.

(** A machine without a render node, where the relay answers, the
    software codec opens, every allocation is served and the codec
    produces [frame] for each access unit. *)
Definition software_env (frame : AVFrame) : environment :=
  {| heap_grants := fun _ => true;
     session_connect_ret := 1; subscribe_create_ret := 1;
     drm_open_ok := false; va_get_display_ok := false;
     va_initialize_ok := false; va_profile_supported := fun _ => false;
     va_config_id := 0; va_create_context_ok := false; va_context_id := 0;
     codec_found := true; codec_alloc_ok := true; codec_open_ret := 0;
     audio_init_ok := true; audio_decoded := None;
     packet_alloc_ok := true; send_packet_ret := 0;
     frame_alloc_ok := true; receive_frame_ret := 0;
     decoded_frame := frame;
     sws_context_ok := true; sws_scale_ret := frame_height frame |}.

Definition settings_of (the_url the_path : string) : gmap string string :=
  <["url" := the_url]> (<["broadcast" := the_path]> ∅).

(** Scenario 1 of the specification, up to the subscription. *)
Definition subscribed : hang_source :=
  hang_source_create (software_env (yuv_frame 640 360))
    (settings_of "https://relay.example/moq" "demo/track").

(** One empty access unit delivered while the codec holds a frame. *)
Definition after_frame (w h : Z) (c : hang_source) : hang_source :=
  context_after (on_video (software_env (yuv_frame w h)) 0 [] 0 true c).

(** A context configured but never activated. *)
Definition configured (the_url the_path : string) : hang_source :=
  set_url (Some the_url) (set_broadcast_path (Some the_path) zeroed_context).

End Scenarios.

(** ** The host side: rendering, sizes, destruction, module load *)

Module Host.
Import Machine Model Decoder Source.

Local Open Scope string_scope.
Local Open Scope Z_scope.
Local Open Scope list_scope.

(** A texture made by [gs_texture_create], known by its dimensions. *)
Record gs_texture : Type := { texture_width : Z; texture_height : Z }.

(** Modelled from the spec: the three fields of [struct hang_source]
    that only [hang_source_video_render] and [hang_source_destroy]
    touch ([hang-source.h] is not part of [src/]): the compositor
    texture and the dimensions it was made for.  [bzalloc] zeroes them. *)
Record render_fields : Type := {
  texture : option gs_texture;
  width : Z;
  height : Z
}.

Definition zeroed_render_fields : render_fields :=
  {| texture := None; width := 0; height := 0 |}.

(** Calls into the graphics subsystem and the frees of queue entries. *)
Inductive host_call : Type :=
  | gs_texture_destroy (t : gs_texture)
  | gs_texture_create (w h : Z)
  | gs_texture_set_image (t : gs_texture) (data : heap_block) (linesize : Z)
  | gs_effect_set_texture (t : gs_texture)
  | gs_draw_sprite (t : gs_texture) (w h : Z)
  | obs_source_frame_free (f : obs_source_frame)
  | free_audio (a : obs_source_audio).

(** A call of either kind, in program order. *)
Inductive host_event : Type :=
  | program (ev : event)
  | host (g : host_call).

(** What the graphics subsystem answers during one render. *)
Record render_environment : Type := {
  texture_create_ok : bool;
  effect_has_image : bool
}.

(** [hang_source_video_render], lines 346-400.  The loop of lines
    372-379 reads the buffer only to fill an argument of the log line
    that follows it. *)
Definition hang_source_video_render (e : render_environment)
    (c : hang_source) (r : render_fields) : render_fields * list host_event :=
  if negb (active c) then (r, [])
  else
    match current_frame_data c with
    | Some data =>
      if (current_frame_width c >? 0) && (current_frame_height c >? 0) then
        let w := current_frame_width c in
        let h := current_frame_height c in
        let '(r1, t1) :=
          if is_null (texture r) || negb (width r =? w) || negb (height r =? h)
          then
            ({| texture := if texture_create_ok e
                           then Some {| texture_width := w; texture_height := h |}
                           else None;
                width := w; height := h |},
             match texture r with
             | Some old => [host (gs_texture_destroy old)]
             | None => []
             end ++ [host (gs_texture_create w h)])
          else (r, []) in
        let t2 :=
          match texture r1 with
          | Some tex =>
            [program (obs_log LOG_DEBUG "RGBA data validation: has_data=%d, size=%zu");
             host (gs_texture_set_image tex data (uint32_t (w * 4)));
             program (obs_log LOG_DEBUG "Texture upload completed for %dx%d")]
            ++ (if effect_has_image e then
                  [host (gs_effect_set_texture tex);
                   host (gs_draw_sprite tex w h);
                   program (obs_log LOG_DEBUG "Sprite drawn successfully")]
                else
                  [program (obs_log LOG_ERROR "Effect parameter 'image' not found")])
          | None =>
            [program (obs_log LOG_ERROR "No texture available for rendering")]
          end in
        (r1, [program (pthread_mutex_lock frame_mutex)] ++ t1 ++ t2
               ++ [program (pthread_mutex_unlock frame_mutex)])
      else
        (r, [program (pthread_mutex_lock frame_mutex);
             program (pthread_mutex_unlock frame_mutex)])
    | None =>
      (r, [program (pthread_mutex_lock frame_mutex);
           program (pthread_mutex_unlock frame_mutex)])
    end.

Definition hang_source_get_width (c : hang_source) : Z :=
  if current_frame_width c >? 0 then current_frame_width c else 1920.

Definition hang_source_get_height (c : hang_source) : Z :=
  if current_frame_height c >? 0 then current_frame_height c else 1080.

(** [hang_source_destroy], lines 106-162: the calls it makes.  The
    frees of the two queue arrays, of the strings and of the context,
    and the teardown of the mutexes and condition variables, follow
    unconditionally and are not recorded. *)
Definition hang_source_destroy (c : hang_source) (r : render_fields)
    : list host_event :=
  let '(_, c1, t1) := hang_source_deactivate c in
  let t2 := if subscription_id c1 >? 0
            then [moq_subscribe_close (subscription_id c1)] else [] in
  let t3 := if session_id c1 >? 0
            then [moq_session_close (session_id c1)] else [] in
  let '(_, c2, t4) := vaapi_decoder_destroy c1 in
  let '(_, c3, t5) := audio_decoder_destroy c2 in
  let t6 := match texture r with
            | Some tex => [host (gs_texture_destroy tex)]
            | None => []
            end in
  let t7 := match current_frame_data c3 with
            | Some b => [program (bfree b)]
            | None => []
            end in
  map program (t1 ++ t2 ++ t3 ++ t4 ++ t5) ++ t6 ++ t7
  ++ map (fun f => host (obs_source_frame_free f)) (frame_queue c3)
  ++ map (fun a => host (free_audio a)) (audio_queue c3).

End Host.

(** ** What is read off a trace *)

Module Observations.
Import Machine Model Decoder Source Host.

Local Open Scope Z_scope.

(** The calls made to the relay, in order. *)
Definition is_relay_call (ev : event) : bool :=
  match ev with
  | moq_session_connect _ | moq_session_close _
  | moq_subscribe_create _ _ | moq_subscribe_close _ => true
  | _ => false
  end.

Definition relay_calls (t : list event) : list event := filter is_relay_call t.

(** The blocks handed to [bfree], in order. *)
Definition freed_blocks (t : list event) : list heap_block :=
  omap (fun ev => match ev with bfree b => Some b | _ => None end) t.


(** [wpt m Q c]: as [wp], with the calls made as well. *)
Definition wpt {A} (m : M A) (Q : A -> hang_source -> list event -> Prop)
    (c : hang_source) : Prop :=
  Q (result (m c)) (context_after (m c)) (calls (m c)).

(** The URL check of [hang_source_activate] lets the string through. *)
Definition url_accepted (u : string) : Prop :=
  u <> ""%string
  /\ exists host_start, strstr u "://" = Some host_start
                        /\ advance 3 host_start <> ""%string.

(** What holds of every context between two calls, besides
    [lifecycle_invariant]: an active context carries strings that
    passed the checks of [hang_source_activate] and a decoder
    instance, an inactive one carries no decoder. *)
Definition configured_invariant (c : hang_source) : Prop :=
  (active c = true ->
     (exists u, url c = Some u /\ url_accepted u)
     /\ (exists p, broadcast_path c = Some p /\ p <> ""%string)
     /\ vaapi_context c <> None)
  /\ (active c = false -> vaapi_context c = None).

(** The calls of a host trace that are the program's own. *)
Definition program_calls (t : list host_event) : list event :=
  omap (fun ev => match ev with program p => Some p | host _ => None end) t.

(** The graphics calls of a host trace. *)
Definition graphics_calls (t : list host_event) : list host_call :=
  omap (fun ev => match ev with host g => Some g | program _ => None end) t.

(** The textures a trace uploads to or draws, with the size drawn. *)
Definition textures_used (t : list host_event) : list gs_texture :=
  omap (fun g => match g with
                 | gs_texture_set_image tex _ _ => Some tex
                 | gs_effect_set_texture tex => Some tex
                 | gs_draw_sprite tex _ _ => Some tex
                 | _ => None
                 end) (graphics_calls t).

(** The uploads of a trace: texture, source buffer, row stride. *)
Definition uploads (t : list host_event) : list (gs_texture * heap_block * Z) :=
  omap (fun g => match g with
                 | gs_texture_set_image tex data linesize =>
                   Some (tex, data, linesize)
                 | _ => None
                 end) (graphics_calls t).

(** The sprites a trace draws: texture, width, height. *)
Definition sprites (t : list host_event) : list (gs_texture * Z * Z) :=
  omap (fun g => match g with
                 | gs_draw_sprite tex w h => Some (tex, w, h)
                 | _ => None
                 end) (graphics_calls t).

Definition creates_texture (t : list host_event) : bool :=
  existsb (fun g => match g with gs_texture_create _ _ => true | _ => false end)
    (graphics_calls t).

(** The texture, when there is one, has the dimensions recorded
    beside it. *)
Definition texture_matches (r : render_fields) : Prop :=
  forall tex, texture r = Some tex ->
    texture_width tex = width r /\ texture_height tex = height r.

(** The textures a trace hands to [gs_texture_destroy], in order. *)
Definition textures_destroyed (t : list host_event) : list gs_texture :=
  omap (fun g => match g with
                 | gs_texture_destroy tex => Some tex
                 | _ => None
                 end) (graphics_calls t).

(** The buffer in the slot, when there is one, is a block of the
    recorded size, which is width x height x 4 and fits an [int]. *)
Definition frame_invariant (c : hang_source) : Prop :=
  forall b, current_frame_data c = Some b ->
    b = Block (current_frame_size c)
    /\ current_frame_size c = current_frame_width c * current_frame_height c * 4
    /\ 0 < current_frame_width c /\ 0 < current_frame_height c
    /\ current_frame_size c <= INT_MAX.

(** A relay callback, with what the world answers while it runs. *)
Inductive callback : Type :=
  | catalog_callback
  | video_callback (e : environment) (track : Z) (data : list byte)
      (pts : Z) (keyframe : bool)
  | audio_callback (e : environment) (track : Z) (data : list byte) (pts : Z)
  | error_callback (code : Z).

Definition deliver (cb : callback) : M unit :=
  match cb with
  | catalog_callback => on_catalog
  | video_callback e track data pts keyframe =>
    on_video e track data pts keyframe
  | audio_callback e track data pts => on_audio e track data pts
  | error_callback code => on_error code
  end.

(** The context after a run of callbacks. *)
Definition deliver_all (cbs : list callback) (c : hang_source) : hang_source :=
  fold_left (fun c cb => context_after (deliver cb c)) cbs c.

End Observations.

(** ** Machines with a render node *)

Module Drivers.
Import Machine Model Decoder Source Host.

Local Open Scope Z_scope.

(** A machine with a render node and a display, whose driver supports
    H.264 Main only; [initialize_ok] and [create_context_ok] say whether
    [vaInitialize] and [vaCreateContext] succeed.  The software codec
    opens and produces [frame]. *)
Definition va_env (initialize_ok create_context_ok : bool)
    (frame : AVFrame) : environment :=
  {| heap_grants := fun _ => true;
     session_connect_ret := 1; subscribe_create_ret := 1;
     drm_open_ok := true; va_get_display_ok := true;
     va_initialize_ok := initialize_ok;
     va_profile_supported :=
       (fun p => match p with VAProfileH264Main => true | _ => false end);
     va_config_id := 7; va_create_context_ok := create_context_ok;
     va_context_id := 9;
     codec_found := true; codec_alloc_ok := true; codec_open_ret := 0;
     audio_init_ok := true; audio_decoded := None;
     packet_alloc_ok := true; send_packet_ret := 0;
     frame_alloc_ok := true; receive_frame_ret := 0;
     decoded_frame := frame;
     sws_context_ok := true; sws_scale_ret := frame_height frame |}.

(** A compositor that makes every texture asked for and whose effect
    has the [image] parameter. *)
Definition compositor : render_environment :=
  {| texture_create_ok := true; effect_has_image := true |}.

End Drivers.

(** ** Facts about the repacker *)

Section RepackerFacts.
Import Machine Repacker Framing.

Lemma byte_val_range b : 0 <= byte_val b < 256.
Proof.
  unfold byte_val. pose proof (Byte.to_N_bounded b). lia.
Qed.

Lemma lor_shiftl_low hi lo k :
  0 <= k -> 0 <= lo < 2 ^ k -> Z.lor (Z.shiftl hi k) lo = hi * 2 ^ k + lo.
Proof.
  intros Hk Hlo. rewrite Z.shiftl_mul_pow2 by lia.
  assert (Hland : Z.land (hi * 2 ^ k) lo = 0).
  { apply Z.bits_inj'. intros n Hn.
    rewrite Z.land_spec, Z.bits_0.
    destruct (Z.lt_ge_cases n k) as [Hlt | Hge].
    - rewrite Z.mul_pow2_bits_low by lia. reflexivity.
    - rewrite <- (Z.mod_small lo (2 ^ k)) by lia.
      rewrite Z.mod_pow2_bits_high by lia. apply andb_false_r. }
  rewrite <- Z.lxor_lor by exact Hland.
  symmetry. apply Z.add_nocarry_lxor. exact Hland.
Qed.

(** The shifts and ors of line 288 read the prefix big-endian. *)
Lemma nal_length_big_endian b0 b1 b2 b3 :
  uint32_t (Z.lor (Z.lor (Z.lor
    (Z.shiftl (byte_val b0) 24) (Z.shiftl (byte_val b1) 16))
    (Z.shiftl (byte_val b2) 8)) (byte_val b3))
  = big_endian_32 b0 b1 b2 b3.
Proof.
  pose proof (byte_val_range b0). pose proof (byte_val_range b1).
  pose proof (byte_val_range b2). pose proof (byte_val_range b3).
  unfold big_endian_32, uint32_t.
  replace (Z.shiftl (byte_val b0) 24)
    with (Z.shiftl (Z.shiftl (byte_val b0) 8) 16)
    by (rewrite Z.shiftl_shiftl by lia; reflexivity).
  rewrite <- Z.shiftl_lor.
  rewrite (lor_shiftl_low (byte_val b0) (byte_val b1) 8) by lia.
  replace (Z.shiftl (byte_val b0 * 2 ^ 8 + byte_val b1) 16)
    with (Z.shiftl (Z.shiftl (byte_val b0 * 2 ^ 8 + byte_val b1) 8) 8)
    by (rewrite Z.shiftl_shiftl by lia; reflexivity).
  rewrite <- Z.shiftl_lor.
  rewrite (lor_shiftl_low _ (byte_val b2) 8) by lia.
  rewrite (lor_shiftl_low _ (byte_val b3) 8) by lia.
  rewrite Z.mod_small by lia. lia.
Qed.

Lemma big_endian_32_range b0 b1 b2 b3 : 0 <= big_endian_32 b0 b1 b2 b3 < 2 ^ 32.
Proof.
  pose proof (byte_val_range b0). pose proof (byte_val_range b1).
  pose proof (byte_val_range b2). pose proof (byte_val_range b3).
  unfold big_endian_32. lia.
Qed.

Lemma size_t_small x : 0 <= x < 2 ^ 64 -> size_t x = x.
Proof. intros. unfold size_t. apply Z.mod_small. assumption. Qed.

Lemma at_index_app (consumed rest : list byte) (i : nat) :
  at_index (consumed ++ rest) (Z.of_nat (length consumed) + Z.of_nat i)
  = byte_val (default x00 (rest !! i)).
Proof.
  unfold at_index. rewrite <- Nat2Z.inj_add, Nat2Z.id.
  rewrite lookup_app_r by lia.
  replace (length consumed + i - length consumed)%nat with i by lia.
  reflexivity.
Qed.

Lemma store_as_inserts (buffer : list byte) (i : nat) b :
  store buffer (Z.of_nat i) b = list_inserts i [b] buffer.
Proof. unfold store. rewrite Nat2Z.id. reflexivity. Qed.

Lemma inserts_behind (produced slack written : list byte) :
  (length written <= length slack)%nat ->
  list_inserts (length produced) written (produced ++ slack)
  = (produced ++ written) ++ drop (length written) slack.
Proof.
  intros Hroom.
  replace (length produced) with (length produced + 0)%nat by lia.
  rewrite list_inserts_app_r.
  rewrite <- (take_drop (length written) slack) at 1.
  rewrite list_inserts_0_r by (rewrite length_take; lia).
  rewrite <- app_assoc. reflexivity.
Qed.

Section Loop.
Variable heap_grants : Z -> bool.

(** One turn of the loop over a well-framed unit: the prefix gives way
    to a start code, the payload is copied, both cursors move on. *)
Lemma repack_loop_unit fuel consumed b0 b1 b2 b3 pl tail produced slack est :
  let data := consumed ++ b0 :: b1 :: b2 :: b3 :: pl ++ tail in
  addressable data ->
  big_endian_32 b0 b1 b2 b3 = Z.of_nat (length pl) ->
  (4 + length pl <= length slack)%nat ->
  est = Z.of_nat (length (produced ++ slack)) ->
  est < 2 ^ 64 ->
  repack_loop heap_grants (S fuel) data (Z.of_nat (length data))
    (produced ++ slack) est
    (Z.of_nat (length produced)) (Z.of_nat (length consumed))
  = repack_loop heap_grants fuel data (Z.of_nat (length data))
      ((produced ++ start_code ++ pl) ++ drop (4 + length pl) slack) est
      (Z.of_nat (length (produced ++ start_code ++ pl)))
      (Z.of_nat (length (consumed ++ b0 :: b1 :: b2 :: b3 :: pl))).
Proof.
  intros data Haddr Hlen Hroom Hest Hfit.
  unfold addressable in Haddr.
  assert (Hdata : length data
                  = (length consumed + (4 + length pl + length tail))%nat).
  { unfold data. rewrite length_app. simpl. rewrite length_app. lia. }
  rewrite length_app in Hest.
  assert (Hb0 : at_index data (Z.of_nat (length consumed)) = byte_val b0).
  { replace (Z.of_nat (length consumed))
      with (Z.of_nat (length consumed) + Z.of_nat 0) by lia.
    unfold data. rewrite at_index_app. reflexivity. }
  assert (Hb1 : at_index data (Z.of_nat (length consumed) + 1) = byte_val b1).
  { unfold data. rewrite (at_index_app consumed _ 1). reflexivity. }
  assert (Hb2 : at_index data (Z.of_nat (length consumed) + 2) = byte_val b2).
  { unfold data. rewrite (at_index_app consumed _ 2). reflexivity. }
  assert (Hb3 : at_index data (Z.of_nat (length consumed) + 3) = byte_val b3).
  { unfold data. rewrite (at_index_app consumed _ 3). reflexivity. }
  cbn [repack_loop]. cbv zeta.
  rewrite (size_t_small (Z.of_nat (length consumed) + 4)) by lia.
  rewrite (size_t_small (Z.of_nat (length consumed) + 1)) by lia.
  rewrite (size_t_small (Z.of_nat (length consumed) + 2)) by lia.
  rewrite (size_t_small (Z.of_nat (length consumed) + 3)) by lia.
  destruct (Z.leb_spec (Z.of_nat (length consumed) + 4) (Z.of_nat (length data)));
    [| lia].
  rewrite !Hb0, !Hb1, !Hb2, !Hb3, !nal_length_big_endian, !Hlen.
  rewrite (size_t_small (Z.of_nat (length consumed) + 4 + Z.of_nat (length pl)))
    by lia.
  destruct (Z.gtb_spec (Z.of_nat (length consumed) + 4 + Z.of_nat (length pl))
              (Z.of_nat (length data))); [lia |].
  rewrite (size_t_small (Z.of_nat (length produced) + 4 + Z.of_nat (length pl)))
    by lia.
  destruct (Z.gtb_spec (Z.of_nat (length produced) + 4 + Z.of_nat (length pl)) est);
    [lia |].
  rewrite (size_t_small (Z.of_nat (length produced) + 1)) by lia.
  rewrite (size_t_small (Z.of_nat (length produced) + 1 + 1)) by lia.
  rewrite (size_t_small (Z.of_nat (length produced) + 1 + 1 + 1)) by lia.
  rewrite (size_t_small (Z.of_nat (length produced) + 1 + 1 + 1 + 1)) by lia.
  rewrite (size_t_small
             (Z.of_nat (length produced) + 1 + 1 + 1 + 1 + Z.of_nat (length pl)))
    by lia.
  f_equal.
  - unfold memcpy.
    replace (Z.of_nat (length produced) + 1)
      with (Z.of_nat (1 + length produced)) by lia.
    replace (Z.of_nat (1 + length produced) + 1)
      with (Z.of_nat (2 + length produced)) by lia.
    replace (Z.of_nat (2 + length produced) + 1)
      with (Z.of_nat (3 + length produced)) by lia.
    replace (Z.of_nat (3 + length produced) + 1)
      with (Z.of_nat (4 + length produced)) by lia.
    rewrite !store_as_inserts, !Nat2Z.id.
    replace (Z.to_nat (Z.of_nat (length consumed) + 4))
      with (length consumed + 4)%nat by lia.
    assert (Hpl : take (length pl) (drop (length consumed + 4) data) = pl).
    { unfold data. rewrite <- drop_drop, drop_app_length. simpl.
      rewrite drop_0. apply take_app_length. }
    rewrite Hpl.
    change (list_inserts (1 + length produced) [x00]
              (list_inserts (length produced) [x00] (produced ++ slack)))
      with (list_inserts (length [x00] + length produced) [x00]
              (list_inserts (length produced) [x00] (produced ++ slack))).
    rewrite <- list_inserts_app_l.
    change (2 + length produced)%nat
      with (length ([x00] ++ [x00]) + length produced)%nat.
    rewrite <- list_inserts_app_l.
    change (3 + length produced)%nat
      with (length (([x00] ++ [x00]) ++ [x00]) + length produced)%nat.
    rewrite <- list_inserts_app_l.
    change (4 + length produced)%nat
      with (length ((([x00] ++ [x00]) ++ [x00]) ++ [x01]) + length produced)%nat.
    rewrite <- list_inserts_app_l.
    change (((([x00] ++ [x00]) ++ [x00]) ++ [x01]) ++ pl)
      with (start_code ++ pl).
    rewrite inserts_behind by (rewrite length_app; simpl; lia).
    rewrite length_app. reflexivity.
  - rewrite !length_app. simpl. lia.
  - rewrite length_app. simpl. lia.
Qed.

(** With fewer than four bytes left the guard fails and the loop ends. *)
Lemma repack_loop_exit fuel consumed rest buffer est out_pos :
  let data := consumed ++ rest in
  addressable data ->
  (length rest < 4)%nat ->
  repack_loop heap_grants (S fuel) data (Z.of_nat (length data))
    buffer est out_pos (Z.of_nat (length consumed))
  = Repacked buffer out_pos.
Proof.
  intros data Haddr Hrest. unfold addressable in Haddr.
  assert (Hdata : length data = (length consumed + length rest)%nat)
    by (unfold data; apply length_app).
  cbn [repack_loop].
  rewrite size_t_small by lia.
  destruct (Z.leb_spec (Z.of_nat (length consumed) + 4) (Z.of_nat (length data)));
    [lia | reflexivity].
Qed.

(** A prefix that declares more than is left stops the loop with an error. *)
Lemma repack_loop_overrun fuel consumed b0 b1 b2 b3 rest buffer est out_pos :
  let data := consumed ++ b0 :: b1 :: b2 :: b3 :: rest in
  addressable data ->
  big_endian_32 b0 b1 b2 b3 > Z.of_nat (length rest) ->
  repack_loop heap_grants (S fuel) data (Z.of_nat (length data))
    buffer est out_pos (Z.of_nat (length consumed))
  = InvalidNalLength (big_endian_32 b0 b1 b2 b3)
      (Z.of_nat (length consumed) + 4) (Z.of_nat (length data)).
Proof.
  intros data Haddr Hover. unfold addressable in Haddr.
  pose proof (big_endian_32_range b0 b1 b2 b3) as Hrange.
  assert (Hdata : length data = (length consumed + (4 + length rest))%nat).
  { unfold data. rewrite length_app. simpl. lia. }
  assert (Hb0 : at_index data (Z.of_nat (length consumed)) = byte_val b0).
  { replace (Z.of_nat (length consumed))
      with (Z.of_nat (length consumed) + Z.of_nat 0) by lia.
    unfold data. rewrite at_index_app. reflexivity. }
  assert (Hb1 : at_index data (Z.of_nat (length consumed) + 1) = byte_val b1).
  { unfold data. rewrite (at_index_app consumed _ 1). reflexivity. }
  assert (Hb2 : at_index data (Z.of_nat (length consumed) + 2) = byte_val b2).
  { unfold data. rewrite (at_index_app consumed _ 2). reflexivity. }
  assert (Hb3 : at_index data (Z.of_nat (length consumed) + 3) = byte_val b3).
  { unfold data. rewrite (at_index_app consumed _ 3). reflexivity. }
  cbn [repack_loop]. cbv zeta.
  rewrite (size_t_small (Z.of_nat (length consumed) + 4)) by lia.
  rewrite (size_t_small (Z.of_nat (length consumed) + 1)) by lia.
  rewrite (size_t_small (Z.of_nat (length consumed) + 2)) by lia.
  rewrite (size_t_small (Z.of_nat (length consumed) + 3)) by lia.
  destruct (Z.leb_spec (Z.of_nat (length consumed) + 4) (Z.of_nat (length data)));
    [| lia].
  rewrite !Hb0, !Hb1, !Hb2, !Hb3, !nal_length_big_endian.
  rewrite size_t_small by lia.
  destruct (Z.gtb_spec (Z.of_nat (length consumed) + 4 + big_endian_32 b0 b1 b2 b3)
              (Z.of_nat (length data))); [reflexivity | lia].
Qed.

Lemma length_prefixed_cons u units :
  length_prefixed (u :: units)
  = prefix_bytes u ++ payload u ++ length_prefixed units.
Proof. unfold length_prefixed. simpl. rewrite <- app_assoc. reflexivity. Qed.

Lemma start_coded_cons p payloads :
  start_coded (p :: payloads) = start_code ++ p ++ start_coded payloads.
Proof. unfold start_coded. simpl. reflexivity. Qed.

Lemma length_prefix_bytes u : length (prefix_bytes u) = 4%nat.
Proof. unfold prefix_bytes. destruct (prefix u) as [[[? ?] ?] ?]. reflexivity. Qed.

(** A unit takes as many bytes in one framing as in the other. *)
Lemma length_framings units :
  length (length_prefixed units) = length (start_coded (map payload units))
  /\ length (start_coded (map payload units))
     = (4 * length units + length (concat (map payload units)))%nat.
Proof.
  induction units as [| u units [IH1 IH2]]; [split; reflexivity |].
  rewrite length_prefixed_cons. simpl map. rewrite start_coded_cons.
  rewrite !length_app, length_prefix_bytes, IH1, IH2. simpl. 
  rewrite length_app. lia.
Qed.

(** The loop over a run of well-framed units. *)
Lemma repack_loop_units units : forall fuel consumed tail produced slack est,
  let data := consumed ++ length_prefixed units ++ tail in
  addressable data ->
  Forall well_framed units ->
  (length (length_prefixed units) <= length slack)%nat ->
  est = Z.of_nat (length (produced ++ slack)) ->
  est < 2 ^ 64 ->
  repack_loop heap_grants (length units + fuel) data (Z.of_nat (length data))
    (produced ++ slack) est
    (Z.of_nat (length produced)) (Z.of_nat (length consumed))
  = repack_loop heap_grants fuel data (Z.of_nat (length data))
      ((produced ++ start_coded (map payload units))
         ++ drop (length (length_prefixed units)) slack) est
      (Z.of_nat (length (produced ++ start_coded (map payload units))))
      (Z.of_nat (length (consumed ++ length_prefixed units))).
Proof.
  induction units as [| u units IH];
    intros fuel consumed tail produced slack est data Haddr Hwf Hroom Hest Hfit.
  - simpl. rewrite drop_0, !app_nil_r. reflexivity.
  - inversion Hwf as [| ? ? Hu Hunits]; subst.
    destruct u as [[[[b0 b1] b2] b3] pl].
    unfold well_framed, declared_length in Hu. simpl in Hu.
    subst data. unfold addressable in Haddr.
    rewrite length_prefixed_cons in *.
    simpl prefix_bytes in *. simpl payload in *.
    rewrite <- !app_assoc in *. simpl app in *.
    simpl in Hroom. rewrite length_app in Hroom.
    change (length ({| prefix := (b0, b1, b2, b3); payload := pl |} :: units)
            + fuel)%nat with (S (length units + fuel)).
    simpl map. rewrite start_coded_cons.
    pose proof (repack_loop_unit (length units + fuel) consumed b0 b1 b2 b3
                  pl (length_prefixed units ++ tail) produced slack
                  (Z.of_nat (length (produced ++ slack)))) as Hstep.
    cbv zeta in Hstep.
    rewrite Hstep; clear Hstep; try assumption; try reflexivity; try lia.
    pose proof (IH fuel (consumed ++ b0 :: b1 :: b2 :: b3 :: pl) tail
                  (produced ++ start_code ++ pl)
                  (drop (4 + length pl) slack)
                  (Z.of_nat (length (produced ++ slack)))) as Hrest.
    cbv zeta in Hrest.
    rewrite <- ?app_assoc in Hrest. simpl app in Hrest.
    rewrite <- ?app_assoc in Hrest.
    rewrite <- ?app_assoc. simpl app. rewrite <- ?app_assoc.
    rewrite Hrest; clear Hrest; try assumption.
    + rewrite drop_drop. simpl. rewrite !length_app. simpl.
      rewrite !length_app. reflexivity.
    + rewrite length_drop. lia.
    + rewrite !length_app. simpl. rewrite length_app, length_drop. lia.
Qed.

Lemma length_bzalloc n : 0 <= n -> Z.of_nat (length (bzalloc n)) = n.
Proof. intros. unfold bzalloc. rewrite length_replicate. lia. Qed.

Lemma units_within units : (length units <= length (length_prefixed units))%nat.
Proof. destruct (length_framings units) as [-> ->]. lia. Qed.

(** The whole function on an input that is a run of well-framed units
    and fewer than four bytes more. *)
Lemma convert_well_framed units rest :
  let data := length_prefixed units ++ rest in
  addressable data ->
  Forall well_framed units ->
  (length rest < 4)%nat ->
  heap_grants (Z.of_nat (length data) + 1024) = true ->
  convert_mp4_nal_units_to_annex_b heap_grants data
  = Repacked
      (start_coded (map payload units)
         ++ drop (length (length_prefixed units))
              (bzalloc (Z.of_nat (length data) + 1024)))
      (Z.of_nat (length (start_coded (map payload units)))).
Proof.
  intros data Haddr Hwf Hrest Hheap.
  pose proof Haddr as Hsize. unfold addressable in Hsize.
  pose proof (units_within units) as Hunits.
  assert (Hdata : length data = (length (length_prefixed units) + length rest)%nat)
    by (unfold data; apply length_app).
  unfold convert_mp4_nal_units_to_annex_b.
  rewrite size_t_small by lia. rewrite Hheap.
  replace (S (length data))
    with (length units + S (length data - length units))%nat by lia.
  pose proof (repack_loop_units units (S (length data - length units))
                [] rest [] (bzalloc (Z.of_nat (length data) + 1024))
                (Z.of_nat (length data) + 1024)) as Hrun.
  cbv zeta in Hrun. simpl app in Hrun. fold data in Hrun.
  change (Z.of_nat (length (@nil byte))) with 0 in Hrun.
  rewrite Hrun; clear Hrun; try assumption.
  - pose proof (repack_loop_exit (length data - length units)
                  (length_prefixed units) rest) as Hexit.
    cbv zeta in Hexit. fold data in Hexit.
    apply Hexit; assumption.
  - apply Nat2Z.inj_le. rewrite length_bzalloc by lia. lia.
  - rewrite length_bzalloc by lia. reflexivity.
  - lia.
Qed.

(** The whole function on an input whose walk meets a prefix that
    declares more than is left. *)
Lemma convert_overrun units b0 b1 b2 b3 rest :
  let data := length_prefixed units ++ b0 :: b1 :: b2 :: b3 :: rest in
  addressable data ->
  Forall well_framed units ->
  big_endian_32 b0 b1 b2 b3 > Z.of_nat (length rest) ->
  convert_mp4_nal_units_to_annex_b heap_grants data
  = if heap_grants (Z.of_nat (length data) + 1024)
    then InvalidNalLength (big_endian_32 b0 b1 b2 b3)
           (Z.of_nat (length (length_prefixed units)) + 4)
           (Z.of_nat (length data))
    else AllocationFailed.
Proof.
  intros data Haddr Hwf Hover.
  pose proof Haddr as Hsize. unfold addressable in Hsize.
  pose proof (units_within units) as Hunits.
  assert (Hdata : length data
                  = (length (length_prefixed units) + (4 + length rest))%nat).
  { unfold data. rewrite length_app. simpl. lia. }
  unfold convert_mp4_nal_units_to_annex_b.
  rewrite size_t_small by lia.
  destruct (heap_grants (Z.of_nat (length data) + 1024)); [| reflexivity].
  replace (S (length data))
    with (length units + S (length data - length units))%nat by lia.
  pose proof (repack_loop_units units (S (length data - length units))
                [] (b0 :: b1 :: b2 :: b3 :: rest) []
                (bzalloc (Z.of_nat (length data) + 1024))
                (Z.of_nat (length data) + 1024)) as Hrun.
  cbv zeta in Hrun. simpl app in Hrun. fold data in Hrun.
  change (Z.of_nat (length (@nil byte))) with 0 in Hrun.
  rewrite Hrun; clear Hrun; try assumption.
  - pose proof (repack_loop_overrun (length data - length units)
                  (length_prefixed units) b0 b1 b2 b3 rest) as Hstop.
    cbv zeta in Hstop. fold data in Hstop.
    apply Hstop; assumption.
  - apply Nat2Z.inj_le. rewrite length_bzalloc by lia. lia.
  - rewrite length_bzalloc by lia. reflexivity.
  - lia.
Qed.

End Loop.

(** Every input is one or the other: units up to a short tail, or
    units up to a prefix that declares too much. *)
Lemma framing_cases (data : list byte) :
  (exists units rest,
      data = length_prefixed units ++ rest
      /\ Forall well_framed units /\ (length rest < 4)%nat)
  \/ (exists units b0 b1 b2 b3 rest,
      data = length_prefixed units ++ b0 :: b1 :: b2 :: b3 :: rest
      /\ Forall well_framed units
      /\ big_endian_32 b0 b1 b2 b3 > Z.of_nat (length rest)).
Proof.
  remember (length data) as n eqn:Hn.
  revert data Hn. induction (lt_wf n) as [n _ IH]. intros data Hn.
  destruct data as [| b0 [| b1 [| b2 [| b3 rest0]]]].
  1-4: left; eexists [], _; split; [reflexivity |];
       split; [constructor | simpl; lia].
  destruct (Z_gt_le_dec (big_endian_32 b0 b1 b2 b3) (Z.of_nat (length rest0)))
    as [Hover | Hfits].
  - right. exists [], b0, b1, b2, b3, rest0. simpl. repeat split.
    + constructor.
    + exact Hover.
  - pose proof (big_endian_32_range b0 b1 b2 b3) as Hrange.
    set (len := Z.to_nat (big_endian_32 b0 b1 b2 b3)).
    set (u := {| prefix := (b0, b1, b2, b3); payload := take len rest0 |}).
    assert (Hu : well_framed u).
    { unfold well_framed, declared_length, u. simpl.
      rewrite length_take. lia. }
    assert (Hsplit : b0 :: b1 :: b2 :: b3 :: rest0
                     = prefix_bytes u ++ payload u ++ drop len rest0).
    { unfold u. simpl. rewrite take_drop. reflexivity. }
    destruct (IH (length (drop len rest0))) with (data := drop len rest0)
      as [(units & rest & Heq & Hwf & Hshort)
         | (units & c0 & c1 & c2 & c3 & rest & Heq & Hwf & Hover)].
    + subst n. simpl. rewrite length_drop. lia.
    + reflexivity.
    + left. exists (u :: units), rest. repeat split.
      * rewrite length_prefixed_cons, Hsplit, Heq, <- !app_assoc. reflexivity.
      * constructor; assumption.
      * exact Hshort.
    + right. exists (u :: units), c0, c1, c2, c3, rest. repeat split.
      * rewrite length_prefixed_cons, Hsplit, Heq, <- !app_assoc. reflexivity.
      * constructor; assumption.
      * exact Hover.
Qed.

(** On a buffer that fits the address space the loop ends within the
    fuel it is given. *)
Lemma convert_terminates heap_grants data :
  addressable data ->
  convert_mp4_nal_units_to_annex_b heap_grants data <> OutOfFuel.
Proof.
  intros Haddr.
  destruct (framing_cases data)
    as [(units & rest & Heq & Hwf & Hshort)
       | (units & b0 & b1 & b2 & b3 & rest & Heq & Hwf & Hover)].
  - destruct (heap_grants (Z.of_nat (length data) + 1024)) eqn:Hheap.
    + pose proof (convert_well_framed heap_grants units rest) as Hrun.
      cbv zeta in Hrun. rewrite <- Heq in Hrun.
      rewrite (Hrun Haddr Hwf Hshort Hheap). discriminate.
    + unfold convert_mp4_nal_units_to_annex_b. unfold addressable in Haddr.
      rewrite size_t_small by lia. rewrite Hheap. discriminate.
  - pose proof (convert_overrun heap_grants units b0 b1 b2 b3 rest) as Hrun.
    cbv zeta in Hrun. rewrite <- Heq in Hrun.
    rewrite (Hrun Haddr Hwf Hover).
    destruct (heap_grants _); discriminate.
Qed.

End RepackerFacts.

(** ** The repacker: accepted and rejected inputs *)

Section RepackerClaims.
Import Machine Repacker Framing.

(** C1.  An input the repacker accepts is a run of NAL units, each a
    four-byte big-endian length and that many payload bytes, followed
    by fewer than four bytes; the output is the same payloads in the
    same order, each behind [00 00 00 01].  So the output holds one
    start code per length prefix consumed and the payload bytes of the
    input and nothing else, a unit of length zero contributes a bare
    start code, and the empty input gives the empty output. *)
Theorem repacker_reframes_accepted_input
    (heap_grants : Z -> bool) (data : list byte) :
  addressable data ->
  returns_true (convert_mp4_nal_units_to_annex_b heap_grants data) = true ->
  exists units rest out_data out_size,
    convert_mp4_nal_units_to_annex_b heap_grants data
      = Repacked out_data out_size
    /\ data = length_prefixed units ++ rest
    /\ Forall well_framed units
    /\ (length rest < 4)%nat
    /\ take (Z.to_nat out_size) out_data = start_coded (map payload units)
    /\ out_size = 4 * Z.of_nat (length units)
                  + Z.of_nat (length (concat (map payload units)))
    /\ Forall (fun u => payload u = [] ->
                 start_coded [payload u] = start_code) units
    /\ (data = [] -> out_size = 0).
Proof.
  intros Haddr Hacc.
  destruct (framing_cases data)
    as [(units & rest & Heq & Hwf & Hshort)
       | (units & b0 & b1 & b2 & b3 & rest & Heq & Hwf & Hover)].
  - destruct (heap_grants (Z.of_nat (length data) + 1024)) eqn:Hheap.
    + pose proof (convert_well_framed heap_grants units rest) as Hrun.
      cbv zeta in Hrun. rewrite <- Heq in Hrun.
      specialize (Hrun Haddr Hwf Hshort Hheap).
      destruct (length_framings units) as [Hsame Hcount].
      eexists units, rest, _, _. split; [exact Hrun |].
      repeat split; try assumption.
      * rewrite Nat2Z.id. apply take_app_length.
      * rewrite Hcount. lia.
      * apply Forall_forall. intros u _ Hempty. rewrite Hempty. reflexivity.
      * intros Hnil. rewrite Hcount.
        assert (Hno : length (length_prefixed units) = 0%nat).
        { rewrite Hnil in Heq. apply (f_equal length) in Heq.
          rewrite length_app in Heq. simpl in Heq. lia. }
        rewrite Hsame, Hcount in Hno. lia.
    + exfalso. revert Hacc. unfold convert_mp4_nal_units_to_annex_b.
      unfold addressable in Haddr.
      rewrite size_t_small by lia. rewrite Hheap. discriminate.
  - exfalso. revert Hacc.
    pose proof (convert_overrun heap_grants units b0 b1 b2 b3 rest) as Hrun.
    cbv zeta in Hrun. rewrite <- Heq in Hrun.
    rewrite (Hrun Haddr Hwf Hover).
    destruct (heap_grants _); discriminate.
Qed.

(** C2.  When the walk over the input meets a length prefix that
    declares more bytes than follow it, the repacker returns false and
    hands back no buffer; the failure is the invalid-length one
    whenever the allocation made on entry was served. *)
Theorem repacker_rejects_overrunning_length
    (heap_grants : Z -> bool) (units : list nal_unit)
    (b0 b1 b2 b3 : byte) (rest : list byte) :
  let data := length_prefixed units ++ b0 :: b1 :: b2 :: b3 :: rest in
  addressable data ->
  Forall well_framed units ->
  big_endian_32 b0 b1 b2 b3 > Z.of_nat (length rest) ->
  returns_true (convert_mp4_nal_units_to_annex_b heap_grants data) = false
  /\ output_bytes (convert_mp4_nal_units_to_annex_b heap_grants data) = None
  /\ (heap_grants (Z.of_nat (length data) + 1024) = true ->
      convert_mp4_nal_units_to_annex_b heap_grants data
      = InvalidNalLength (big_endian_32 b0 b1 b2 b3)
          (Z.of_nat (length (length_prefixed units)) + 4)
          (Z.of_nat (length data))).
Proof.
  intros data Haddr Hwf Hover.
  pose proof (convert_overrun heap_grants units b0 b1 b2 b3 rest) as Hrun.
  cbv zeta in Hrun. fold data in Hrun.
  rewrite (Hrun Haddr Hwf Hover).
  destruct (heap_grants (Z.of_nat (length data) + 1024));
    repeat split; try reflexivity; discriminate.
Qed.

(** C6, as the code has it.  One to three bytes left over after the
    last whole NAL unit do not make the repacker fail: it returns true
    and its output is the reframing of the whole units, the leftover
    bytes ignored. *)
Theorem repacker_ignores_short_tail
    (heap_grants : Z -> bool) (units : list nal_unit) (rest : list byte) :
  let data := length_prefixed units ++ rest in
  addressable data ->
  Forall well_framed units ->
  (1 <= length rest <= 3)%nat ->
  heap_grants (Z.of_nat (length data) + 1024) = true ->
  returns_true (convert_mp4_nal_units_to_annex_b heap_grants data) = true
  /\ output_bytes (convert_mp4_nal_units_to_annex_b heap_grants data)
     = Some (start_coded (map payload units)).
Proof.
  intros data Haddr Hwf Hrest Hheap.
  pose proof (convert_well_framed heap_grants units rest) as Hrun.
  cbv zeta in Hrun. fold data in Hrun.
  rewrite (Hrun Haddr Hwf ltac:(lia) Hheap).
  split; [reflexivity |].
  simpl. rewrite Nat2Z.id, take_app_length. reflexivity.
Qed.

(** Two units, the second of length zero: [00 00 00 02 AA BB] and
    [00 00 00 00]. *)
Lemma repacker_reframes_accepted_input_witness :
  let data := [x00; x00; x00; x02; xaa; xbb; x00; x00; x00; x00] in
  addressable data
  /\ returns_true (convert_mp4_nal_units_to_annex_b (fun _ => true) data) = true
  /\ exists units rest out_data out_size,
       convert_mp4_nal_units_to_annex_b (fun _ => true) data
         = Repacked out_data out_size
       /\ data = length_prefixed units ++ rest
       /\ Forall well_framed units
       /\ (length rest < 4)%nat
       /\ take (Z.to_nat out_size) out_data = start_coded (map payload units)
       /\ out_size = 4 * Z.of_nat (length units)
                     + Z.of_nat (length (concat (map payload units)))
       /\ Forall (fun u => payload u = [] ->
                    start_coded [payload u] = start_code) units
       /\ (data = [] -> out_size = 0).
Proof.
  intros data.
  assert (Haddr : addressable data) by (unfold addressable; simpl; lia).
  assert (Hacc : returns_true
                   (convert_mp4_nal_units_to_annex_b (fun _ => true) data) = true)
    by (vm_compute; reflexivity).
  split; [exact Haddr |]. split; [exact Hacc |].
  exact (repacker_reframes_accepted_input (fun _ => true) data Haddr Hacc).
Defined.

(** The access unit [00 00 00 10 AA BB]: sixteen bytes declared, two
    supplied. *)
Lemma repacker_rejects_overrunning_length_witness :
  let data := [x00; x00; x00; x10; xaa; xbb] in
  returns_true (convert_mp4_nal_units_to_annex_b (fun _ => true) data) = false
  /\ output_bytes (convert_mp4_nal_units_to_annex_b (fun _ => true) data) = None
  /\ ((fun _ : Z => true) (Z.of_nat (length data) + 1024) = true ->
      convert_mp4_nal_units_to_annex_b (fun _ => true) data
      = InvalidNalLength (big_endian_32 x00 x00 x00 x10)
          (Z.of_nat (length (length_prefixed [])) + 4)
          (Z.of_nat (length data))).
Proof.
  apply (repacker_rejects_overrunning_length (fun _ => true) []
           x00 x00 x00 x10 [xaa; xbb]).
  - unfold addressable. simpl. lia.
  - constructor.
  - vm_compute. reflexivity.
Defined.

(** C6, as stated, fails on the single byte [AA]: no unit is consumed,
    one byte is left over, and the repacker returns true with an empty
    output. *)
Lemma repacker_accepts_trailing_byte :
  let data := [xaa] in
  data = length_prefixed [] ++ [xaa]
  /\ (1 <= length [xaa] <= 3)%nat
  /\ returns_true (convert_mp4_nal_units_to_annex_b (fun _ => true) data) = true
  /\ output_bytes (convert_mp4_nal_units_to_annex_b (fun _ => true) data)
     = Some [].
Proof.
  repeat split; try reflexivity; simpl; lia.
Qed.

(** One whole unit [00 00 00 01 AA], then the two bytes [BB CC]. *)
Lemma repacker_ignores_short_tail_witness :
  let u := {| prefix := (x00, x00, x00, x01); payload := [xaa] |} in
  let data := length_prefixed [u] ++ [xbb; xcc] in
  returns_true (convert_mp4_nal_units_to_annex_b (fun _ => true) data) = true
  /\ output_bytes (convert_mp4_nal_units_to_annex_b (fun _ => true) data)
     = Some (start_coded (map payload [u])).
Proof.
  intros u.
  apply (repacker_ignores_short_tail (fun _ => true) [u] [xbb; xcc]).
  - unfold addressable. simpl. lia.
  - repeat constructor.
  - simpl. lia.
  - reflexivity.
Defined.

End RepackerClaims.

(** ** Facts about [strstr] *)

Section StringFacts.
Import Source.

Local Open Scope string_scope.

Lemma prefix_occurs (needle : string) : forall haystack,
  String.prefix needle haystack = true ->
  exists after, haystack = needle ++ after.
Proof.
  induction needle as [| a needle IH]; intros haystack Hpre.
  - exists haystack. reflexivity.
  - destruct haystack as [| b haystack]; [discriminate |].
    simpl in Hpre. destruct (Ascii.ascii_dec a b) as [-> |]; [| discriminate].
    destruct (IH _ Hpre) as [after ->]. exists after. reflexivity.
Qed.

Lemma prefix_of_append (needle after : string) :
  String.prefix needle (needle ++ after) = true.
Proof.
  induction needle as [| a needle IH]; simpl.
  - destruct after; reflexivity.
  - destruct (Ascii.ascii_dec a a); [exact IH | congruence].
Qed.

Lemma append_cons a (s t : string) : String a s ++ t = String a (s ++ t).
Proof. reflexivity. Qed.

Lemma append_empty (t : string) : "" ++ t = t.
Proof. reflexivity. Qed.

Lemma prefix_cons a needle b haystack :
  String.prefix (String a needle) (String b haystack)
  = if Ascii.eqb a b then String.prefix needle haystack else false.
Proof.
  cbn [String.prefix].
  destruct (Ascii.ascii_dec a b) as [-> | Hne].
  - rewrite Ascii.eqb_refl. reflexivity.
  - apply Ascii.eqb_neq in Hne. rewrite Hne. reflexivity.
Qed.

Lemma strstr_unfold (haystack needle : string) :
  strstr haystack needle
  = if String.prefix needle haystack then Some haystack
    else match haystack with
         | EmptyString => None
         | String _ rest => strstr rest needle
         end.
Proof. destruct haystack; reflexivity. Qed.

(** [strstr] returns NULL on a haystack the needle does not occur in. *)
Lemma strstr_absent (needle : string) : forall haystack,
  (forall before after, haystack <> before ++ needle ++ after) ->
  strstr haystack needle = None.
Proof.
  induction haystack as [| a haystack IH]; intros Habsent;
    rewrite strstr_unfold;
    destruct (String.prefix needle _) eqn:Hpre.
  - destruct (prefix_occurs _ _ Hpre) as [after Heq].
    exfalso. apply (Habsent "" after). exact Heq.
  - reflexivity.
  - destruct (prefix_occurs _ _ Hpre) as [after Heq].
    exfalso. apply (Habsent "" after). exact Heq.
  - apply IH. intros before after Heq.
    apply (Habsent (String a before) after). rewrite Heq. reflexivity.
Qed.

(** On [scheme://] with no earlier ["://"], [strstr] finds the final one. *)
Lemma strstr_trailing_separator : forall scheme,
  (forall before after, scheme ++ ":/" <> before ++ "://" ++ after) ->
  strstr (scheme ++ "://") "://" = Some "://".
Proof.
  induction scheme as [| a scheme IH]; intros Hfirst; [reflexivity |].
  rewrite strstr_unfold.
  destruct (String.prefix "://" (String a scheme ++ "://")) eqn:Hpre.
  - exfalso.
    destruct scheme as [| b [| c scheme]];
      rewrite ?append_cons, ?append_empty, !prefix_cons in Hpre;
      repeat match type of Hpre with
             | context [Ascii.eqb ?x ?y] =>
               destruct (Ascii.eqb_spec x y); try discriminate
             end; subst.
    apply (Hfirst "" (scheme ++ ":/")). reflexivity.
  - rewrite append_cons. apply IH. intros before after Heq.
    apply (Hfirst (String a before) after).
    rewrite !append_cons, Heq. reflexivity.
Qed.

(** Where the needle occurs, [strstr] does not return NULL. *)
Lemma strstr_present (needle after : string) : forall before,
  strstr (before ++ needle ++ after) needle <> None.
Proof.
  induction before as [| a before IH]; rewrite strstr_unfold.
  - rewrite append_empty, prefix_of_append. discriminate.
  - destruct (String.prefix _ _); [discriminate |].
    rewrite append_cons. exact IH.
Qed.

Lemma strstr_none_absent (haystack needle : string) :
  strstr haystack needle = None ->
  forall before after, haystack <> before ++ needle ++ after.
Proof.
  intros Hnone before after ->. exact (strstr_present _ _ _ Hnone).
Qed.

End StringFacts.

(** ** Reasoning about code in [M] *)

Section ProgramLogic.
Import Model.

Lemma wp_bind {A B} (m : M A) (k : A -> M B) Q c :
  wp m (fun a c' => wp (k a) Q c') c -> wp (bind m k) Q c.
Proof.
  unfold wp, bind, result, context_after.
  destruct (m c) as [[a c1] t1]. simpl.
  destruct (k a c1) as [[b c2] t2]. simpl. tauto.
Qed.

Lemma wp_ret {A} (a : A) (Q : A -> hang_source -> Prop) c :
  Q a c -> wp (ret a) Q c.
Proof. tauto. Qed.

Lemma wp_get (Q : hang_source -> hang_source -> Prop) c :
  Q c c -> wp get Q c.
Proof. tauto. Qed.

Lemma wp_modify f (Q : unit -> hang_source -> Prop) c :
  Q tt (f c) -> wp (modify f) Q c.
Proof. tauto. Qed.

Lemma wp_emit ev (Q : unit -> hang_source -> Prop) c :
  Q tt c -> wp (emit ev) Q c.
Proof. tauto. Qed.

Lemma wp_update_decoder f (Q : unit -> hang_source -> Prop) c :
  Q tt (set_vaapi_context (f <$> vaapi_context c) c) ->
  wp (Decoder.update_decoder f) Q c.
Proof. tauto. Qed.

Lemma wp_mono {A} (m : M A) (P Q : A -> hang_source -> Prop) c :
  wp m P c -> (forall a c', P a c' -> Q a c') -> wp m Q c.
Proof. unfold wp. auto. Qed.

Lemma wp_context_after {A} (m : M A) (P : hang_source -> Prop) c :
  wp m (fun _ c' => P c') c -> P (context_after (m c)).
Proof. exact id. Qed.

End ProgramLogic.

(** One step through a program: the rule for its head, or a case
    split on the test it branches on. *)
Ltac wp_step :=
  lazymatch goal with
  | |- Model.wp (Model.bind _ _) _ _ => apply wp_bind
  | |- Model.wp (Model.ret _) _ _ => apply wp_ret
  | |- Model.wp Model.get _ _ => apply wp_get
  | |- Model.wp (Model.modify _) _ _ => apply wp_modify
  | |- Model.wp (Model.emit _) _ _ => apply wp_emit
  | |- Model.wp (Decoder.update_decoder _) _ _ => apply wp_update_decoder
  | |- Model.wp (Model.when ?b _) _ _ => unfold Model.when; destruct b eqn:?
  | |- Model.wp (if ?b then _ else _) _ _ => destruct b eqn:?
  | |- Model.wp (match ?x with _ => _ end) _ _ => destruct x eqn:?
  end.

(** Comparisons of the program, as facts for [lia]. *)
Ltac comparisons :=
  repeat match goal with
         | H : (_ <=? _) = true |- _ => apply Z.leb_le in H
         | H : (_ <=? _) = false |- _ => apply Z.leb_gt in H
         | H : (_ >? _) = true |- _ => apply Z.gtb_lt in H
         | H : (_ >? _) = false |- _ => rewrite Z.gtb_ltb in H; apply Z.ltb_ge in H
         | H : (_ <? _) = true |- _ => apply Z.ltb_lt in H
         | H : (_ <? _) = false |- _ => apply Z.ltb_ge in H
         end.

(** ** What the decoder and the lifecycle calls touch *)

Section Footprints.
Import Machine Repacker Model Decoder Source Properties.

Local Open Scope string_scope.
Local Open Scope Z_scope.

(** Initialising the video decoder writes [context->vaapi_context]
    and nothing else. *)
Lemma wp_vaapi_decoder_init e (Q : bool -> hang_source -> Prop) c :
  (forall ok d, Q ok (set_vaapi_context d c)) ->
  wp (vaapi_decoder_init e) Q c.
Proof.
  intros HQ. destruct c as [u p a sid subid d ad f fs fw fh fq aq].
  unfold vaapi_decoder_init, software_fallback, vaapi_cleanup,
    vaapi_init_display, vaapi_create_config, vaapi_create_context.
  repeat (wp_step; simpl); apply (HQ _ _).
Qed.

(** Destroying it leaves [context->vaapi_context] NULL. *)
Lemma wp_vaapi_decoder_destroy (Q : unit -> hang_source -> Prop) c :
  Q tt (set_vaapi_context None c) ->
  wp vaapi_decoder_destroy Q c.
Proof.
  intros HQ. destruct c as [u p a sid subid d ad f fs fw fh fq aq].
  unfold vaapi_decoder_destroy, vaapi_cleanup.
  repeat (wp_step; simpl); simpl in *; subst; exact HQ.
Qed.

Lemma wp_audio_decoder_init e (Q : bool -> hang_source -> Prop) c :
  Q (audio_init_ok e) (set_audio_context (audio_init_ok e) c) ->
  wp (audio_decoder_init e) Q c.
Proof. intros HQ. unfold audio_decoder_init. repeat wp_step. exact HQ. Qed.

Lemma wp_audio_decoder_destroy (Q : unit -> hang_source -> Prop) c :
  Q tt (set_audio_context false c) ->
  wp audio_decoder_destroy Q c.
Proof. intros HQ. unfold audio_decoder_destroy. repeat wp_step. exact HQ. Qed.

(** Decoding an access unit leaves everything but the decoder and the
    slot alone, and writes the slot only when it returns true. *)
Lemma wp_vaapi_decoder_decode e data pts keyframe
    (Q : bool -> hang_source -> Prop) c :
  (forall d, Q false (set_vaapi_context d c)) ->
  (forall d,
      Q true (set_current_frame
                (Some (Block (rgba_size_of (decoded_frame e))))
                (rgba_size_of (decoded_frame e))
                (uint32_t (frame_width (decoded_frame e)))
                (uint32_t (frame_height (decoded_frame e)))
                (set_vaapi_context d c))) ->
  wp (vaapi_decoder_decode e data pts keyframe) Q c.
Proof.
  intros Hfalse Htrue. destruct c as [u p a sid subid d ad f fs fw fh fq aq].
  unfold vaapi_decoder_decode, vaapi_decode_frame, software_decode_frame,
    convert_and_store, store_decoded_frame.
  repeat (wp_step; simpl); simpl in *; subst;
    first [apply (Hfalse _) | apply (Htrue _)].
Qed.

(** The [cleanup:] label closes what is open and destroys the decoders. *)
Lemma wp_activate_cleanup (Q : unit -> hang_source -> Prop) c :
  (forall sid subid,
      sid <= 0 -> subid <= 0 ->
      Q tt (set_audio_context false (set_vaapi_context None
              (set_session_id sid (set_subscription_id subid c))))) ->
  wp activate_cleanup Q c.
Proof.
  intros HQ. destruct c as [u p a sid subid d ad f fs fw fh fq aq].
  unfold activate_cleanup. simpl in HQ.
  repeat (first [apply wp_vaapi_decoder_destroy
                | apply wp_audio_decoder_destroy | wp_step]; simpl);
    simpl in *; comparisons; apply HQ; lia.
Qed.

End Footprints.

(** The rule of a callee where there is one, a plain step otherwise. *)
Ltac wp_call :=
  lazymatch goal with
  | |- Model.wp (Decoder.vaapi_decoder_init _) _ _ =>
    apply wp_vaapi_decoder_init; intros
  | |- Model.wp Decoder.vaapi_decoder_destroy _ _ =>
    apply wp_vaapi_decoder_destroy
  | |- Model.wp (Source.audio_decoder_init _) _ _ =>
    apply wp_audio_decoder_init
  | |- Model.wp Source.audio_decoder_destroy _ _ =>
    apply wp_audio_decoder_destroy
  | |- Model.wp (Decoder.vaapi_decoder_decode _ _ _ _) _ _ =>
    apply wp_vaapi_decoder_decode; intros
  | |- Model.wp Source.activate_cleanup _ _ =>
    apply wp_activate_cleanup; intros
  | _ => wp_step
  end.

(** Runs a program to its ends and settles what is left by arithmetic. *)
Ltac wp_run :=
  repeat (wp_call; simpl); simpl in *; subst; comparisons;
  intuition (try done; try lia).

(** ** The lifecycle invariant *)

Section Lifecycle.
Import Machine Repacker Model Decoder Source Properties.

Local Open Scope string_scope.
Local Open Scope Z_scope.

Lemma deactivate_keeps_invariant c :
  lifecycle_invariant c ->
  lifecycle_invariant (context_after (hang_source_deactivate c)).
Proof.
  intros (Hq & Hnull & Hheld & Hidle). apply wp_context_after.
  destruct c as [u p a sid subid d ad f fs fw fh fq aq].
  unfold lifecycle_invariant in *. simpl in *.
  unfold hang_source_deactivate. destruct a; wp_run.
Qed.

Lemma activate_keeps_invariant e c :
  lifecycle_invariant c ->
  lifecycle_invariant (context_after (hang_source_activate e c)).
Proof.
  intros (Hq & Hnull & Hheld & Hidle). apply wp_context_after.
  destruct c as [u p a sid subid d ad f fs fw fh fq aq].
  unfold lifecycle_invariant in *. simpl in *.
  unfold hang_source_activate. destruct a; wp_run.
Qed.

Lemma update_keeps_invariant e settings c :
  lifecycle_invariant c ->
  lifecycle_invariant (context_after (hang_source_update e settings c)).
Proof.
  intros Hinv. apply wp_context_after.
  unfold hang_source_update.
  wp_step. wp_step. wp_step; [wp_step; exact Hinv |].
  wp_step.
  apply (wp_mono _ (fun _ c' => lifecycle_invariant c'));
    [exact (deactivate_keeps_invariant c Hinv) |].
  intros _ c1 Hinv1.
  assert (Hinv2 : lifecycle_invariant
                    (set_broadcast_path
                       (Some (obs_data_get_string settings "broadcast"))
                       (set_url (Some (obs_data_get_string settings "url")) c1))).
  { destruct c1. exact Hinv1. }
  repeat (wp_step; simpl); try exact Hinv2;
    apply activate_keeps_invariant; exact Hinv2.
Qed.

Lemma on_video_keeps_invariant e track data pts keyframe c :
  lifecycle_invariant c ->
  lifecycle_invariant (context_after (on_video e track data pts keyframe c)).
Proof.
  intros (Hq & Hnull & Hheld & Hidle). apply wp_context_after.
  destruct c as [u p a sid subid d ad f fs fw fh fq aq].
  unfold lifecycle_invariant in *. simpl in *.
  unfold on_video. destruct a; wp_run.
Qed.

Lemma on_audio_keeps_invariant e track data pts c :
  lifecycle_invariant c ->
  lifecycle_invariant (context_after (on_audio e track data pts c)).
Proof.
  intros (Hq & Hnull & Hheld & Hidle). apply wp_context_after.
  destruct c as [u p a sid subid d ad f fs fw fh fq aq].
  unfold lifecycle_invariant in *. simpl in *.
  unfold on_audio, audio_decoder_decode. destruct a; wp_run.
Qed.

Lemma reachable_invariant E c : reachable E c -> lifecycle_invariant c.
Proof.
  induction 1 as [e settings _ | c c' _ IH Hstep].
  - unfold hang_source_create. apply wp_context_after.
    do 6 wp_step.
    apply (update_keeps_invariant e settings).
    unfold lifecycle_invariant. simpl.
    repeat split; try reflexivity; try discriminate; lia.
  - destruct Hstep.
    + apply update_keeps_invariant, IH.
    + apply activate_keeps_invariant, IH.
    + apply deactivate_keeps_invariant, IH.
    + exact IH.
    + apply on_video_keeps_invariant, IH.
    + apply on_audio_keeps_invariant, IH.
    + exact IH.
Qed.

End Lifecycle.

(** ** Activation and update *)

Section LifecycleClaims.
Import Machine Model Decoder Source Properties Scenarios.

Local Open Scope string_scope.
Local Open Scope Z_scope.

Lemma strlen_zero (s : string) : (strlen s =? 0) = true <-> s = "".
Proof.
  unfold strlen. destruct s; simpl; split; intros H;
    try reflexivity; try discriminate; lia.
Qed.

(** C9.  On an inactive context whose broadcast path or URL is empty,
    [hang_source_activate] returns at once: the context is the same
    afterwards, so still inactive and without decoders, and no call is
    made, so no session is opened and no error is reported. *)
Theorem activate_unconfigured_is_noop (e : environment) (c : hang_source) :
  active c = false ->
  unset (broadcast_path c) \/ unset (url c) ->
  hang_source_activate e c = (tt, c, [])
  /\ active (context_after (hang_source_activate e c)) = false
  /\ vaapi_context (context_after (hang_source_activate e c)) = vaapi_context c
  /\ opens_session (calls (hang_source_activate e c)) = false
  /\ surfaces_invalid_configuration (calls (hang_source_activate e c)) = false.
Proof.
  intros Hinactive Hunset.
  assert (Hnoop : hang_source_activate e c = (tt, c, [])).
  { unfold hang_source_activate, bind, get. cbn beta iota zeta.
    rewrite Hinactive.
    destruct Hunset as [[Hp | Hp] | [Hu | Hu]]; rewrite Hp || rewrite Hu;
      simpl; rewrite ?orb_true_r; reflexivity. }
  rewrite Hnoop. repeat split; assumption || reflexivity.
Qed.

Lemma activate_unconfigured_is_noop_witness :
  let c := configured "https://relay.example/moq" "" in
  let e := software_env (yuv_frame 640 360) in
  hang_source_activate e c = (tt, c, [])
  /\ active (context_after (hang_source_activate e c)) = false
  /\ vaapi_context (context_after (hang_source_activate e c)) = vaapi_context c
  /\ opens_session (calls (hang_source_activate e c)) = false
  /\ surfaces_invalid_configuration (calls (hang_source_activate e c)) = false.
Proof.
  intros c e. apply (activate_unconfigured_is_noop e c).
  - reflexivity.
  - left. right. reflexivity.
Defined.

(** C8.  [hang_source_update] with the URL and the broadcast path the
    context already holds returns at once: the context, with its active
    flag, ids, strings, slot and queues, is the same afterwards, and no
    call is made. *)
Theorem update_unchanged_is_noop (e : environment)
    (settings : gmap string string) (c : hang_source) (u p : string) :
  url c = Some u ->
  broadcast_path c = Some p ->
  obs_data_get_string settings "url" = u ->
  obs_data_get_string settings "broadcast" = p ->
  hang_source_update e settings c = (tt, c, []).
Proof.
  intros Hu Hp Hnew_u Hnew_p.
  unfold hang_source_update, bind, get. cbn beta iota zeta.
  rewrite Hu, Hp, Hnew_u, Hnew_p, !String.eqb_refl. reflexivity.
Qed.

Lemma update_unchanged_is_noop_witness :
  let e := software_env (yuv_frame 640 360) in
  let c := after_frame 640 360 subscribed in
  hang_source_update e
    (settings_of "https://relay.example/moq" "demo/track") c
  = (tt, c, []).
Proof.
  intros e c.
  apply (update_unchanged_is_noop e _ c "https://relay.example/moq" "demo/track");
    vm_compute; reflexivity.
Defined.

(** C4.  After [hang_source_deactivate] returns on a context the
    program can be in, the slot is empty, both queues are empty, no
    session and no subscription is held (neither id passes the test
    [id > 0] that guards a close; both are zero when the context was
    active), and the context is inactive. *)
Theorem deactivate_leaves_nothing_held
    (E : environment -> Prop) (c : hang_source) :
  reachable E c ->
  let c' := context_after (hang_source_deactivate c) in
  slot c' = empty_slot
  /\ frame_queue c' = []
  /\ audio_queue c' = []
  /\ holds_session c' = false
  /\ holds_subscription c' = false
  /\ active c' = false
  /\ (active c = true -> session_id c' = 0 /\ subscription_id c' = 0).
Proof.
  intros Hreach c'.
  destruct (reachable_invariant E c Hreach) as (Hq & Hnull & Hheld & Hidle).
  assert (Hafter : slot c' = empty_slot /\ frame_queue c' = []
                   /\ audio_queue c' = []
                   /\ session_id c' <= 0 /\ subscription_id c' <= 0
                   /\ active c' = false
                   /\ (active c = true ->
                       session_id c' = 0 /\ subscription_id c' = 0)).
  { subst c'. apply wp_context_after.
    destruct c as [u p a sid subid d ad f fs fw fh fq aq].
    unfold slot, empty_slot. simpl in *.
    unfold hang_source_deactivate. destruct a; wp_run; congruence. }
  destruct Hafter as (Hslot & Hfq & Haq & Hsid & Hsub & Hact & Hzero).
  unfold holds_session, holds_subscription.
  rewrite !Z.gtb_ltb. repeat split; try assumption;
    try (apply Z.ltb_ge; assumption); apply Hzero; assumption.
Qed.

(** An active context with a frame staged. *)
Lemma deactivate_leaves_nothing_held_witness :
  let c := after_frame 640 360 subscribed in
  let c' := context_after (hang_source_deactivate c) in
  slot c' = empty_slot
  /\ frame_queue c' = []
  /\ audio_queue c' = []
  /\ holds_session c' = false
  /\ holds_subscription c' = false
  /\ active c' = false
  /\ (active c = true -> session_id c' = 0 /\ subscription_id c' = 0).
Proof.
  intros c.
  apply (deactivate_leaves_nothing_held any_environment c).
  apply reachable_step with subscribed.
  - apply reachable_create. exact I.
  - apply step_on_video. exact I.
Defined.

(** C5, as stated, fails where the broadcast path is empty: with the
    URL "no-scheme", which has no ["://"] in it, activation returns
    without reporting anything. *)
Lemma activate_bad_url_unconfigured_is_silent :
  let c := configured "no-scheme" "" in
  let r := hang_source_activate (software_env (yuv_frame 640 360)) c in
  lacks_separator "no-scheme"
  /\ active c = false
  /\ calls r = []
  /\ surfaces_invalid_configuration (calls r) = false.
Proof.
  repeat split; try reflexivity.
  intros before after. apply (strstr_none_absent "no-scheme" "://").
  reflexivity.
Qed.

(** C5, as the code has it.  On an inactive context whose broadcast
    path and URL are both non-empty, a URL without ["://"], or with
    nothing behind its first ["://"], makes [hang_source_activate]
    report the invalid configuration and return: that error line is
    its only call, so no session is opened, and the context, with its
    session and subscription ids and its inactive flag, is as before. *)
Theorem activate_rejects_bad_url (e : environment) (c : hang_source)
    (u p : string) :
  active c = false ->
  url c = Some u -> broadcast_path c = Some p ->
  u <> "" -> p <> "" ->
  lacks_separator u \/ host_is_empty u ->
  let r := hang_source_activate e c in
  context_after r = c
  /\ surfaces_invalid_configuration (calls r) = true
  /\ opens_session (calls r) = false
  /\ (calls r = [obs_log LOG_ERROR invalid_url_format]
      \/ calls r = [obs_log LOG_ERROR invalid_url_missing_host]).
Proof.
  intros Hinactive Hu Hp Hu_set Hp_set Hbad r.
  assert (Hue : (strlen u =? 0) = false).
  { destruct (strlen u =? 0) eqn:Hz; [| reflexivity].
    apply strlen_zero in Hz. contradiction. }
  assert (Hpe : (strlen p =? 0) = false).
  { destruct (strlen p =? 0) eqn:Hz; [| reflexivity].
    apply strlen_zero in Hz. contradiction. }
  subst r. unfold hang_source_activate, bind, get. cbn beta iota zeta.
  rewrite Hinactive, Hu, Hp. simpl. rewrite Hue, Hpe. simpl.
  destruct Hbad as [Hnone | (scheme & -> & Hfirst)].
  - rewrite (strstr_absent "://" u Hnone).
    repeat split; try reflexivity. left. reflexivity.
  - rewrite (strstr_trailing_separator scheme Hfirst).
    repeat split; try reflexivity. right. reflexivity.
Qed.

(** The URL "https://" of the specification, on a configured path. *)
Lemma activate_rejects_bad_url_witness :
  let e := software_env (yuv_frame 640 360) in
  let c := configured "https://" "demo/track" in
  let r := hang_source_activate e c in
  context_after r = c
  /\ surfaces_invalid_configuration (calls r) = true
  /\ opens_session (calls r) = false
  /\ (calls r = [obs_log LOG_ERROR invalid_url_format]
      \/ calls r = [obs_log LOG_ERROR invalid_url_missing_host]).
Proof.
  intros e c.
  apply (activate_rejects_bad_url e c "https://" "demo/track");
    try reflexivity; try discriminate.
  right. exists "https". split; [reflexivity |].
  intros before after. apply (strstr_none_absent "https:/" "://").
  reflexivity.
Defined.

End LifecycleClaims.

(** ** Decoding *)

Section DecodeClaims.
Import Machine Repacker Model Decoder Source Properties Scenarios.

Local Open Scope string_scope.
Local Open Scope Z_scope.

(** Either way out of [vaapi_decoder_decode]: false with the slot as
    it was and the frame mutex never taken, or true with the frame of
    this call in the slot. *)
Lemma decode_cases e data pts keyframe c :
  let r := vaapi_decoder_decode e data pts keyframe c in
  (result r = false /\ slot (context_after r) = slot c
   /\ stages_frame (calls r) = false)
  \/ (result r = true /\ slot (context_after r) = staged_slot e
      /\ stages_frame (calls r) = true).
Proof.
  intros r. subst r.
  destruct (vaapi_decoder_decode e data pts keyframe c) as [[b c'] t] eqn:Hrun.
  destruct c as [u p a sid subid d ad f fs fw fh fq aq].
  revert Hrun.
  unfold vaapi_decoder_decode, vaapi_decode_frame, software_decode_frame,
    convert_and_store, store_decoded_frame, update_decoder, when,
    bind, ret, get, modify, emit.
  simpl.
  repeat (case_match; simpl); intros; simplify_eq/=;
    try (left; done); try (right; done).
Qed.

Lemma decode_without_decoder e data pts keyframe c :
  vaapi_context c = None ->
  vaapi_decoder_decode e data pts keyframe c = (false, c, []).
Proof.
  intros Hnone. unfold vaapi_decoder_decode, bind, get. cbn beta iota zeta.
  rewrite Hnone. reflexivity.
Qed.

Lemma decode_on_hardware e data pts keyframe c d :
  vaapi_context c = Some d -> va_display d = true ->
  result (vaapi_decoder_decode e data pts keyframe c) = false.
Proof.
  intros Hd Hhw. unfold vaapi_decoder_decode, bind, get. cbn beta iota zeta.
  rewrite Hd, Hhw. reflexivity.
Qed.

Lemma decode_malformed e data pts keyframe c d :
  vaapi_context c = Some d -> va_display d = false ->
  returns_true (convert_mp4_nal_units_to_annex_b (heap_grants e) data) = false ->
  result (vaapi_decoder_decode e data pts keyframe c) = false.
Proof.
  intros Hd Hsw Hbad.
  unfold vaapi_decoder_decode, software_decode_frame, bind, get.
  cbn beta iota zeta. rewrite Hd, Hsw.
  destruct (codec_ctx d); [| reflexivity].
  destruct (convert_mp4_nal_units_to_annex_b _ _); try discriminate;
    reflexivity.
Qed.

Lemma decode_needs_more_input e data pts keyframe c d :
  vaapi_context c = Some d -> va_display d = false ->
  receive_frame_ret e = AVERROR_EAGAIN ->
  result (vaapi_decoder_decode e data pts keyframe c) = false.
Proof.
  intros Hd Hsw Hagain.
  destruct (vaapi_decoder_decode e data pts keyframe c) as [[b c'] t] eqn:Hrun.
  destruct c as [u p a sid subid dc ad f fs fw fh fq aq].
  simpl in Hd. subst dc. revert Hrun.
  unfold vaapi_decoder_decode, vaapi_decode_frame, software_decode_frame,
    when, bind, ret, get, modify, emit.
  simpl. rewrite Hsw, Hagain. simpl.
  repeat (case_match; simpl); intros; simplify_eq/=; reflexivity.
Qed.

(** C10.  [vaapi_decoder_decode] returns true exactly when the call
    staged a frame; a call that returns false leaves the slot as it
    was, and that is what happens without a decoder instance (none
    initialised, or destroyed), on the hardware path, on a bitstream
    the repacker rejects, and when the codec asks for more input. *)
Theorem decode_true_iff_frame_staged (e : environment) (data : list byte)
    (pts : Z) (keyframe : bool) (c : hang_source) :
  let r := vaapi_decoder_decode e data pts keyframe c in
  (result r = true <-> stages_frame (calls r) = true)
  /\ (result r = true -> slot (context_after r) = staged_slot e)
  /\ (result r = false -> slot (context_after r) = slot c)
  /\ (vaapi_context c = None -> result r = false)
  /\ (forall c0, c = context_after (vaapi_decoder_destroy c0) ->
      result r = false)
  /\ (forall d, vaapi_context c = Some d -> va_display d = true ->
      result r = false)
  /\ (forall d, vaapi_context c = Some d -> va_display d = false ->
      returns_true
        (convert_mp4_nal_units_to_annex_b (heap_grants e) data) = false ->
      result r = false)
  /\ (forall d, vaapi_context c = Some d -> va_display d = false ->
      receive_frame_ret e = AVERROR_EAGAIN ->
      result r = false).
Proof.
  intros r.
  assert (Hnone : vaapi_context c = None -> result r = false).
  { intros Hnone. subst r. rewrite decode_without_decoder by exact Hnone.
    reflexivity. }
  pose proof (decode_cases e data pts keyframe c) as Hcases.
  cbv zeta in Hcases. fold r in Hcases.
  split; [| split; [| split; [| split; [exact Hnone | split; [| split; [| split]]]]]].
  - destruct Hcases as [(Hr & _ & Hs) | (Hr & _ & Hs)];
      rewrite Hr, Hs; split; intros; congruence.
  - destruct Hcases as [(Hr & _ & _) | (_ & Hslot & _)]; [congruence | auto].
  - destruct Hcases as [(_ & Hslot & _) | (Hr & _ & _)]; [auto | congruence].
  - intros c0 ->. apply Hnone.
    apply (wp_context_after vaapi_decoder_destroy
             (fun c' => vaapi_context c' = None)).
    apply wp_vaapi_decoder_destroy. destruct c0. reflexivity.
  - intros d. apply decode_on_hardware.
  - intros d. apply decode_malformed.
  - intros d. apply decode_needs_more_input.
Qed.

(** Scenario 4 of the specification: the access unit
    [00 00 00 10 AA BB] on the software path. *)
Lemma decode_true_iff_frame_staged_witness :
  let e := software_env (yuv_frame 640 360) in
  let data := [x00; x00; x00; x10; xaa; xbb] in
  let r := vaapi_decoder_decode e data 0 true subscribed in
  result r = false /\ slot (context_after r) = slot subscribed.
Proof.
  intros e data r.
  pose proof (decode_true_iff_frame_staged e data 0 true subscribed)
    as (_ & _ & Hslot & _ & _ & _ & Hmalformed & _).
  assert (Hfalse : result r = false).
  { eapply Hmalformed; reflexivity. }
  split; [exact Hfalse | exact (Hslot Hfalse)].
Defined.

(** The converter a successful call runs: the cached one when there
    is one, whatever the frame; one built for the frame otherwise. *)
Lemma decode_converter e data pts keyframe c d :
  vaapi_context c = Some d ->
  result (vaapi_decoder_decode e data pts keyframe c) = true ->
  converters_used (calls (vaapi_decoder_decode e data pts keyframe c))
  = [default (converter_for (decoded_frame e)) (sws_ctx d)].
Proof.
  intros Hd.
  destruct (vaapi_decoder_decode e data pts keyframe c) as [[b c'] t] eqn:Hrun.
  destruct c as [u p a sid subid dc ad f fs fw fh fq aq].
  simpl in Hd. subst dc. destruct d as [dp cf cx pr cc sw w h pf].
  revert Hrun.
  unfold vaapi_decoder_decode, vaapi_decode_frame, software_decode_frame,
    convert_and_store, store_decoded_frame, update_decoder, when,
    bind, ret, get, modify, emit.
  simpl.
  repeat (case_match; simpl); intros; simplify_eq/=; reflexivity.
Qed.

(** C7, on the code.  A 640x360 frame and then a 1280x720 frame in
    one session: the second call returns true and stages a buffer of
    1280 x 720 x 4 bytes, but the converter it runs is the one cached
    at the first frame, which targets RGBA at 640x360. *)
Theorem converter_kept_across_resolution_change :
  let c := after_frame 640 360 subscribed in
  let r := vaapi_decoder_decode (software_env (yuv_frame 1280 720))
             [] 1 false c in
  result r = true
  /\ converters_used (calls r) = [converter_for (yuv_frame 640 360)]
  /\ ~ targets_rgba_at (converter_for (yuv_frame 640 360)) 1280 720
  /\ slot (context_after r) = (Some (Block 3686400), 3686400, 1280, 720).
Proof.
  repeat split; try reflexivity.
  intros (_ & Hw & _). discriminate Hw.
Qed.

Lemma int_small x : 0 <= x <= INT_MAX -> int x = x.
Proof.
  unfold int, INT_MAX. intros Hx.
  rewrite Z.mod_small by lia. lia.
Qed.

(** The size computed at line 390 is width x height x 4 for a frame
    whose RGBA size fits an [int]. *)
Lemma rgba_size_fits frame :
  fits_int frame ->
  rgba_size_of frame = frame_width frame * frame_height frame * 4
  /\ uint32_t (frame_width frame) = frame_width frame
  /\ uint32_t (frame_height frame) = frame_height frame.
Proof.
  unfold fits_int, rgba_size_of, INT_MAX. intros (Hw & Hh & Hfit).
  assert (0 < frame_width frame * frame_height frame) by nia.
  assert (frame_width frame <= frame_width frame * frame_height frame) by nia.
  assert (frame_height frame <= frame_width frame * frame_height frame) by nia.
  rewrite (int_small (frame_width frame * frame_height frame))
    by (unfold INT_MAX; lia).
  rewrite int_small by (unfold INT_MAX; lia).
  unfold size_t, uint32_t. rewrite !Z.mod_small by lia. auto.
Qed.

Lemma slot_invariant_staged e c :
  slot c = staged_slot e ->
  fits_int (decoded_frame e) ->
  slot_invariant c.
Proof.
  unfold slot, staged_slot. intros Hslot Hfit _.
  destruct (rgba_size_fits _ Hfit) as (Hsize & Hw & Hh).
  destruct Hfit as (Hwpos & Hhpos & _).
  injection Hslot as _ Hs Hcw Hch.
  rewrite Hs, Hcw, Hch, Hsize, Hw, Hh. auto.
Qed.

Lemma slot_invariant_empty c : slot c = empty_slot -> slot_invariant c.
Proof.
  unfold slot, empty_slot. intros Hslot Hdata.
  injection Hslot as Hnull _ _ _. contradiction.
Qed.

Lemma slot_invariant_same c c' :
  slot c' = slot c -> slot_invariant c -> slot_invariant c'.
Proof.
  unfold slot, slot_invariant. intros Hslot Hinv.
  injection Hslot as -> -> -> ->. exact Hinv.
Qed.

Lemma activate_keeps_slot e c :
  slot (context_after (hang_source_activate e c)) = slot c.
Proof.
  apply wp_context_after.
  destruct c as [u p a sid subid d ad f fs fw fh fq aq].
  unfold slot. simpl. unfold hang_source_activate. wp_run.
Qed.

Lemma deactivate_flushes_slot c :
  slot (context_after (hang_source_deactivate c)) = slot c
  \/ slot (context_after (hang_source_deactivate c)) = empty_slot.
Proof.
  apply (wp_context_after hang_source_deactivate
           (fun c' => slot c' = slot c \/ slot c' = empty_slot)).
  destruct c as [u p a sid subid d ad f fs fw fh fq aq].
  unfold slot, empty_slot. simpl. unfold hang_source_deactivate. wp_run.
Qed.

Lemma update_flushes_slot e settings c :
  slot (context_after (hang_source_update e settings c)) = slot c
  \/ slot (context_after (hang_source_update e settings c)) = empty_slot.
Proof.
  apply (wp_context_after (hang_source_update e settings)
           (fun c' => slot c' = slot c \/ slot c' = empty_slot)).
  unfold hang_source_update.
  wp_step. wp_step. wp_step; [wp_step; left; reflexivity |].
  wp_step.
  apply (wp_mono _ (fun _ c' => slot c' = slot c \/ slot c' = empty_slot));
    [exact (deactivate_flushes_slot c) |].
  intros _ c1 Hslot1.
  assert (Hslot2 :
    forall c2,
      c2 = set_broadcast_path (Some (obs_data_get_string settings "broadcast"))
             (set_url (Some (obs_data_get_string settings "url")) c1) ->
      slot c2 = slot c \/ slot c2 = empty_slot).
  { intros c2 ->. destruct c1. exact Hslot1. }
  repeat (wp_step; simpl); try (apply Hslot2; reflexivity).
  all: unfold wp; rewrite activate_keeps_slot; apply Hslot2; reflexivity.
Qed.

(** Every call leaves the slot as it was, empties it, or stages the
    frame the codec produced. *)
Lemma step_writes_slot E c c' :
  step E c c' ->
  slot c' = slot c \/ slot c' = empty_slot
  \/ exists e, E e /\ slot c' = staged_slot e.
Proof.
  destruct 1 as [e settings c He | e c He | c | c
                | e track data pts keyframe c He
                | e track data pts c He | code c].
  - destruct (update_flushes_slot e settings c); auto.
  - left. apply activate_keeps_slot.
  - destruct (deactivate_flushes_slot c); auto.
  - left. reflexivity.
  - apply (wp_context_after (on_video e track data pts keyframe)
             (fun c' => slot c' = slot c \/ slot c' = empty_slot
                        \/ exists e, E e /\ slot c' = staged_slot e)).
    destruct c as [u p a sid subid d ad f fs fw fh fq aq].
    unfold slot, empty_slot, staged_slot. simpl. unfold on_video.
    repeat (wp_call; simpl); auto.
    right. right. exists e. split; [exact He | reflexivity].
  - left.
    apply (wp_context_after (on_audio e track data pts)
             (fun c' => slot c' = slot c)).
    destruct c as [u p a sid subid d ad f fs fw fh fq aq].
    unfold slot. simpl. unfold on_audio, audio_decoder_decode. wp_run.
  - left. reflexivity.
Qed.

Lemma step_keeps_slot_invariant c c' :
  step codec_contract c c' -> slot_invariant c -> slot_invariant c'.
Proof.
  intros Hstep Hinv.
  destruct (step_writes_slot _ c c' Hstep)
    as [Hsame | [Hempty | (e & He & Hstaged)]].
  - exact (slot_invariant_same c c' Hsame Hinv).
  - exact (slot_invariant_empty c' Hempty).
  - exact (slot_invariant_staged e c' Hstaged He).
Qed.

Lemma create_zeroes_slot e settings :
  slot (hang_source_create e settings) = empty_slot.
Proof.
  unfold hang_source_create.
  apply (wp_context_after _ (fun c' => slot c' = empty_slot)).
  do 6 wp_step.
  destruct (update_flushes_slot e settings
              (set_audio_queue [] (set_frame_queue []
                 (set_current_frame None 0 0 0 zeroed_context))))
    as [Hsame | Hempty]; unfold wp.
  - rewrite Hsame. reflexivity.
  - exact Hempty.
Qed.

(** What libavutil checks of a picture size is more than is needed here. *)
Lemma picture_size_checked_fits frame :
  picture_size_checked frame -> fits_int frame.
Proof.
  unfold picture_size_checked, fits_int, INT_MAX.
  intros (Hw & Hh & Hsize). repeat split; try assumption. nia.
Qed.

(** C3.  With a codec that returns frames of positive dimensions whose
    RGBA size fits an [int] (libavcodec hands out no other), the slot
    of every context the program can be in, when it holds a buffer,
    has size width x height x 4 and positive dimensions; and each of
    the writes keeps it so: staging a decoded frame, the flush of
    [hang_source_deactivate], the zeroing in [hang_source_create]. *)
Theorem slot_invariant_holds (c : hang_source) :
  reachable codec_contract c ->
  slot_invariant c
  /\ (forall c', step codec_contract c c' -> slot_invariant c')
  /\ (forall e data pts keyframe,
        codec_contract e ->
        slot_invariant
          (context_after (vaapi_decoder_decode e data pts keyframe c)))
  /\ slot_invariant (context_after (hang_source_deactivate c))
  /\ (forall e settings, slot_invariant (hang_source_create e settings)).
Proof.
  intros Hreach.
  assert (Hinv : slot_invariant c).
  { induction Hreach as [e settings _ | c c' _ IH Hstep].
    - apply slot_invariant_empty, create_zeroes_slot.
    - exact (step_keeps_slot_invariant c c' Hstep IH). }
  split; [exact Hinv |]. split; [| split; [| split]].
  - intros c' Hstep. exact (step_keeps_slot_invariant c c' Hstep Hinv).
  - intros e data pts keyframe He.
    destruct (decode_cases e data pts keyframe c)
      as [(_ & Hsame & _) | (_ & Hstaged & _)].
    + exact (slot_invariant_same c _ Hsame Hinv).
    + exact (slot_invariant_staged e _ Hstaged He).
  - destruct (deactivate_flushes_slot c) as [Hsame | Hempty].
    + exact (slot_invariant_same c _ Hsame Hinv).
    + exact (slot_invariant_empty _ Hempty).
  - intros e settings. apply slot_invariant_empty, create_zeroes_slot.
Qed.

Lemma software_env_contract w h :
  0 < w -> 0 < h -> w * h * 4 <= INT_MAX ->
  codec_contract (software_env (yuv_frame w h)).
Proof. intros. unfold codec_contract, fits_int. simpl. auto. Qed.

(** Scenario 1 of the specification: one 640x360 frame staged. *)
Lemma slot_invariant_holds_witness :
  let c := after_frame 640 360 subscribed in
  slot c = (Some (Block 921600), 921600, 640, 360)
  /\ slot_invariant c
  /\ (forall c', step codec_contract c c' -> slot_invariant c')
  /\ (forall e data pts keyframe,
        codec_contract e ->
        slot_invariant
          (context_after (vaapi_decoder_decode e data pts keyframe c)))
  /\ slot_invariant (context_after (hang_source_deactivate c))
  /\ (forall e settings, slot_invariant (hang_source_create e settings)).
Proof.
  intros c. split; [reflexivity |].
  assert (He : codec_contract (software_env (yuv_frame 640 360))).
  { apply software_env_contract; unfold INT_MAX; lia. }
  apply (slot_invariant_holds c).
  apply reachable_step with subscribed.
  - apply reachable_create. exact He.
  - apply step_on_video. exact He.
Defined.

(** The contract is needed.  A frame of 32768 x 32784, which the
    picture-size check refuses, would have its RGBA size, 4297064448,
    computed in [int] as 2097152 and stored with the true dimensions. *)
Remark oversized_frame_wraps :
  let frame := yuv_frame 32768 32784 in
  let c := after_frame 32768 32784 subscribed in
  ~ picture_size_checked frame
  /\ ~ fits_int frame
  /\ slot c = (Some (Block 2097152), 2097152, 32768, 32784)
  /\ ~ slot_invariant c.
Proof.
  intros frame c. split; [| split; [| split]].
  - intros (_ & _ & Hsize). vm_compute in Hsize. discriminate Hsize.
  - intros (_ & _ & Hsize). vm_compute in Hsize. apply Hsize. reflexivity.
  - vm_compute. reflexivity.
  - intros Hinv.
    assert (Hdata : current_frame_data c <> None) by (vm_compute; discriminate).
    destruct (Hinv Hdata) as (Hsize & _).
    vm_compute in Hsize. discriminate Hsize.
Qed.

End DecodeClaims.

(** ** More on the repacker *)

Section RepackerExtras.
Import Machine Repacker Framing.

Local Open Scope Z_scope.

(** The shape of an accepted input and of what is returned for it. *)
Lemma accepted_shape heap_grants data out_data out_size :
  addressable data ->
  convert_mp4_nal_units_to_annex_b heap_grants data = Repacked out_data out_size ->
  exists units rest,
    data = length_prefixed units ++ rest
    /\ Forall well_framed units
    /\ (length rest < 4)%nat
    /\ heap_grants (Z.of_nat (length data) + 1024) = true
    /\ out_data = start_coded (map payload units)
                  ++ drop (length (length_prefixed units))
                       (bzalloc (Z.of_nat (length data) + 1024))
    /\ out_size = Z.of_nat (length (length_prefixed units)).
Proof.
  intros Haddr Hrun.
  destruct (framing_cases data)
    as [(units & rest & Heq & Hwf & Hshort)
       | (units & b0 & b1 & b2 & b3 & rest & Heq & Hwf & Hover)].
  - destruct (heap_grants (Z.of_nat (length data) + 1024)) eqn:Hheap.
    + pose proof (convert_well_framed heap_grants units rest) as Hgood.
      cbv zeta in Hgood. rewrite <- Heq in Hgood.
      rewrite (Hgood Haddr Hwf Hshort Hheap) in Hrun.
      injection Hrun as <- <-.
      exists units, rest. repeat split; try assumption.
      destruct (length_framings units) as [-> _]. reflexivity.
    + exfalso. revert Hrun. unfold convert_mp4_nal_units_to_annex_b.
      unfold addressable in Haddr.
      rewrite size_t_small by lia. rewrite Hheap. discriminate.
  - exfalso. revert Hrun.
    pose proof (convert_overrun heap_grants units b0 b1 b2 b3 rest) as Hbad.
    cbv zeta in Hbad. rewrite <- Heq in Hbad.
    rewrite (Hbad Haddr Hwf Hover).
    destruct (heap_grants _); discriminate.
Qed.

(** X1.  The acceptance criterion of [convert_mp4_nal_units_to_annex_b]:
    when the allocation made on entry is granted, the function returns
    true exactly for the inputs that are a run of length-prefixed units,
    each with its declared number of payload bytes, followed by fewer
    than four bytes. *)
Theorem repacker_accepts_exactly_unit_runs
    (heap_grants : Z -> bool) (data : list byte) :
  addressable data ->
  heap_grants (Z.of_nat (length data) + 1024) = true ->
  returns_true (convert_mp4_nal_units_to_annex_b heap_grants data) = true
  <-> exists units rest,
        data = length_prefixed units ++ rest
        /\ Forall well_framed units /\ (length rest < 4)%nat.
Proof.
  intros Haddr Hheap. split.
  - destruct (convert_mp4_nal_units_to_annex_b heap_grants data)
      as [out_data out_size | | |] eqn:Hrun; try discriminate.
    intros _.
    destruct (accepted_shape _ _ _ _ Haddr Hrun)
      as (units & rest & Heq & Hwf & Hshort & _).
    exists units, rest. auto.
  - intros (units & rest & Heq & Hwf & Hshort).
    pose proof (convert_well_framed heap_grants units rest) as Hgood.
    cbv zeta in Hgood. rewrite <- Heq in Hgood.
    rewrite (Hgood Haddr Hwf Hshort Hheap). reflexivity.
Qed.

(** One unit [00 00 00 02 AA BB] and a stray byte. *)
Lemma repacker_accepts_exactly_unit_runs_witness :
  let heap_grants := fun _ : Z => true in
  let data := [x00; x00; x00; x02; xaa; xbb; x00] in
  addressable data
  /\ (returns_true (convert_mp4_nal_units_to_annex_b heap_grants data) = true
      <-> exists units rest,
            data = length_prefixed units ++ rest
            /\ Forall well_framed units /\ (length rest < 4)%nat).
Proof.
  intros heap_grants data.
  assert (Haddr : addressable data) by (unfold addressable; simpl; lia).
  split; [exact Haddr |].
  exact (repacker_accepts_exactly_unit_runs heap_grants data Haddr eq_refl).
Defined.

(** X2.  What a caller may rely on after acceptance: the output size
    is at most the input size and falls short of it by at most three
    bytes, the buffer handed back holds the input size plus 1024 bytes,
    and every byte of it past the output size is still the zero that
    [bzalloc] wrote. *)
Theorem repacker_output_within_input
    (heap_grants : Z -> bool) (data out_data : list byte) (out_size : Z) :
  addressable data ->
  convert_mp4_nal_units_to_annex_b heap_grants data = Repacked out_data out_size ->
  0 <= out_size <= Z.of_nat (length data)
  /\ Z.of_nat (length data) - out_size <= 3
  /\ Z.of_nat (length out_data) = Z.of_nat (length data) + 1024
  /\ Forall (fun b => b = x00) (drop (Z.to_nat out_size) out_data).
Proof.
  intros Haddr Hrun.
  destruct (accepted_shape _ _ _ _ Haddr Hrun)
    as (units & rest & Heq & Hwf & Hshort & _ & -> & ->).
  destruct (length_framings units) as [Hsame _].
  assert (Hlen : length data = (length (length_prefixed units) + length rest)%nat).
  { rewrite Heq at 1. apply length_app. }
  repeat split; try lia.
  - rewrite length_app, length_drop. unfold bzalloc. rewrite length_replicate.
    rewrite <- Hsame. lia.
  - rewrite Nat2Z.id, Hsame, drop_app_length.
    unfold bzalloc. rewrite drop_replicate.
    apply Forall_replicate. reflexivity.
Qed.

Lemma repacker_output_within_input_witness :
  let heap_grants := fun _ : Z => true in
  let data := [x00; x00; x00; x02; xaa; xbb; x00] in
  let out_data := [x00; x00; x00; x01; xaa; xbb] ++ replicate 1025 x00 in
  let out_size := 6 in
  addressable data
  /\ convert_mp4_nal_units_to_annex_b heap_grants data
     = Repacked out_data out_size
  /\ 0 <= out_size <= Z.of_nat (length data)
  /\ Z.of_nat (length data) - out_size <= 3
  /\ Z.of_nat (length out_data) = Z.of_nat (length data) + 1024
  /\ Forall (fun b => b = x00) (drop (Z.to_nat out_size) out_data).
Proof.
  intros heap_grants data out_data out_size.
  assert (Haddr : addressable data) by (unfold addressable; simpl; lia).
  assert (Hrun : convert_mp4_nal_units_to_annex_b heap_grants data
                 = Repacked out_data out_size) by (vm_compute; reflexivity).
  split; [exact Haddr |]. split; [exact Hrun |].
  exact (repacker_output_within_input heap_grants data out_data out_size
           Haddr Hrun).
Defined.

(** X3.  The output buffer is never grown: once the allocation made on
    entry is granted, the result is the one a heap that grants
    everything gives, and it is not an allocation failure, whatever the
    heap would answer to a later [brealloc]. *)
Theorem repacker_allocates_once
    (heap_grants : Z -> bool) (data : list byte) :
  addressable data ->
  heap_grants (Z.of_nat (length data) + 1024) = true ->
  convert_mp4_nal_units_to_annex_b heap_grants data
  = convert_mp4_nal_units_to_annex_b (fun _ => true) data
  /\ convert_mp4_nal_units_to_annex_b heap_grants data <> AllocationFailed.
Proof.
  intros Haddr Hheap.
  destruct (framing_cases data)
    as [(units & rest & Heq & Hwf & Hshort)
       | (units & b0 & b1 & b2 & b3 & rest & Heq & Hwf & Hover)].
  - pose proof (convert_well_framed heap_grants units rest) as Hgood.
    pose proof (convert_well_framed (fun _ => true) units rest) as Hall.
    cbv zeta in Hgood, Hall. rewrite <- Heq in Hgood, Hall.
    rewrite (Hgood Haddr Hwf Hshort Hheap).
    rewrite (Hall Haddr Hwf Hshort eq_refl).
    split; [reflexivity | discriminate].
  - pose proof (convert_overrun heap_grants units b0 b1 b2 b3 rest) as Hbad.
    pose proof (convert_overrun (fun _ => true) units b0 b1 b2 b3 rest) as Hall.
    cbv zeta in Hbad, Hall. rewrite <- Heq in Hbad, Hall.
    rewrite (Hbad Haddr Hwf Hover), (Hall Haddr Hwf Hover), Hheap.
    split; [reflexivity | discriminate].
Qed.

(** A heap that grants the 1030 bytes asked for on entry and nothing
    else. *)
Lemma repacker_allocates_once_witness :
  let heap_grants := fun n : Z => n =? 1030 in
  let data := [x00; x00; x00; x02; xaa; xbb] in
  addressable data
  /\ convert_mp4_nal_units_to_annex_b heap_grants data
     = convert_mp4_nal_units_to_annex_b (fun _ => true) data
  /\ convert_mp4_nal_units_to_annex_b heap_grants data <> AllocationFailed.
Proof.
  intros heap_grants data.
  assert (Haddr : addressable data) by (unfold addressable; simpl; lia).
  split; [exact Haddr |].
  exact (repacker_allocates_once heap_grants data Haddr eq_refl).
Defined.

Lemma length_prefixed_app units1 units2 :
  length_prefixed (units1 ++ units2)
  = length_prefixed units1 ++ length_prefixed units2.
Proof. unfold length_prefixed. rewrite map_app, concat_app. reflexivity. Qed.

Lemma start_coded_app payloads1 payloads2 :
  start_coded (payloads1 ++ payloads2)
  = start_coded payloads1 ++ start_coded payloads2.
Proof. unfold start_coded. rewrite map_app, concat_app. reflexivity. Qed.

(** X4.  Repacking composes: when [a] is accepted and consumed to its
    last byte and [b] is accepted, their concatenation is accepted and
    its output is the output of [a] followed by the output of [b]. *)
Theorem repacker_concatenation
    (heap_grants : Z -> bool) (a b out_a out_b : list byte) (size_a size_b : Z) :
  addressable (a ++ b) ->
  convert_mp4_nal_units_to_annex_b heap_grants a = Repacked out_a size_a ->
  size_a = Z.of_nat (length a) ->
  convert_mp4_nal_units_to_annex_b heap_grants b = Repacked out_b size_b ->
  heap_grants (Z.of_nat (length (a ++ b)) + 1024) = true ->
  output_bytes (convert_mp4_nal_units_to_annex_b heap_grants (a ++ b))
  = Some (take (Z.to_nat size_a) out_a ++ take (Z.to_nat size_b) out_b).
Proof.
  intros Haddr Hrun_a Hwhole Hrun_b Hheap.
  assert (Haddr_a : addressable a).
  { revert Haddr. unfold addressable. rewrite length_app. lia. }
  assert (Haddr_b : addressable b).
  { revert Haddr. unfold addressable. rewrite length_app. lia. }
  destruct (accepted_shape _ _ _ _ Haddr_a Hrun_a)
    as (ua & ra & Heq_a & Hwf_a & _ & _ & -> & Hsize_a).
  destruct (accepted_shape _ _ _ _ Haddr_b Hrun_b)
    as (ub & rb & Heq_b & Hwf_b & Hshort_b & _ & -> & ->).
  assert (Hra : ra = []).
  { apply length_zero_iff_nil.
    apply (f_equal length) in Heq_a. rewrite length_app in Heq_a. lia. }
  subst ra. rewrite app_nil_r in Heq_a.
  pose proof (convert_well_framed heap_grants (ua ++ ub) rb) as Hgood.
  cbv zeta in Hgood.
  rewrite length_prefixed_app, <- app_assoc, <- Heq_a, <- Heq_b in Hgood.
  rewrite Hgood; try assumption.
  - simpl. rewrite Hsize_a, !Nat2Z.id.
    destruct (length_framings ua) as [-> _].
    destruct (length_framings ub) as [-> _].
    rewrite !take_app_length, map_app, start_coded_app. reflexivity.
  - apply Forall_app. split; assumption.
Qed.

Lemma repacker_concatenation_witness :
  let heap_grants := fun _ : Z => true in
  let a := [x00; x00; x00; x01; xaa] in
  let b := [x00; x00; x00; x00; xbb] in
  let out_a := [x00; x00; x00; x01; xaa] ++ replicate 1024 x00 in
  let out_b := [x00; x00; x00; x01] ++ replicate 1025 x00 in
  let size_a := 5 in
  let size_b := 4 in
  output_bytes (convert_mp4_nal_units_to_annex_b heap_grants (a ++ b))
  = Some (take (Z.to_nat size_a) out_a ++ take (Z.to_nat size_b) out_b).
Proof.
  intros heap_grants a b out_a out_b size_a size_b.
  apply (repacker_concatenation heap_grants a b out_a out_b size_a size_b).
  - unfold addressable. simpl. lia.
  - vm_compute. reflexivity.
  - reflexivity.
  - vm_compute. reflexivity.
  - reflexivity.
Defined.

End RepackerExtras.

(** ** More on the decoder *)

Ltac unfold_init :=
  unfold Decoder.vaapi_decoder_init, Decoder.software_fallback,
    Decoder.vaapi_cleanup, Decoder.vaapi_init_display,
    Decoder.vaapi_create_config, Decoder.vaapi_create_context.

Section DecoderExtras.
Import Machine Repacker Model Decoder Source Properties Scenarios
  Observations Drivers.

Local Open Scope string_scope.
Local Open Scope Z_scope.
Local Open Scope list_scope.

(** X5.  [vaapi_decoder_init] returns true exactly when it leaves a
    decoder instance in the context; an instance it leaves has a
    display or an open codec; and it writes no field of the context but
    [vaapi_context]. *)
Theorem decoder_init_reports_instance (e : environment) (c : hang_source) :
  let r := vaapi_decoder_init e c in
  (result r = true <-> vaapi_context (context_after r) <> None)
  /\ (forall d, vaapi_context (context_after r) = Some d ->
        va_display d = true \/ codec_ctx d = true)
  /\ set_vaapi_context None (context_after r) = set_vaapi_context None c.
Proof.
  intros r. subst r.
  change (wp (vaapi_decoder_init e)
            (fun b c' =>
               (b = true <-> vaapi_context c' <> None)
               /\ (forall d, vaapi_context c' = Some d ->
                     va_display d = true \/ codec_ctx d = true)
               /\ set_vaapi_context None c' = set_vaapi_context None c) c).
  destruct c as [u p a sid subid d ad f fs fw fh fq aq].
  destruct e as [hg scr sub drm gd vi sup cid cc xid cf ca co ai adec
                   pa sp fa rf df sc ss].
  unfold_init. simpl.
  destruct drm, gd, vi, cc, cf, ca; simpl;
    repeat (wp_step; simpl);
    repeat case_match; simpl;
    (split; [split; [discriminate || done | done || (intros; exfalso; auto)] |]);
    (split; [intros ? ?; simplify_eq/=; auto | reflexivity]).
Qed.

Lemma find_first {A} (f : A -> bool) (before : list A) x after :
  Forall (fun y => f y = false) before -> f x = true ->
  List.find f (before ++ x :: after) = Some x.
Proof.
  induction 1 as [| y before Hy _ IH]; intros Hx; simpl.
  - rewrite Hx. reflexivity.
  - rewrite Hy. exact (IH Hx).
Qed.

(** X6.  With a render node, a display that initialises and a context
    that can be created, the decoder is set up for the first profile of
    the list that the driver supports, at 1920x1080, and the software
    codec is not opened. *)
Theorem decoder_init_prefers_hardware (e : environment) (c : hang_source)
    (before after : list VAProfile) (p : VAProfile) :
  drm_open_ok e = true -> va_get_display_ok e = true ->
  va_initialize_ok e = true ->
  profiles = before ++ p :: after ->
  Forall (fun q => va_profile_supported e q = false) before ->
  va_profile_supported e p = true ->
  va_create_context_ok e = true ->
  result (vaapi_decoder_init e c) = true
  /\ vaapi_context (context_after (vaapi_decoder_init e c))
     = Some {| va_display := true; va_config := va_config_id e;
               va_context := va_context_id e; va_profile := Some p;
               codec_ctx := false; sws_ctx := None;
               width := 1920; height := 1080;
               pix_fmt := AV_PIX_FMT_YUV420P |}.
Proof.
  intros Hdrm Hgd Hvi Hlist Hbefore Hp Hcc.
  pose proof (find_first _ before p after Hbefore Hp) as Hfind.
  rewrite <- Hlist in Hfind.
  destruct c as [u pa a sid subid d ad f fs fw fh fq aq].
  unfold_init. rewrite Hdrm, Hgd, Hvi, Hfind, Hcc.
  split; reflexivity.
Qed.

(** A driver that supports H.264 Main, the second profile asked for. *)
Lemma decoder_init_prefers_hardware_witness :
  let e := va_env true true (yuv_frame 640 360) in
  let c := zeroed_context in
  let p := VAProfileH264Main in
  result (vaapi_decoder_init e c) = true
  /\ vaapi_context (context_after (vaapi_decoder_init e c))
     = Some {| va_display := true; va_config := va_config_id e;
               va_context := va_context_id e; va_profile := Some p;
               codec_ctx := false; sws_ctx := None;
               width := 1920; height := 1080;
               pix_fmt := AV_PIX_FMT_YUV420P |}.
Proof.
  intros e c p.
  apply (decoder_init_prefers_hardware e c [VAProfileH264High]
           [VAProfileHEVCMain; VAProfileHEVCMain10;
            VAProfileAV1Profile0; VAProfileAV1Profile1] p).
  - reflexivity.
  - reflexivity.
  - reflexivity.
  - reflexivity.
  - repeat constructor.
  - reflexivity.
  - reflexivity.
Defined.

(** X7.  When the display initialises but no profile is supported, or
    the context cannot be created, the hardware state is cleaned up
    before the fallback: the call returns whether the software codec
    was found, allocated and opened, and the decoder it then leaves has
    no display, no config and no context, an open codec and no
    converter yet. *)
Theorem decoder_init_falls_back_clean (e : environment) (c : hang_source) :
  drm_open_ok e = true -> va_get_display_ok e = true ->
  va_initialize_ok e = true ->
  List.find (va_profile_supported e) profiles = None
  \/ va_create_context_ok e = false ->
  let r := vaapi_decoder_init e c in
  result r = codec_found e && codec_alloc_ok e && negb (codec_open_ret e <? 0)
  /\ (result r = true ->
      exists d, vaapi_context (context_after r) = Some d
                /\ va_display d = false /\ va_config d = 0 /\ va_context d = 0
                /\ codec_ctx d = true /\ sws_ctx d = None).
Proof.
  intros Hdrm Hgd Hvi Hfail r. subst r.
  destruct c as [u pa a sid subid d ad f fs fw fh fq aq].
  unfold_init. rewrite Hdrm, Hgd, Hvi.
  destruct Hfail as [Hnone | Hctx].
  - rewrite Hnone.
    destruct (codec_found e), (codec_alloc_ok e), (codec_open_ret e <? 0);
      (split; [reflexivity |]); try discriminate;
      intros _; eexists; repeat split; reflexivity.
  - rewrite Hctx.
    destruct (List.find _ _), (codec_found e), (codec_alloc_ok e),
      (codec_open_ret e <? 0), (va_config_id e =? 0) eqn:Hid;
      (split; [reflexivity |]); try discriminate;
      intros _; eexists; unfold result, context_after; simpl;
      rewrite ?Hid; simpl; repeat split; try reflexivity;
      apply Z.eqb_eq; exact Hid.
Qed.

(** A driver whose [vaCreateContext] fails. *)
Lemma decoder_init_falls_back_clean_witness :
  let e := va_env true false (yuv_frame 640 360) in
  let c := zeroed_context in
  let r := vaapi_decoder_init e c in
  result r = codec_found e && codec_alloc_ok e && negb (codec_open_ret e <? 0)
  /\ (result r = true ->
      exists d, vaapi_context (context_after r) = Some d
                /\ va_display d = false /\ va_config d = 0 /\ va_context d = 0
                /\ codec_ctx d = true /\ sws_ctx d = None).
Proof.
  intros e c.
  apply (decoder_init_falls_back_clean e c).
  - reflexivity.
  - reflexivity.
  - reflexivity.
  - right. reflexivity.
Defined.

Lemma init_keeps_display e c :
  drm_open_ok e = true -> va_get_display_ok e = true ->
  va_initialize_ok e = false
  \/ (List.find (va_profile_supported e) profiles <> None
      /\ va_create_context_ok e = true) ->
  forall d, vaapi_context (context_after (vaapi_decoder_init e c)) = Some d ->
            va_display d = true.
Proof.
  intros Hdrm Hgd Hkept d.
  destruct c as [u pa a sid subid dc ad f fs fw fh fq aq].
  unfold_init. rewrite Hdrm, Hgd.
  destruct Hkept as [Hvi | [Hfind Hcc]].
  - rewrite Hvi.
    destruct (codec_found e), (codec_alloc_ok e), (codec_open_ret e <? 0);
      unfold context_after; simpl; intros; simplify_eq/=; reflexivity.
  - rewrite Hcc.
    destruct (List.find _ _); [| contradiction].
    destruct (va_initialize_ok e), (codec_found e), (codec_alloc_ok e),
      (codec_open_ret e <? 0);
      unfold context_after; simpl; intros; simplify_eq/=; reflexivity.
Qed.

(** X8.  When [vaInitialize] fails, [vaapi_init_display] terminates the
    display but leaves the pointer in the decoder, and the fallback
    opens the software codec beside it.  [vaapi_decoder_init] returns
    true, yet every later [vaapi_decoder_decode] takes the hardware
    branch: it returns false after the two debug lines and leaves the
    context as it was, whatever the codec would have produced. *)
Theorem failed_initialize_blocks_software_decoding
    (e0 : environment) (c : hang_source) :
  drm_open_ok e0 = true -> va_get_display_ok e0 = true ->
  va_initialize_ok e0 = false ->
  codec_found e0 = true -> codec_alloc_ok e0 = true ->
  0 <= codec_open_ret e0 ->
  let c1 := context_after (vaapi_decoder_init e0 c) in
  result (vaapi_decoder_init e0 c) = true
  /\ (exists d, vaapi_context c1 = Some d
                /\ va_display d = true /\ codec_ctx d = true)
  /\ forall e data pts keyframe,
       vaapi_decoder_decode e data pts keyframe c1
       = (false, c1,
          [obs_log LOG_DEBUG "Using VA-API decoder";
           obs_log LOG_DEBUG "VA-API decode not implemented"]).
Proof.
  intros Hdrm Hgd Hvi Hcf Hca Hco c1. subst c1.
  assert (Hopen : (codec_open_ret e0 <? 0) = false) by (apply Z.ltb_ge; lia).
  destruct c as [u pa a sid subid dc ad f fs fw fh fq aq].
  unfold_init. rewrite Hdrm, Hgd, Hvi, Hcf, Hca, Hopen.
  split; [reflexivity |]. split.
  - eexists. unfold context_after. simpl. repeat split; reflexivity.
  - intros e data pts keyframe. reflexivity.
Qed.

Lemma failed_initialize_blocks_software_decoding_witness :
  let e0 := va_env false true (yuv_frame 640 360) in
  let c := zeroed_context in
  let c1 := context_after (vaapi_decoder_init e0 c) in
  result (vaapi_decoder_init e0 c) = true
  /\ (exists d, vaapi_context c1 = Some d
                /\ va_display d = true /\ codec_ctx d = true)
  /\ forall e data pts keyframe,
       vaapi_decoder_decode e data pts keyframe c1
       = (false, c1,
          [obs_log LOG_DEBUG "Using VA-API decoder";
           obs_log LOG_DEBUG "VA-API decode not implemented"]).
Proof.
  intros e0 c.
  apply (failed_initialize_blocks_software_decoding e0 c).
  - reflexivity.
  - reflexivity.
  - reflexivity.
  - reflexivity.
  - reflexivity.
  - simpl. lia.
Defined.

(** X9.  The converse: a decode that returns true on the decoder
    [vaapi_decoder_init] left means that the init found no render node
    or no display, or initialised the display and then fell back for
    want of a profile or a context.  No other outcome of the init ever
    yields a frame. *)
Theorem decode_after_init_needs_software_path
    (e0 : environment) (c : hang_source)
    (e : environment) (data : list byte) (pts : Z) (keyframe : bool) :
  result (vaapi_decoder_decode e data pts keyframe
            (context_after (vaapi_decoder_init e0 c))) = true ->
  drm_open_ok e0 = false \/ va_get_display_ok e0 = false
  \/ (va_initialize_ok e0 = true
      /\ (List.find (va_profile_supported e0) profiles = None
          \/ va_create_context_ok e0 = false)).
Proof.
  intros Htrue.
  destruct (drm_open_ok e0) eqn:Hdrm; [| auto].
  destruct (va_get_display_ok e0) eqn:Hgd; [| auto].
  right. right.
  assert (Hhw : forall d,
             vaapi_context (context_after (vaapi_decoder_init e0 c)) = Some d ->
             va_display d = true -> False).
  { intros d Hd Hdisplay.
    rewrite (decode_on_hardware e data pts keyframe _ d Hd Hdisplay) in Htrue.
    discriminate. }
  assert (Hsome : exists d,
             vaapi_context (context_after (vaapi_decoder_init e0 c)) = Some d).
  { destruct (vaapi_context (context_after (vaapi_decoder_init e0 c)))
      as [d |] eqn:Hd; [eauto |].
    rewrite (decode_without_decoder e data pts keyframe _ Hd) in Htrue.
    discriminate. }
  destruct Hsome as [d Hd].
  destruct (va_initialize_ok e0) eqn:Hvi.
  - split; [reflexivity |].
    destruct (List.find (va_profile_supported e0) profiles) eqn:Hfind; [| auto].
    destruct (va_create_context_ok e0) eqn:Hcc; [| auto].
    exfalso. apply (Hhw d Hd).
    apply (init_keeps_display e0 c Hdrm Hgd); [| exact Hd].
    right. rewrite Hfind. split; [discriminate | exact Hcc].
  - exfalso. apply (Hhw d Hd).
    apply (init_keeps_display e0 c Hdrm Hgd); [| exact Hd].
    left. exact Hvi.
Qed.

(** A machine without a render node decodes. *)
Lemma decode_after_init_needs_software_path_witness :
  let e0 := software_env (yuv_frame 640 360) in
  drm_open_ok e0 = false \/ va_get_display_ok e0 = false
  \/ (va_initialize_ok e0 = true
      /\ (List.find (va_profile_supported e0) profiles = None
          \/ va_create_context_ok e0 = false)).
Proof.
  intros e0.
  apply (decode_after_init_needs_software_path e0 zeroed_context e0 [] 0 true).
  vm_compute. reflexivity.
Defined.

(** X10.  [vaapi_decoder_destroy] undoes [vaapi_decoder_init]: on a
    context without a decoder, init followed by destroy gives the
    context back, whichever path the init took; and destroy on a
    context without a decoder does nothing at all. *)
Theorem decoder_destroy_undoes_init (e : environment) (c : hang_source) :
  vaapi_context c = None ->
  context_after (vaapi_decoder_destroy (context_after (vaapi_decoder_init e c)))
  = c
  /\ vaapi_decoder_destroy c = (tt, c, []).
Proof.
  intros Hnone. split.
  - apply (wp_context_after vaapi_decoder_destroy (fun c' => c' = c)).
    apply wp_vaapi_decoder_destroy.
    apply (wp_context_after (vaapi_decoder_init e)
             (fun c' => set_vaapi_context None c' = c)).
    apply wp_vaapi_decoder_init. intros _ d.
    destruct c. simpl in Hnone. subst. reflexivity.
  - unfold vaapi_decoder_destroy, bind, get. cbn beta iota zeta.
    rewrite Hnone. reflexivity.
Qed.

Lemma decoder_destroy_undoes_init_witness :
  let e := va_env true true (yuv_frame 640 360) in
  let c := zeroed_context in
  context_after (vaapi_decoder_destroy (context_after (vaapi_decoder_init e c)))
  = c
  /\ vaapi_decoder_destroy c = (tt, c, []).
Proof.
  intros e c.
  apply (decoder_destroy_undoes_init e c).
  reflexivity.
Defined.


End DecoderExtras.

(** ** The program logic, with the calls made *)

Section TraceLogic.
Import Model Observations.

Lemma wpt_bind {A B} (m : M A) (k : A -> M B) Q c :
  wpt m (fun a c1 t1 => wpt (k a) (fun b c2 t2 => Q b c2 (t1 ++ t2)) c1) c ->
  wpt (bind m k) Q c.
Proof.
  unfold wpt, bind, result, context_after, calls.
  destruct (m c) as [[a c1] t1]. simpl.
  destruct (k a c1) as [[b c2] t2]. simpl. tauto.
Qed.

Lemma wpt_ret {A} (a : A) (Q : A -> hang_source -> list event -> Prop) c :
  Q a c [] -> wpt (ret a) Q c.
Proof. tauto. Qed.

Lemma wpt_get (Q : hang_source -> hang_source -> list event -> Prop) c :
  Q c c [] -> wpt get Q c.
Proof. tauto. Qed.

Lemma wpt_modify f (Q : unit -> hang_source -> list event -> Prop) c :
  Q tt (f c) [] -> wpt (modify f) Q c.
Proof. tauto. Qed.

Lemma wpt_emit ev (Q : unit -> hang_source -> list event -> Prop) c :
  Q tt c [ev] -> wpt (emit ev) Q c.
Proof. tauto. Qed.

Lemma wpt_update_decoder f (Q : unit -> hang_source -> list event -> Prop) c :
  Q tt (set_vaapi_context (f <$> vaapi_context c) c) [] ->
  wpt (Decoder.update_decoder f) Q c.
Proof. tauto. Qed.

Lemma wpt_mono {A} (m : M A) (P Q : A -> hang_source -> list event -> Prop) c :
  wpt m P c -> (forall a c' t, P a c' t -> Q a c' t) -> wpt m Q c.
Proof. unfold wpt. auto. Qed.

End TraceLogic.

Ltac wpt_step :=
  lazymatch goal with
  | |- Observations.wpt (Model.bind _ _) _ _ => apply wpt_bind
  | |- Observations.wpt (Model.ret _) _ _ => apply wpt_ret
  | |- Observations.wpt Model.get _ _ => apply wpt_get
  | |- Observations.wpt (Model.modify _) _ _ => apply wpt_modify
  | |- Observations.wpt (Model.emit _) _ _ => apply wpt_emit
  | |- Observations.wpt (Decoder.update_decoder _) _ _ => apply wpt_update_decoder
  | |- Observations.wpt (Model.when ?b _) _ _ => unfold Model.when; destruct b eqn:?
  | |- Observations.wpt (if ?b then _ else _) _ _ => destruct b eqn:?
  | |- Observations.wpt (match ?x with _ => _ end) _ _ => destruct x eqn:?
  end.

Section TraceFootprints.
Import Machine Repacker Model Decoder Source Properties Observations.

Local Open Scope string_scope.
Local Open Scope Z_scope.
Local Open Scope list_scope.

(** [vaapi_decoder_init] asks nothing of the relay, and leaves a
    decoder instance exactly when it returns true. *)
Lemma wpt_vaapi_decoder_init e (Q : bool -> hang_source -> list event -> Prop) c :
  (forall t, relay_calls t = [] -> freed_blocks t = [] ->
             Q false (set_vaapi_context None c) t) ->
  (forall d t, relay_calls t = [] -> freed_blocks t = [] ->
               Q true (set_vaapi_context (Some d) c) t) ->
  wpt (vaapi_decoder_init e) Q c.
Proof.
  intros Hfalse Htrue.
  destruct c as [u p a sid subid d ad f fs fw fh fq aq].
  destruct e as [hg scr sub drm gd vi sup cid cc xid cf ca co ai adec
                   pa sp fa rf df sc ss].
  unfold vaapi_decoder_init, software_fallback, vaapi_cleanup,
    vaapi_init_display, vaapi_create_config, vaapi_create_context.
  simpl.
  destruct drm, gd, vi, cc, cf, ca; simpl;
    repeat (wpt_step; simpl);
    first [apply Hfalse; reflexivity | apply Htrue; reflexivity].
Qed.

Lemma wpt_vaapi_decoder_destroy (Q : unit -> hang_source -> list event -> Prop) c :
  Q tt (set_vaapi_context None c) [] ->
  wpt vaapi_decoder_destroy Q c.
Proof.
  intros HQ. destruct c as [u p a sid subid d ad f fs fw fh fq aq].
  unfold vaapi_decoder_destroy, vaapi_cleanup.
  repeat (wpt_step; simpl); simpl in *; subst; exact HQ.
Qed.

(** [vaapi_decoder_decode] asks nothing of the relay and keeps the
    decoder instance it was called with. *)
Lemma wpt_vaapi_decoder_decode e data pts keyframe
    (Q : bool -> hang_source -> list event -> Prop) c d0 :
  vaapi_context c = Some d0 ->
  (forall d t, relay_calls t = [] ->
               Q false (set_vaapi_context (Some d) c) t) ->
  (forall d t, relay_calls t = [] ->
      Q true (set_current_frame
                (Some (Block (rgba_size_of (decoded_frame e))))
                (rgba_size_of (decoded_frame e))
                (uint32_t (frame_width (decoded_frame e)))
                (uint32_t (frame_height (decoded_frame e)))
                (set_vaapi_context (Some d) c)) t) ->
  wpt (vaapi_decoder_decode e data pts keyframe) Q c.
Proof.
  intros Hd Hfalse Htrue.
  destruct c as [u p a sid subid d ad f fs fw fh fq aq].
  simpl in Hd. subst d.
  unfold vaapi_decoder_decode, vaapi_decode_frame, software_decode_frame,
    convert_and_store, store_decoded_frame.
  repeat (wpt_step; simpl); simpl in *; subst;
    first [apply (Hfalse _); reflexivity | apply (Htrue _); reflexivity].
Qed.

(** The [cleanup:] label: what it asks of the relay and what it leaves. *)
Lemma wpt_activate_cleanup (Q : unit -> hang_source -> list event -> Prop) c :
  subscription_id c <= 0 ->
  Q tt (set_audio_context false (set_vaapi_context None
          (if session_id c >? 0 then set_session_id 0 c else c)))
       ((if session_id c >? 0 then [moq_session_close (session_id c)] else [])
        ++ [audio_decoder_destroy_call]) ->
  wpt activate_cleanup Q c.
Proof.
  intros Hsub HQ. destruct c as [u p a sid subid d ad f fs fw fh fq aq].
  unfold activate_cleanup, audio_decoder_destroy. simpl in *.
  assert (Hnosub : (subid >? 0) = false) by (rewrite Z.gtb_ltb; apply Z.ltb_ge; lia).
  repeat (first [apply wpt_vaapi_decoder_destroy | wpt_step]; simpl);
    simpl in *; try congruence; exact HQ.
Qed.

Lemma wpt_activate_cleanup_any (Q : unit -> hang_source -> list event -> Prop) c :
  (forall sid subid t,
      Q tt (set_audio_context false (set_vaapi_context None
              (set_session_id sid (set_subscription_id subid c)))) t) ->
  wpt activate_cleanup Q c.
Proof.
  intros HQ. destruct c as [u p a sid subid d ad f fs fw fh fq aq].
  unfold activate_cleanup, audio_decoder_destroy. simpl in HQ.
  repeat (first [apply wpt_vaapi_decoder_destroy | wpt_step]; simpl);
    simpl in *; apply HQ.
Qed.

End TraceFootprints.

Ltac wpt_call :=
  lazymatch goal with
  | |- Observations.wpt (Decoder.vaapi_decoder_init _) _ _ =>
    apply wpt_vaapi_decoder_init; intros
  | |- Observations.wpt Decoder.vaapi_decoder_destroy _ _ =>
    apply wpt_vaapi_decoder_destroy
  | |- Observations.wpt Source.activate_cleanup _ _ =>
    apply wpt_activate_cleanup; [simpl; lia |]
  | _ => wpt_step
  end.

(** ** The session protocol *)

Section SessionProtocol.
Import Machine Repacker Model Decoder Source Properties Scenarios
  Observations.

Local Open Scope string_scope.
Local Open Scope Z_scope.
Local Open Scope list_scope.

Lemma relay_calls_app t1 t2 :
  relay_calls (t1 ++ t2) = relay_calls t1 ++ relay_calls t2.
Proof. unfold relay_calls. apply filter_app. Qed.

Lemma relay_calls_cons ev t :
  relay_calls (ev :: t)
  = if is_relay_call ev then ev :: relay_calls t else relay_calls t.
Proof.
  unfold relay_calls. rewrite filter_cons.
  destruct (is_relay_call ev); reflexivity.
Qed.

Lemma relay_calls_nil : relay_calls [] = [].
Proof. reflexivity. Qed.

Lemma freed_blocks_app t1 t2 :
  freed_blocks (t1 ++ t2) = freed_blocks t1 ++ freed_blocks t2.
Proof. unfold freed_blocks. apply omap_app. Qed.

Lemma is_empty_false u : u <> "" -> is_empty (Some u) = false.
Proof.
  intros Hu. unfold is_empty. destruct (strlen u =? 0) eqn:Hz; [| reflexivity].
  apply strlen_zero in Hz. contradiction.
Qed.

Lemma deactivate_makes_inactive c :
  active (context_after (hang_source_deactivate c)) = false.
Proof.
  apply (wp_context_after hang_source_deactivate (fun c' => active c' = false)).
  destruct c as [u p a sid subid d ad f fs fw fh fq aq].
  unfold hang_source_deactivate. destruct a; wp_run.
Qed.

(** X12.  [hang_source_deactivate] is idempotent: called again on the
    context it left, it makes no call and changes nothing. *)
Theorem deactivate_twice_is_once (c : hang_source) :
  hang_source_deactivate (context_after (hang_source_deactivate c))
  = (tt, context_after (hang_source_deactivate c), []).
Proof.
  pose proof (deactivate_makes_inactive c) as Hoff.
  revert Hoff. generalize (context_after (hang_source_deactivate c)) as c'.
  intros c' Hoff. unfold hang_source_deactivate, bind, get.
  cbn beta iota zeta. rewrite Hoff. reflexivity.
Qed.

(** X13.  Deactivating an active context that holds a session and a
    subscription closes the subscription and then the session, each
    once, asks nothing else of the relay, and frees the frame buffer in
    the slot, if there is one, once. *)
Theorem deactivate_closes_subscription_then_session (c : hang_source) :
  active c = true -> 0 < session_id c -> 0 < subscription_id c ->
  relay_calls (calls (hang_source_deactivate c))
  = [moq_subscribe_close (subscription_id c); moq_session_close (session_id c)]
  /\ freed_blocks (calls (hang_source_deactivate c))
     = option_list (current_frame_data c).
Proof.
  intros Hactive Hsid Hsub.
  change (wpt hang_source_deactivate
            (fun _ _ t =>
               relay_calls t = [moq_subscribe_close (subscription_id c);
                                moq_session_close (session_id c)]
               /\ freed_blocks t = option_list (current_frame_data c)) c).
  destruct c as [u p a sid subid d ad f fs fw fh fq aq].
  simpl in *. subst a.
  unfold hang_source_deactivate, audio_decoder_destroy. simpl.
  repeat (wpt_call; simpl); simpl in *; comparisons; subst; try lia;
    split; reflexivity.
Qed.

(** Scenario 1 with one frame staged. *)
Lemma deactivate_closes_subscription_then_session_witness :
  let c := after_frame 640 360 subscribed in
  relay_calls (calls (hang_source_deactivate c))
  = [moq_subscribe_close (subscription_id c); moq_session_close (session_id c)]
  /\ freed_blocks (calls (hang_source_deactivate c))
     = option_list (current_frame_data c).
Proof.
  intros c.
  apply (deactivate_closes_subscription_then_session c).
  - vm_compute. reflexivity.
  - vm_compute. reflexivity.
  - vm_compute. reflexivity.
Defined.

(** X14.  The whole of what [hang_source_activate] asks of the relay,
    on an inactive context whose strings pass the checks.  Either it
    ends active, having connected to the URL and subscribed to the
    broadcast path on the session it got, with both ids stored and a
    decoder in place.  Or it ends inactive with no decoder and no id
    held, and then the session, if one was opened, was closed again:
    the connect failed; or a decoder failed to initialise; or the
    subscription was refused. *)
Theorem activate_relay_protocol (e : environment) (c : hang_source)
    (u p : string) :
  active c = false ->
  url c = Some u -> url_accepted u ->
  broadcast_path c = Some p -> p <> "" ->
  subscription_id c <= 0 -> vaapi_context c = None ->
  let r := hang_source_activate e c in
  let c' := context_after r in
  let scr := session_connect_ret e in
  let sub := subscribe_create_ret e in
  (active c' = true
   /\ relay_calls (calls r) = [moq_session_connect u; moq_subscribe_create scr p]
   /\ session_id c' = scr /\ subscription_id c' = sub
   /\ 0 < scr /\ 0 < sub /\ vaapi_context c' <> None)
  \/ (active c' = false
      /\ vaapi_context c' = None
      /\ session_id c' <= 0 /\ subscription_id c' <= 0
      /\ ((scr <= 0 /\ relay_calls (calls r) = [moq_session_connect u])
          \/ (0 < scr
              /\ relay_calls (calls r)
                 = [moq_session_connect u; moq_session_close scr])
          \/ (0 < scr /\ sub <= 0
              /\ relay_calls (calls r)
                 = [moq_session_connect u; moq_subscribe_create scr p;
                    moq_session_close scr]))).
Proof.
  intros Hoff Hu (Hu_set & host_start & Hstr & Hhost) Hp Hp_set Hsub Hnone
    r c' scr sub.
  subst r c' scr sub.
  assert (Hadv : (strlen (advance 3 host_start) =? 0) = false).
  { destruct (strlen (advance 3 host_start) =? 0) eqn:Hz; [| reflexivity].
    apply strlen_zero in Hz. contradiction. }
  match goal with
  | |- ?G => change (wpt (hang_source_activate e)
                       (fun _ c' t => ltac:(
                          let g := eval pattern
                            (context_after (hang_source_activate e c)),
                            (calls (hang_source_activate e c)) in G in
                          match g with ?f _ _ => exact (f c' t) end)) c)
  end.
  unfold hang_source_activate, audio_decoder_init.
  apply wpt_bind, wpt_get. cbv beta.
  rewrite Hoff, Hu, Hp, (is_empty_false u Hu_set), (is_empty_false p Hp_set).
  simpl. rewrite Hstr. simpl in Hadv. rewrite Hadv.
  destruct c as [cu cp a sid subid d ad f fs fw fh fq aq].
  simpl in *. subst.
  clear Hhost Hadv.
  repeat (wpt_call; simpl); simpl in *; comparisons;
    repeat match goal with
           | H : 0 < ?x |- context [?x >? 0] =>
             replace (x >? 0) with true
               by (symmetry; rewrite Z.gtb_ltb; apply Z.ltb_lt; exact H)
           end;
    repeat (rewrite ?relay_calls_app, ?relay_calls_cons, ?relay_calls_nil;
            simpl);
    repeat match goal with H : relay_calls _ = [] |- _ => rewrite H end;
    simpl.
  all: try (left; repeat split; try reflexivity; try lia; discriminate).
  all: try (right; repeat split; try reflexivity; try lia; auto 6).
Qed.

Lemma activate_relay_protocol_witness :
  let e := software_env (yuv_frame 640 360) in
  let u := "https://relay.example/moq" in
  let p := "demo/track" in
  let c := configured u p in
  let r := hang_source_activate e c in
  let c' := context_after r in
  let scr := session_connect_ret e in
  let sub := subscribe_create_ret e in
  (active c' = true
   /\ relay_calls (calls r) = [moq_session_connect u; moq_subscribe_create scr p]
   /\ session_id c' = scr /\ subscription_id c' = sub
   /\ 0 < scr /\ 0 < sub /\ vaapi_context c' <> None)
  \/ (active c' = false
      /\ vaapi_context c' = None
      /\ session_id c' <= 0 /\ subscription_id c' <= 0
      /\ ((scr <= 0 /\ relay_calls (calls r) = [moq_session_connect u])
          \/ (0 < scr
              /\ relay_calls (calls r)
                 = [moq_session_connect u; moq_session_close scr])
          \/ (0 < scr /\ sub <= 0
              /\ relay_calls (calls r)
                 = [moq_session_connect u; moq_subscribe_create scr p;
                    moq_session_close scr]))).
Proof.
  intros e u p c.
  apply (activate_relay_protocol e c u p).
  - reflexivity.
  - reflexivity.
  - split; [discriminate |].
    exists "://relay.example/moq". split; [vm_compute; reflexivity |].
    vm_compute. discriminate.
  - reflexivity.
  - discriminate.
  - simpl. lia.
  - reflexivity.
Defined.

Lemma wpt_context_after {A} (m : M A) (P : hang_source -> Prop) c :
  wpt m (fun _ c' _ => P c') c -> P (context_after (m c)).
Proof. exact id. Qed.

Lemma deactivate_keeps_configured c :
  configured_invariant c ->
  configured_invariant (context_after (hang_source_deactivate c)).
Proof.
  intros (Hon & Hoff). apply wpt_context_after.
  destruct c as [u p a sid subid d ad f fs fw fh fq aq].
  unfold configured_invariant in *. simpl in *.
  unfold hang_source_deactivate, audio_decoder_destroy.
  destruct a; repeat (wpt_call; simpl); simpl in *;
    split; intros; try done; auto.
Qed.

Lemma activate_keeps_configured e c :
  configured_invariant c ->
  configured_invariant (context_after (hang_source_activate e c)).
Proof.
  intros (Hon & Hoff). apply wpt_context_after.
  destruct c as [[u |] [p |] a sid subid d ad f fs fw fh fq aq];
    unfold configured_invariant in *; simpl in *;
    unfold hang_source_activate, audio_decoder_init;
    (destruct a;
     [repeat (wpt_call; simpl); split; [exact Hon | done] |]);
    specialize (Hoff eq_refl); subst d.
  2-4: repeat (wpt_call; simpl); simpl in *; split; intros; done.
  apply wpt_bind, wpt_get. simpl.
  destruct (strlen u =? 0) eqn:Hu; simpl;
    [apply wpt_ret; split; intros; try done |].
  destruct (strlen p =? 0) eqn:Hp; simpl;
    [apply wpt_ret; split; intros; try done |].
  destruct (strstr u "://") as [host_start |] eqn:Hstr;
    [| apply wpt_emit; split; intros; try done].
  destruct (strlen (advance 3 host_start) =? 0) eqn:Hhost;
    [simpl in Hhost; simpl; rewrite Hhost;
     apply wpt_emit; split; intros; try done |].
  assert (Hurl : url_accepted u).
  { split.
    - intros ->. discriminate Hu.
    - exists host_start. split; [exact Hstr |].
      intros Hnil. rewrite Hnil in Hhost. discriminate Hhost. }
  assert (Hpath : p <> "") by (intros ->; discriminate Hp).
  simpl in Hhost. simpl. rewrite Hhost.
  repeat (first [apply wpt_activate_cleanup_any; intros | wpt_call]; simpl);
    simpl in *; split; intros; try done;
    repeat split; eauto.
Qed.

Lemma update_keeps_configured e settings c :
  configured_invariant c ->
  configured_invariant (context_after (hang_source_update e settings c)).
Proof.
  intros Hinv. apply wpt_context_after.
  unfold hang_source_update.
  wpt_step. wpt_step. wpt_step; [wpt_step; exact Hinv |].
  wpt_step.
  apply (wpt_mono _ (fun _ c' _ => configured_invariant c' /\ active c' = false)).
  { split; [exact (deactivate_keeps_configured c Hinv)
           | exact (deactivate_makes_inactive c)]. }
  intros _ c1 _ [Hinv1 Hdown].
  assert (Hinv2 : configured_invariant
            (set_broadcast_path
               (Some (obs_data_get_string settings "broadcast"))
               (set_url (Some (obs_data_get_string settings "url")) c1))).
  { destruct c1. destruct Hinv1 as (_ & Hoff). simpl in *. subst.
    split; simpl; [done | exact Hoff]. }
  repeat (wpt_step; simpl); try exact Hinv2;
    apply activate_keeps_configured; exact Hinv2.
Qed.

Lemma on_video_keeps_configured e track data pts keyframe c :
  configured_invariant c ->
  configured_invariant (context_after (on_video e track data pts keyframe c)).
Proof.
  intros (Hon & Hoff). apply wpt_context_after.
  destruct c as [u p a sid subid d ad f fs fw fh fq aq].
  unfold configured_invariant in *. simpl in *.
  unfold on_video. destruct a.
  - destruct (Hon eq_refl) as (Hu & Hp & Hd).
    destruct d as [d0 |]; [| contradiction].
    repeat (first [eapply wpt_vaapi_decoder_decode; [reflexivity | intros ..]
                  | wpt_step]; simpl);
      split; intros; try done; repeat split; auto.
  - repeat (wpt_step; simpl). split; [done | exact Hoff].
Qed.

Lemma on_audio_keeps_configured e track data pts c :
  configured_invariant c ->
  configured_invariant (context_after (on_audio e track data pts c)).
Proof.
  intros (Hon & Hoff). apply wpt_context_after.
  destruct c as [u p a sid subid d ad f fs fw fh fq aq].
  unfold configured_invariant in *. simpl in *.
  unfold on_audio, audio_decoder_decode.
  destruct a; repeat (wpt_step; simpl); split; intros; try done; auto.
Qed.

Lemma reachable_configured E c : reachable E c -> configured_invariant c.
Proof.
  induction 1 as [e settings _ | c c' _ IH Hstep].
  - unfold hang_source_create. apply wpt_context_after.
    do 6 wpt_step.
    apply (update_keeps_configured e settings).
    split; simpl; [done | reflexivity].
  - destruct Hstep.
    + apply update_keeps_configured, IH.
    + apply activate_keeps_configured, IH.
    + apply deactivate_keeps_configured, IH.
    + exact IH.
    + apply on_video_keeps_configured, IH.
    + apply on_audio_keeps_configured, IH.
    + exact IH.
Qed.

(** X15.  What the flag [active] stands for, on every context the
    program can reach and whatever the world answered on the way.  An
    active context has a URL that passed the checks of
    [hang_source_activate], a non-empty broadcast path, a decoder, a
    session and a subscription.  An inactive one has no decoder, no
    frame buffer, no session and no subscription. *)
Theorem active_context_is_configured
    (E : environment -> Prop) (c : hang_source) :
  reachable E c ->
  (active c = true ->
     (exists u, url c = Some u /\ url_accepted u)
     /\ (exists p, broadcast_path c = Some p /\ p <> "")
     /\ vaapi_context c <> None
     /\ 0 < session_id c /\ 0 < subscription_id c)
  /\ (active c = false ->
      vaapi_context c = None /\ current_frame_data c = None
      /\ session_id c <= 0 /\ subscription_id c <= 0).
Proof.
  intros Hreach.
  destruct (reachable_configured E c Hreach) as (Hon & Hoff).
  destruct (reachable_invariant E c Hreach) as (_ & _ & Hheld & Hidle).
  split.
  - intros Ha. destruct (Hon Ha) as (Hu & Hp & Hd).
    destruct (Hheld Ha). auto 8.
  - intros Ha. destruct (Hidle Ha) as (Hslot & _ & Hsid & Hsub). auto.
Qed.

Lemma active_context_is_configured_witness :
  let c := subscribed in
  active c = true
  /\ (active c = true ->
        (exists u, url c = Some u /\ url_accepted u)
        /\ (exists p, broadcast_path c = Some p /\ p <> "")
        /\ vaapi_context c <> None
        /\ 0 < session_id c /\ 0 < subscription_id c)
  /\ (active c = false ->
      vaapi_context c = None /\ current_frame_data c = None
      /\ session_id c <= 0 /\ subscription_id c <= 0).
Proof.
  intros c. split; [vm_compute; reflexivity |].
  apply (active_context_is_configured any_environment c).
  apply reachable_create. exact I.
Defined.

Lemma activate_keeps_strings e c :
  url (context_after (hang_source_activate e c)) = url c
  /\ broadcast_path (context_after (hang_source_activate e c))
     = broadcast_path c.
Proof.
  apply (wpt_context_after (hang_source_activate e)
           (fun c' => url c' = url c /\ broadcast_path c' = broadcast_path c)).
  destruct c as [u p a sid subid d ad f fs fw fh fq aq].
  unfold hang_source_activate, audio_decoder_init. simpl.
  repeat (first [apply wpt_activate_cleanup_any; intros | wpt_call]; simpl);
    split; reflexivity.
Qed.

(** X16.  After [hang_source_update] the context holds the two strings
    of the settings, an absent key read as the empty string: whether or
    not they changed, and whether or not the activation that follows a
    change went through. *)
Theorem update_stores_settings (e : environment)
    (settings : gmap string string) (c : hang_source) :
  let c' := context_after (hang_source_update e settings c) in
  url c' = Some (obs_data_get_string settings "url")
  /\ broadcast_path c' = Some (obs_data_get_string settings "broadcast").
Proof.
  intros c'. subst c'.
  apply (wpt_context_after (hang_source_update e settings)
           (fun c' => url c' = Some (obs_data_get_string settings "url")
                      /\ broadcast_path c'
                         = Some (obs_data_get_string settings "broadcast"))).
  unfold hang_source_update.
  wpt_step. wpt_step. wpt_step.
  - wpt_step.
    match goal with H : _ && _ = true |- _ =>
      apply andb_prop in H; destruct H as [Hsu Hsp] end.
    destruct (url c) as [su |]; [| discriminate Hsu].
    destruct (broadcast_path c) as [sp |]; [| discriminate Hsp].
    rewrite negb_involutive in Hsu, Hsp.
    apply String.eqb_eq in Hsu, Hsp. subst. auto.
  - wpt_step.
    apply (wpt_mono _ (fun _ _ _ => True)); [exact I |].
    intros _ c1 _ _.
    repeat (wpt_step; simpl);
      try (destruct c1; split; reflexivity).
    unfold wpt.
    destruct (activate_keeps_strings e
                (set_broadcast_path
                   (Some (obs_data_get_string settings "broadcast"))
                   (set_url (Some (obs_data_get_string settings "url")) c1)))
      as [-> ->].
    destruct c1; split; reflexivity.
Qed.

End SessionProtocol.

(** ** Reconfiguration *)

Section Reconfiguration.
Import Machine Repacker Model Decoder Source Properties Scenarios
  Observations.

Local Open Scope string_scope.
Local Open Scope Z_scope.
Local Open Scope list_scope.

Lemma opens_session_relay t :
  opens_session t = opens_session (relay_calls t).
Proof.
  unfold opens_session, relay_calls.
  induction t as [| ev t IH]; [reflexivity |].
  rewrite filter_cons. destruct ev; simpl; rewrite ?IH; reflexivity.
Qed.

Lemma deactivate_relay_calls c :
  active c = true -> 0 < session_id c -> 0 < subscription_id c ->
  relay_calls (calls (hang_source_deactivate c))
  = [moq_subscribe_close (subscription_id c); moq_session_close (session_id c)].
Proof.
  intros Hactive Hsid Hsub.
  change (wpt hang_source_deactivate
            (fun _ _ t =>
               relay_calls t = [moq_subscribe_close (subscription_id c);
                                moq_session_close (session_id c)]) c).
  destruct c as [u p a sid subid d ad f fs fw fh fq aq].
  simpl in *. subst a.
  unfold hang_source_deactivate, audio_decoder_destroy. simpl.
  repeat (wpt_call; simpl); simpl in *; comparisons; subst; try lia;
    reflexivity.
Qed.

Lemma deactivate_opens_nothing c :
  opens_session (calls (hang_source_deactivate c)) = false.
Proof.
  change (wpt hang_source_deactivate
            (fun _ _ t => opens_session t = false) c).
  destruct c as [u p a sid subid d ad f fs fw fh fq aq].
  unfold hang_source_deactivate, audio_decoder_destroy. simpl.
  repeat (wpt_call; simpl); reflexivity.
Qed.

Lemma activate_relay_head e c :
  relay_calls (calls (hang_source_activate e c)) = []
  \/ exists rest,
       relay_calls (calls (hang_source_activate e c))
       = moq_session_connect (default "" (url c)) :: rest.
Proof.
  change (wpt (hang_source_activate e)
            (fun _ _ t =>
               relay_calls t = []
               \/ exists rest,
                    relay_calls t
                    = moq_session_connect (default "" (url c)) :: rest) c).
  destruct c as [u p a sid subid d ad f fs fw fh fq aq].
  unfold hang_source_activate, audio_decoder_init. simpl.
  repeat (first [apply wpt_activate_cleanup_any; intros | wpt_call]; simpl);
    rewrite ?relay_calls_cons; simpl;
    first [left; reflexivity | right; eexists; reflexivity].
Qed.

(** X17.  Settings without a URL or without a broadcast path, or with
    an empty one, take the source down and keep it down: from any
    context the program can reach, [hang_source_update] ends inactive
    and opens no session. *)
Theorem update_without_address_stays_down
    (E : environment -> Prop) (e : environment)
    (settings : gmap string string) (c : hang_source) :
  reachable E c ->
  obs_data_get_string settings "url" = ""
  \/ obs_data_get_string settings "broadcast" = "" ->
  active (context_after (hang_source_update e settings c)) = false
  /\ opens_session (calls (hang_source_update e settings c)) = false.
Proof.
  intros Hreach Hmissing.
  pose proof (reachable_configured E c Hreach) as (Hon & _).
  change (wpt (hang_source_update e settings)
            (fun _ c' t => active c' = false /\ opens_session t = false) c).
  unfold hang_source_update.
  wpt_step. wpt_step. wpt_step.
  - wpt_step.
    match goal with H : _ && _ = true |- _ =>
      apply andb_prop in H; destruct H as [Hsu Hsp] end.
    destruct (url c) as [su |] eqn:Hu; [| discriminate Hsu].
    destruct (broadcast_path c) as [sp |] eqn:Hp; [| discriminate Hsp].
    rewrite negb_involutive in Hsu, Hsp.
    apply String.eqb_eq in Hsu, Hsp. subst su sp.
    split; [| reflexivity].
    destruct (active c) eqn:Ha; [| reflexivity].
    destruct (Hon eq_refl) as ((u & Hu' & Hacc & _) & (p & Hp' & Hpne) & _).
    destruct Hmissing as [Hm | Hm]; congruence.
  - wpt_step.
    apply (wpt_mono _ (fun _ c1 t => active c1 = false /\ opens_session t = false)).
    { split; [apply deactivate_makes_inactive | apply deactivate_opens_nothing]. }
    intros _ c1 t1 [Hdown Hquiet].
    destruct c1 as [u p a sid subid d ad f fs fw fh fq aq].
    simpl in Hdown. subst a.
    repeat (wpt_step; simpl); rewrite ?app_nil_r;
      try (split; [reflexivity | exact Hquiet]).
    exfalso.
    match goal with H : _ && _ = true |- _ =>
      apply andb_prop in H; destruct H as [H1 H2] end.
    destruct Hmissing as [Hm | Hm].
    + rewrite Hm in H1. discriminate H1.
    + rewrite Hm in H2. discriminate H2.
Qed.

(** Scenario 1, then settings with no key at all. *)
Lemma update_without_address_stays_down_witness :
  let e := software_env (yuv_frame 640 360) in
  let settings : gmap string string := ∅ in
  let c := subscribed in
  active (context_after (hang_source_update e settings c)) = false
  /\ opens_session (calls (hang_source_update e settings c)) = false.
Proof.
  intros e settings c.
  apply (update_without_address_stays_down any_environment e settings c).
  - apply reachable_create. exact I.
  - left. vm_compute. reflexivity.
Defined.

(** X18.  Changing the settings of a live source: the first two calls
    to the relay close the old subscription and the old session, in
    that order, and the next one, if any, connects to the new URL.  No
    session is opened while the old one is held. *)
Theorem update_closes_before_reconnecting (e : environment)
    (settings : gmap string string) (c : hang_source) :
  active c = true -> 0 < session_id c -> 0 < subscription_id c ->
  url c <> Some (obs_data_get_string settings "url")
  \/ broadcast_path c <> Some (obs_data_get_string settings "broadcast") ->
  exists rest,
    relay_calls (calls (hang_source_update e settings c))
    = moq_subscribe_close (subscription_id c)
      :: moq_session_close (session_id c) :: rest
    /\ (rest = []
        \/ exists rest',
             rest = moq_session_connect (obs_data_get_string settings "url")
                    :: rest').
Proof.
  intros Hactive Hsid Hsub Hchanged.
  change (wpt (hang_source_update e settings)
            (fun _ _ t =>
               exists rest,
                 relay_calls t
                 = moq_subscribe_close (subscription_id c)
                   :: moq_session_close (session_id c) :: rest
                 /\ (rest = []
                     \/ exists rest',
                          rest = moq_session_connect
                                   (obs_data_get_string settings "url")
                                 :: rest')) c).
  unfold hang_source_update.
  wpt_step. wpt_step. wpt_step.
  - exfalso.
    match goal with H : _ && _ = true |- _ =>
      apply andb_prop in H; destruct H as [Hsu Hsp] end.
    destruct (url c) as [su |] eqn:Hu; [| discriminate Hsu].
    destruct (broadcast_path c) as [sp |] eqn:Hp; [| discriminate Hsp].
    rewrite negb_involutive in Hsu, Hsp.
    apply String.eqb_eq in Hsu, Hsp. subst su sp.
    destruct Hchanged as [Hc | Hc]; apply Hc; reflexivity.
  - wpt_step.
    apply (wpt_mono _ (fun _ _ t =>
             relay_calls t = [moq_subscribe_close (subscription_id c);
                              moq_session_close (session_id c)])).
    { exact (deactivate_relay_calls c Hactive Hsid Hsub). }
    intros _ c1 t1 Ht1.
    repeat (wpt_step; simpl); rewrite ?app_nil_r, ?relay_calls_app, ?Ht1;
      try (exists []; split; [reflexivity | left; reflexivity]).
    unfold wpt. rewrite relay_calls_app, Ht1.
    match goal with
    | |- context [calls (hang_source_activate e ?c2)] =>
      destruct (activate_relay_head e c2) as [-> | (rest' & Hrest)]
    end.
    + exists []. split; [reflexivity | left; reflexivity].
    + rewrite Hrest. eexists. split; [reflexivity |].
      right. exists rest'. destruct c1; reflexivity.
Qed.

(** Scenario 1, then another relay. *)
Lemma update_closes_before_reconnecting_witness :
  let e := software_env (yuv_frame 640 360) in
  let settings := settings_of "https://other.example/moq" "demo/track" in
  let c := subscribed in
  exists rest,
    relay_calls (calls (hang_source_update e settings c))
    = moq_subscribe_close (subscription_id c)
      :: moq_session_close (session_id c) :: rest
    /\ (rest = []
        \/ exists rest',
             rest = moq_session_connect (obs_data_get_string settings "url")
                    :: rest').
Proof.
  intros e settings c.
  apply (update_closes_before_reconnecting e settings c).
  - vm_compute. reflexivity.
  - vm_compute. reflexivity.
  - vm_compute. reflexivity.
  - left. vm_compute. discriminate.
Defined.

Lemma deliver_inactive cb c :
  active c = false ->
  context_after (deliver cb c) = c
  /\ stages_frame (calls (deliver cb c)) = false
  /\ freed_blocks (calls (deliver cb c)) = [].
Proof.
  intros Hoff. destruct cb; simpl;
    unfold on_catalog, on_video, on_audio, on_error, context_after, calls,
      bind, get, emit, ret;
    cbn beta iota zeta; rewrite ?Hoff; repeat split; reflexivity.
Qed.

(** X19.  Callbacks that arrive after [hang_source_deactivate] find the
    source inactive: whatever the relay still delivers, and however
    much of it, the context stays as the deactivation left it, and no
    callback stages a frame or frees a buffer. *)
Theorem callbacks_after_deactivate_change_nothing
    (cbs : list callback) (c : hang_source) :
  let c' := context_after (hang_source_deactivate c) in
  deliver_all cbs c' = c'
  /\ forall cb, stages_frame (calls (deliver cb c')) = false
                /\ freed_blocks (calls (deliver cb c')) = [].
Proof.
  intros c'. subst c'.
  pose proof (deactivate_makes_inactive c) as Hoff.
  revert Hoff. generalize (context_after (hang_source_deactivate c)) as c'.
  intros c' Hoff. split.
  - unfold deliver_all.
    induction cbs as [| cb cbs IH]; [reflexivity |].
    simpl. destruct (deliver_inactive cb c' Hoff) as [-> _]. exact IH.
  - intros cb. destruct (deliver_inactive cb c' Hoff) as (_ & Hquiet).
    exact Hquiet.
Qed.

End Reconfiguration.

(** ** Rendering and destruction *)

Ltac render_cases e c r :=
  unfold Host.hang_source_video_render;
  destruct (Model.active c); simpl;
  [destruct (Model.current_frame_data c) as [data |] eqn:Hdata;
   [destruct (Model.current_frame_width c >? 0)%Z eqn:Hwpos,
             (Model.current_frame_height c >? 0)%Z eqn:Hhpos; simpl;
    [destruct r as [[tex |] rw rh]; simpl;
     [destruct (rw =? Model.current_frame_width c)%Z eqn:Hrw,
               (rh =? Model.current_frame_height c)%Z eqn:Hrh; simpl |];
     destruct e as [[|] [|]]; simpl | | |] |] |].

Section FrameGeometry.
Import Machine Repacker Model Decoder Source Properties Scenarios Host
  Observations Drivers.

Local Open Scope string_scope.
Local Open Scope Z_scope.
Local Open Scope list_scope.

Lemma frame_invariant_empty c : slot c = empty_slot -> frame_invariant c.
Proof.
  unfold slot, empty_slot. intros Hslot b Hb.
  injection Hslot as Hnull _ _ _. congruence.
Qed.

Lemma frame_invariant_same c c' :
  slot c' = slot c -> frame_invariant c -> frame_invariant c'.
Proof.
  unfold slot, frame_invariant. intros Hslot Hinv b Hb.
  injection Hslot as Hd Hs Hw Hh. rewrite Hd in Hb. rewrite Hs, Hw, Hh.
  exact (Hinv b Hb).
Qed.

Lemma frame_invariant_staged e c :
  slot c = staged_slot e -> codec_contract e -> frame_invariant c.
Proof.
  unfold slot, staged_slot, codec_contract, frame_invariant.
  intros Hslot Hfit b Hb.
  injection Hslot as Hd Hs Hw Hh.
  destruct (rgba_size_fits _ Hfit) as (Hsize & Hwidth & Hheight).
  destruct Hfit as (Hwpos & Hhpos & Hmax).
  rewrite Hs, Hw, Hh, Hwidth, Hheight, Hsize.
  rewrite Hd in Hb. injection Hb as <-. rewrite Hsize.
  repeat split; try assumption.
Qed.

Lemma reachable_frame_invariant c :
  reachable codec_contract c -> frame_invariant c.
Proof.
  induction 1 as [e settings _ | c c' _ IH Hstep].
  - apply frame_invariant_empty, create_zeroes_slot.
  - destruct (step_writes_slot _ c c' Hstep)
      as [Hsame | [Hempty | (e & He & Hstaged)]].
    + exact (frame_invariant_same c c' Hsame IH).
    + exact (frame_invariant_empty c' Hempty).
    + exact (frame_invariant_staged e c' Hstaged He).
Qed.

(** X20.  The size reported to the compositor, on every context the
    program can reach with a codec that keeps its contract: with a
    frame in the slot, [hang_source_get_width] and
    [hang_source_get_height] are the dimensions of that frame, and
    width x height x 4 is the size of its buffer; with no frame, they
    are the default 1920 and 1080. *)
Theorem reported_size_is_frame_size (c : hang_source) :
  reachable codec_contract c ->
  match current_frame_data c with
  | Some b =>
    hang_source_get_width c = current_frame_width c
    /\ hang_source_get_height c = current_frame_height c
    /\ hang_source_get_width c * hang_source_get_height c * 4 = block_bytes b
  | None =>
    hang_source_get_width c = 1920 /\ hang_source_get_height c = 1080
  end.
Proof.
  intros Hreach.
  pose proof (reachable_frame_invariant c Hreach) as Hframe.
  pose proof (reachable_invariant _ c Hreach) as (_ & Hnull & _).
  unfold hang_source_get_width, hang_source_get_height.
  destruct (current_frame_data c) as [b |] eqn:Hdata.
  - destruct (Hframe b Hdata) as (-> & Hsize & Hw & Hh & _).
    replace (current_frame_width c >? 0) with true by lia.
    replace (current_frame_height c >? 0) with true by lia.
    simpl. auto.
  - destruct Hnull as (_ & -> & ->); reflexivity || split; reflexivity.
Qed.

(** Scenario 1 with one 640x360 frame staged. *)
Lemma reported_size_is_frame_size_witness :
  let c := after_frame 640 360 subscribed in
  match current_frame_data c with
  | Some b =>
    hang_source_get_width c = current_frame_width c
    /\ hang_source_get_height c = current_frame_height c
    /\ hang_source_get_width c * hang_source_get_height c * 4 = block_bytes b
  | None =>
    hang_source_get_width c = 1920 /\ hang_source_get_height c = 1080
  end.
Proof.
  intros c.
  assert (He : codec_contract (software_env (yuv_frame 640 360))).
  { apply software_env_contract; unfold INT_MAX; lia. }
  apply (reported_size_is_frame_size c).
  apply reachable_step with subscribed.
  - apply reachable_create. exact He.
  - apply step_on_video. exact He.
Defined.

(** X21.  [hang_source_video_render] reads the staged buffer and
    nothing beyond it.  On every context the program can reach with a
    codec that keeps its contract, each upload hands the buffer in the
    slot to a texture whose rows are four bytes per pixel wide, without
    wrap-around, and whose rows together are exactly the bytes of the
    buffer; and each sprite is drawn at the dimensions of its texture,
    which are those of the frame. *)
Theorem render_uploads_staged_buffer
    (e : render_environment) (c : hang_source) (r : render_fields) :
  reachable codec_contract c -> texture_matches r ->
  let t := snd (hang_source_video_render e c r) in
  Forall (fun '(tex, data, linesize) =>
            current_frame_data c = Some data
            /\ linesize = 4 * texture_width tex
            /\ texture_height tex * linesize = block_bytes data)
         (uploads t)
  /\ Forall (fun '(tex, w, h) =>
               w = texture_width tex /\ h = texture_height tex
               /\ w = current_frame_width c /\ h = current_frame_height c)
            (sprites t).
Proof.
  intros Hreach Hmatch t. subst t.
  pose proof (reachable_frame_invariant c Hreach) as Hframe.
  assert (Hstride : forall b, current_frame_data c = Some b ->
            uint32_t (current_frame_width c * 4) = 4 * current_frame_width c
            /\ current_frame_height c * (4 * current_frame_width c)
               = block_bytes b).
  { intros b Hb. destruct (Hframe b Hb) as (-> & Hsize & Hw & Hh & Hmax).
    simpl. unfold uint32_t, INT_MAX in *. split; [| lia].
    rewrite Z.mod_small; nia. }
  render_cases e c r;
    try (split; constructor);
    destruct (Hstride data eq_refl) as [Hs Hrows];
    repeat match goal with
           | H : (_ =? _) = true |- _ => apply Z.eqb_eq in H
           end;
    try (destruct (Hmatch _ eq_refl) as [Htw Hth]; simpl in Htw, Hth);
    subst;
    repeat first [constructor | split]; simpl; try rewrite Hs; auto; try lia.
Qed.

Lemma render_uploads_staged_buffer_witness :
  let e := compositor in
  let c := after_frame 640 360 subscribed in
  let r := zeroed_render_fields in
  let t := snd (hang_source_video_render e c r) in
  Forall (fun '(tex, data, linesize) =>
            current_frame_data c = Some data
            /\ linesize = 4 * texture_width tex
            /\ texture_height tex * linesize = block_bytes data)
         (uploads t)
  /\ Forall (fun '(tex, w, h) =>
               w = texture_width tex /\ h = texture_height tex
               /\ w = current_frame_width c /\ h = current_frame_height c)
            (sprites t).
Proof.
  intros e c r.
  assert (He : codec_contract (software_env (yuv_frame 640 360))).
  { apply software_env_contract; unfold INT_MAX; lia. }
  apply (render_uploads_staged_buffer e c r).
  - apply reachable_step with subscribed.
    + apply reachable_create. exact He.
    + apply step_on_video. exact He.
  - intros tex Htex. discriminate Htex.
Defined.

End FrameGeometry.

Section Rendering.
Import Machine Repacker Model Decoder Source Properties Scenarios Host
  Observations Drivers.

Local Open Scope string_scope.
Local Open Scope Z_scope.
Local Open Scope list_scope.

(** X22.  How [hang_source_video_render] manages the texture.  The
    texture kept in the context always has the dimensions recorded
    beside it; whatever a render uploads to or draws is the texture it
    leaves in the context; a render that creates a texture destroys the
    one it replaces, and nothing else; a render that creates none
    destroys none and leaves the three fields as they were. *)
Theorem render_replaces_texture
    (e : render_environment) (c : hang_source) (r : render_fields) :
  texture_matches r ->
  let r' := fst (hang_source_video_render e c r) in
  let t := snd (hang_source_video_render e c r) in
  texture_matches r'
  /\ Forall (fun tex => texture r' = Some tex) (textures_used t)
  /\ (if creates_texture t
      then textures_destroyed t = option_list (texture r)
      else textures_destroyed t = [] /\ r' = r).
Proof.
  intros Hmatch r' t. subst r' t.
  render_cases e c r;
    repeat match goal with
           | H : (_ =? _) = true |- _ => apply Z.eqb_eq in H
           end;
    subst; (split; [| split]).
  all: try exact Hmatch.
  all: try (intros tex' Htex'; simpl in Htex'; try discriminate Htex';
            injection Htex' as <-; simpl; split; reflexivity).
  all: try (repeat constructor; fail).
  all: simpl; auto.
Qed.

Lemma render_replaces_texture_witness :
  let e := compositor in
  let c := after_frame 640 360 subscribed in
  let r := {| texture := Some {| texture_width := 1280; texture_height := 720 |};
              width := 1280; height := 720 |} in
  let r' := fst (hang_source_video_render e c r) in
  let t := snd (hang_source_video_render e c r) in
  texture_matches r'
  /\ Forall (fun tex => texture r' = Some tex) (textures_used t)
  /\ (if creates_texture t
      then textures_destroyed t = option_list (texture r)
      else textures_destroyed t = [] /\ r' = r).
Proof.
  intros e c r.
  apply (render_replaces_texture e c r).
  intros tex Htex. injection Htex as <-. split; reflexivity.
Defined.

(** X23.  A texture is made per frame size, not per frame: after a
    render that uploaded a frame, a render of any frame of the same
    dimensions creates no texture, destroys none and leaves the three
    fields as they are. *)
Theorem render_reuses_texture
    (e1 e2 : render_environment) (c c' : hang_source) (r : render_fields) :
  uploads (snd (hang_source_video_render e1 c r)) <> [] ->
  current_frame_width c' = current_frame_width c ->
  current_frame_height c' = current_frame_height c ->
  let r1 := fst (hang_source_video_render e1 c r) in
  fst (hang_source_video_render e2 c' r1) = r1
  /\ creates_texture (snd (hang_source_video_render e2 c' r1)) = false
  /\ textures_destroyed (snd (hang_source_video_render e2 c' r1)) = [].
Proof.
  intros Hup Hw Hh r1. subst r1. revert Hup.
  assert (Hsame : forall tex,
            let r1 := {| texture := Some tex;
                         width := current_frame_width c;
                         height := current_frame_height c |} in
            fst (hang_source_video_render e2 c' r1) = r1
            /\ creates_texture (snd (hang_source_video_render e2 c' r1)) = false
            /\ textures_destroyed (snd (hang_source_video_render e2 c' r1)) = []).
  { intros tex r1. subst r1. unfold hang_source_video_render.
    simpl. rewrite Hw, Hh, !Z.eqb_refl. simpl.
    destruct (active c'); simpl; [| auto].
    destruct (current_frame_data c'); simpl; [| auto].
    destruct (_ && _); simpl; [| auto].
    destruct (effect_has_image e2); simpl; auto. }
  render_cases e1 c r;
    repeat match goal with
           | H : (_ =? _) = true |- _ => apply Z.eqb_eq in H
           end;
    subst; intros Hup; try (exfalso; apply Hup; reflexivity);
    apply Hsame.
Qed.

Lemma render_reuses_texture_witness :
  let e1 := compositor in
  let e2 := compositor in
  let c := after_frame 640 360 subscribed in
  let c' := after_frame 640 360 c in
  let r := zeroed_render_fields in
  let r1 := fst (hang_source_video_render e1 c r) in
  fst (hang_source_video_render e2 c' r1) = r1
  /\ creates_texture (snd (hang_source_video_render e2 c' r1)) = false
  /\ textures_destroyed (snd (hang_source_video_render e2 c' r1)) = [].
Proof.
  intros e1 e2 c c' r.
  apply (render_reuses_texture e1 e2 c c' r).
  - vm_compute. discriminate.
  - vm_compute. reflexivity.
  - vm_compute. reflexivity.
Defined.

Lemma program_calls_app t1 t2 :
  program_calls (t1 ++ t2) = program_calls t1 ++ program_calls t2.
Proof. apply omap_app. Qed.

Lemma program_calls_program t : program_calls (map program t) = t.
Proof.
  induction t as [| ev t IH]; [reflexivity |].
  change (ev :: program_calls (map program t) = ev :: t). rewrite IH. reflexivity.
Qed.

Lemma program_calls_host {A} (f : A -> host_call) l :
  program_calls (map (fun x => host (f x)) l) = [].
Proof. induction l as [| x l IH]; [reflexivity | exact IH]. Qed.

Lemma textures_destroyed_app t1 t2 :
  textures_destroyed (t1 ++ t2) = textures_destroyed t1 ++ textures_destroyed t2.
Proof.
  unfold textures_destroyed, graphics_calls. rewrite !omap_app. reflexivity.
Qed.

Lemma textures_destroyed_program t : textures_destroyed (map program t) = [].
Proof. induction t as [| ev t IH]; [reflexivity | exact IH]. Qed.

Lemma textures_destroyed_frames l :
  textures_destroyed (map (fun f => host (obs_source_frame_free f)) l) = [].
Proof. induction l as [| x l IH]; [reflexivity | exact IH]. Qed.

Lemma textures_destroyed_audio l :
  textures_destroyed (map (fun a => host (free_audio a)) l) = [].
Proof. induction l as [| x l IH]; [reflexivity | exact IH]. Qed.

Lemma deactivate_releases c :
  let r := hang_source_deactivate c in
  let c1 := context_after r in
  relay_calls (calls r)
  ++ (if subscription_id c1 >? 0
      then [moq_subscribe_close (subscription_id c1)] else [])
  ++ (if session_id c1 >? 0
      then [moq_session_close (session_id c1)] else [])
  = (if subscription_id c >? 0
     then [moq_subscribe_close (subscription_id c)] else [])
    ++ (if session_id c >? 0
        then [moq_session_close (session_id c)] else [])
  /\ freed_blocks (calls r) ++ option_list (current_frame_data c1)
     = option_list (current_frame_data c).
Proof.
  intros r c1. subst r c1.
  change (wpt hang_source_deactivate
            (fun _ c1 t =>
               relay_calls t
               ++ (if subscription_id c1 >? 0
                   then [moq_subscribe_close (subscription_id c1)] else [])
               ++ (if session_id c1 >? 0
                   then [moq_session_close (session_id c1)] else [])
               = (if subscription_id c >? 0
                  then [moq_subscribe_close (subscription_id c)] else [])
                 ++ (if session_id c >? 0
                     then [moq_session_close (session_id c)] else [])
               /\ freed_blocks t ++ option_list (current_frame_data c1)
                  = option_list (current_frame_data c)) c).
  destruct c as [u p a sid subid d ad f fs fw fh fq aq].
  unfold hang_source_deactivate, audio_decoder_destroy. simpl.
  repeat (wpt_call; simpl); simpl in *; subst;
    repeat match goal with
           | H : (?x >? 0) = _ |- _ => rewrite H; clear H
           end;
    rewrite ?app_nil_r; split; reflexivity.
Qed.

(** X24.  [hang_source_destroy] releases each thing the context holds
    once, on any context at all.  Its closes after
    [hang_source_deactivate] never repeat one that the deactivation
    made: the subscription, when one is held, is closed once, then the
    session, when one is held, once, and the relay is asked nothing
    else.  The frame buffer in the slot, if any, is freed once; the
    texture, if any, is destroyed once. *)
Theorem destroy_releases_each_resource_once
    (c : hang_source) (r : render_fields) :
  let t := hang_source_destroy c r in
  relay_calls (program_calls t)
  = (if subscription_id c >? 0
     then [moq_subscribe_close (subscription_id c)] else [])
    ++ (if session_id c >? 0
        then [moq_session_close (session_id c)] else [])
  /\ freed_blocks (program_calls t) = option_list (current_frame_data c)
  /\ textures_destroyed t = option_list (texture r).
Proof.
  intros t. subst t.
  destruct (deactivate_releases c) as [Hrelay Hfreed].
  unfold hang_source_destroy, context_after, calls in *.
  destruct (hang_source_deactivate c) as [[[] c1] t1]. simpl in Hrelay, Hfreed.
  assert (Hvd : vaapi_decoder_destroy c1 = (tt, set_vaapi_context None c1, [])).
  { pose proof (wpt_vaapi_decoder_destroy
                  (fun a c' t => (a, c', t) = (tt, set_vaapi_context None c1, []))
                  c1 eq_refl) as H.
    unfold wpt, result, context_after, calls in H.
    destruct (vaapi_decoder_destroy c1) as [[a c'] t']. exact H. }
  rewrite Hvd. unfold audio_decoder_destroy, bind, emit, modify. simpl.
  replace (current_frame_data (set_audio_context false (set_vaapi_context None c1)))
    with (current_frame_data c1) by (destruct c1; reflexivity).
  rewrite !program_calls_app, !textures_destroyed_app,
    !program_calls_program, !textures_destroyed_program,
    !(program_calls_host obs_source_frame_free),
    !(program_calls_host free_audio),
    ?textures_destroyed_frames, ?textures_destroyed_audio.
  rewrite !relay_calls_app, !freed_blocks_app, !app_nil_r.
  split; [| split].
  - rewrite <- Hrelay.
    destruct (subscription_id c1 >? 0), (session_id c1 >? 0),
      (texture r), (current_frame_data c1); simpl;
      rewrite ?app_nil_r; reflexivity.
  - rewrite <- Hfreed.
    destruct (subscription_id c1 >? 0), (session_id c1 >? 0),
      (texture r), (current_frame_data c1); simpl;
      rewrite ?app_nil_r; reflexivity.
  - destruct (texture r), (current_frame_data c1); reflexivity.
Qed.

End Rendering.

(** ** From the relay to the screen *)

Section Composition.
Import Machine Repacker Model Decoder Source Properties Scenarios Host
  Observations Drivers.

Local Open Scope string_scope.
Local Open Scope Z_scope.
Local Open Scope list_scope.

Lemma decode_keeps_active e data pts keyframe c :
  active (context_after (vaapi_decoder_decode e data pts keyframe c)) = active c.
Proof.
  apply (wp_context_after (vaapi_decoder_decode e data pts keyframe)
           (fun c' => active c' = active c)).
  apply wp_vaapi_decoder_decode; intros d; destruct c; reflexivity.
Qed.

(** X25.  From the codec to the screen.  On an active source, with a
    codec that keeps its contract and a compositor that makes the
    texture and has the [image] parameter: after a decode that returned
    true, one render uploads one buffer of width x height x 4 bytes,
    in rows of 4 x width, to a texture of the dimensions of the decoded
    frame, and draws that texture once at those dimensions. *)
Theorem decoded_frame_is_drawn
    (e : environment) (re : render_environment)
    (data : list byte) (pts : Z) (keyframe : bool)
    (c : hang_source) (r : render_fields) :
  codec_contract e -> active c = true -> texture_matches r ->
  texture_create_ok re = true -> effect_has_image re = true ->
  result (vaapi_decoder_decode e data pts keyframe c) = true ->
  let frame := decoded_frame e in
  let tex := {| texture_width := frame_width frame;
                texture_height := frame_height frame |} in
  let c' := context_after (vaapi_decoder_decode e data pts keyframe c) in
  let t := snd (hang_source_video_render re c' r) in
  uploads t
  = [(tex, Block (frame_width frame * frame_height frame * 4),
      4 * frame_width frame)]
  /\ sprites t = [(tex, frame_width frame, frame_height frame)].
Proof.
  intros Hfit Hactive Hmatch Hcreate Himage Hdecoded frame tex c' t.
  subst frame tex c' t.
  pose proof (decode_keeps_active e data pts keyframe c) as Hkept.
  destruct (decode_cases e data pts keyframe c)
    as [(Hfalse & _) | (_ & Hslot & _)]; [congruence |].
  revert Hkept Hslot.
  generalize (context_after (vaapi_decoder_decode e data pts keyframe c)) as c'.
  intros c' Hkept Hslot. rewrite Hactive in Hkept.
  unfold slot, staged_slot in Hslot. injection Hslot as Hd Hs Hw Hh.
  destruct (rgba_size_fits _ Hfit) as (Hsize & Hwidth & Hheight).
  destruct Hfit as (Hwpos & Hhpos & Hmax).
  rewrite Hsize in Hd. rewrite Hwidth in Hw. rewrite Hheight in Hh.
  assert (Hstride : uint32_t (frame_width (decoded_frame e) * 4)
                    = 4 * frame_width (decoded_frame e)).
  { unfold uint32_t, INT_MAX in *. rewrite Z.mod_small; nia. }
  unfold hang_source_video_render.
  rewrite Hkept, Hd, Hw, Hh, Hcreate, Himage, Hstride.
  replace (frame_width (decoded_frame e) >? 0) with true by lia.
  replace (frame_height (decoded_frame e) >? 0) with true by lia.
  simpl.
  destruct r as [[[tw th] |] rw rh]; simpl.
  - destruct (rw =? frame_width (decoded_frame e)) eqn:Hrw,
             (rh =? frame_height (decoded_frame e)) eqn:Hrh; simpl;
      try (split; reflexivity).
    apply Z.eqb_eq in Hrw, Hrh.
    destruct (Hmatch _ eq_refl) as [Htw Hth]. simpl in Htw, Hth. subst.
    split; reflexivity.
  - split; reflexivity.
Qed.

Lemma decoded_frame_is_drawn_witness :
  let e := software_env (yuv_frame 640 360) in
  let re := compositor in
  let c := subscribed in
  let r := zeroed_render_fields in
  let frame := decoded_frame e in
  let tex := {| texture_width := frame_width frame;
                texture_height := frame_height frame |} in
  let c' := context_after (vaapi_decoder_decode e [] 0 true c) in
  let t := snd (hang_source_video_render re c' r) in
  uploads t
  = [(tex, Block (frame_width frame * frame_height frame * 4),
      4 * frame_width frame)]
  /\ sprites t = [(tex, frame_width frame, frame_height frame)].
Proof.
  intros e re c r.
  apply (decoded_frame_is_drawn e re [] 0 true c r).
  - apply software_env_contract; unfold INT_MAX; lia.
  - vm_compute. reflexivity.
  - intros tex Htex. discriminate Htex.
  - reflexivity.
  - reflexivity.
  - vm_compute. reflexivity.
Defined.

(** X26.  [hang_source_create] is configuration followed by
    activation: the context it returns is the one
    [hang_source_activate] leaves when run on a zeroed context that
    holds the two strings of the settings.  In particular the test of
    [hang_source_update] on the string lengths lets through nothing
    that [hang_source_activate] would not check again. *)
Theorem create_is_configure_then_activate
    (e : environment) (settings : gmap string string) :
  hang_source_create e settings
  = context_after
      (hang_source_activate e
         (configured (obs_data_get_string settings "url")
                     (obs_data_get_string settings "broadcast"))).
Proof.
  unfold hang_source_create, hang_source_update, hang_source_deactivate,
    configured, context_after at 1, bind, get, modify, ret.
  simpl.
  generalize (obs_data_get_string settings "url") as u.
  generalize (obs_data_get_string settings "broadcast") as p.
  intros p u.
  destruct (strlen u >? 0) eqn:Hu; simpl.
  - destruct (strlen p >? 0) eqn:Hp; simpl.
    + destruct (hang_source_activate e _) as [[[] c'] t']. reflexivity.
    + unfold hang_source_activate, context_after, bind, get, ret. simpl.
      replace (strlen p =? 0) with true
        by (symmetry; apply Z.eqb_eq; rewrite Z.gtb_ltb in Hp;
            apply Z.ltb_ge in Hp; unfold strlen in *; lia).
      rewrite orb_true_r. reflexivity.
  - unfold hang_source_activate, context_after, bind, get, ret. simpl.
    replace (strlen u =? 0) with true
      by (symmetry; apply Z.eqb_eq; rewrite Z.gtb_ltb in Hu;
          apply Z.ltb_ge in Hu; unfold strlen in *; lia). reflexivity.
Qed.

End Composition.
